(** * Universal Image Upscaler: the batch image pipeline, embedded in Rocq

    A shallow embedding of the sizing utilities, the four API routes
    (process-image, upscale-image, download-all, serve-image), the
    client-side batch loop [processImages] and the uploader's [handleFiles],
    followed by the properties the specification states about them and by
    further properties of the same code.

    Conventions of the embedding.
    - A JavaScript [number] that holds a pixel count, a byte count or an index
      is a [Z]; a ratio of two such numbers is an exact rational [Q].  The
      source computes with IEEE doubles; the embedding computes the same
      expressions exactly.  The two differ in two places.  (1) A quotient
      is the JavaScript one only for a non-zero divisor (JavaScript yields an
      infinity or NaN otherwise, [Q] yields [0]); the routes divide by the
      longer axis of an image, and the statements that depend on a quotient
      assume that axis positive, or not zero.  (2) When the exact value of
      [axis * (num / den)] lies half-way between two integers, the double
      product may fall just below the half, and [Math.round] then returns
      one less than the exact rounding: for 612 * (1300 / 1632) = 487.5 the
      source yields 487, the exact evaluation 488.  The module [Binary64]
      evaluates the expression as the source does, and
      [binary64_resize_agrees] shows that for sizes below 2^25 this is the
      only difference; a statement that quotes the rounded expression is
      about the exact evaluation.
    - A JavaScript string is the list of its UTF-16 code units ([jsstring]).
    - What the source obtains from the outside (the clock, the network, the
      image decoder, the upscaling provider, the file system) is an explicit
      argument of the function that uses it. *)

From Stdlib Require Import ZArith QArith Qround Qabs Qminmax List Lia String Ascii.
From Stdlib Require Import DecimalString DecimalPos DecimalZ Lqa Qpower.
From stdpp Require Import gmap.
Import ListNotations.

Local Open Scope Z_scope.

(** ** JavaScript values *)

Module JS.

(** A string, as the sequence of its code units. *)
Definition jsstring := list N.

(** The string denoted by a literal of the source. *)
Definition lit (s : string) : jsstring :=
  List.map N_of_ascii (list_ascii_of_string s).

(** [Math.round]: the nearest integer, a tie going up. *)
Definition Math_round (x : Q) : Z := Qfloor (x + (1 # 2)).

(** [Math.min] on the scale factors the routes clamp. *)
Definition Math_min (x y : Q) : Q := Qmin x y.

(** Truthiness of a string: only the empty string is falsy. *)
Definition truthy_str (s : jsstring) : bool :=
  match s with [] => false | _ :: _ => true end.

(** [String(n)] for an integer [n], as a template literal renders it. *)
Definition string_of_Z (n : Z) : jsstring :=
  lit (NilZero.string_of_int (Z.to_int n)).

(** [s.startsWith(p)]. *)
Fixpoint startsWith (s p : jsstring) : bool :=
  match p, s with
  | [], _ => true
  | _ :: _, [] => false
  | c :: p', d :: s' => N.eqb c d && startsWith s' p'
  end.

End JS.
Import JS.

(** ** The sizing utilities *)

Record ImageDimensions := { width : Z; height : Z }.

Definition maxAxis (d : ImageDimensions) : Z := Z.max (width d) (height d).

(** [targetMaxDimension] is an optional argument: [None] takes the default
    of the signature. *)
Definition calculateUpscaleFactor (currentSize : ImageDimensions)
    (targetMaxDimension : option Z) : Q :=
  let targetMaxDimension := default 2560 targetMaxDimension in
  let maxCurrent := Z.max (width currentSize) (height currentSize) in
  if maxCurrent >=? targetMaxDimension then 1%Q
  else (inject_Z targetMaxDimension / inject_Z maxCurrent)%Q.

Definition calculateResizeDimensions (originalSize : ImageDimensions)
    (maxDimension : Z) : ImageDimensions * bool :=
  let maxOriginal := Z.max (width originalSize) (height originalSize) in
  if maxOriginal <=? maxDimension then (originalSize, false)
  else
    let scaleFactor := (inject_Z maxDimension / inject_Z maxOriginal)%Q in
    ({| width := Math_round (inject_Z (width originalSize) * scaleFactor);
        height := Math_round (inject_Z (height originalSize) * scaleFactor) |},
     true).

(** ** The same arithmetic in binary64

    The source evaluates [axis * (num / den)] in IEEE 754 binary64: the
    quotient is rounded to the nearest double, and so is the product.  A
    double is modelled by the rational it denotes.  The range of exponents
    of the format is not modelled: the values rounded here lie far from its
    ends. *)

Module Binary64.

(** The exponent [e] of a positive rational [x]: [2^e <= x < 2^(e+1)]. *)
Definition exponent (x : Q) : Z :=
  let e := Z.log2 (Qnum x) - Z.log2 (Zpos (Qden x)) in
  if Qle_bool (2 ^ e) x then e else e - 1.

(** The nearest integer, a tie going to the even one. *)
Definition nearestEven (y : Q) : Z :=
  let n := Qfloor y in
  match Qcompare (y - inject_Z n) (1 # 2) with
  | Lt => n
  | Gt => n + 1
  | Eq => if Z.even n then n else n + 1
  end.

(** A positive [x] rounded to 53 significant bits. *)
Definition nearest (x : Q) : Q :=
  let ulp := (2 ^ (exponent x - 52))%Q in
  (inject_Z (nearestEven (x / ulp)) * ulp)%Q.

(** The double nearest to [x]. *)
Definition round (x : Q) : Q :=
  match Qcompare x 0 with
  | Eq => 0%Q
  | Gt => nearest x
  | Lt => (- nearest (- x))%Q
  end.

(** [a / b] and [a * b] on doubles. *)
Definition div (a b : Q) : Q := round (a / b).
Definition mul (a b : Q) : Q := round (a * b).

(** [Math.round(axis * scaleFactor)] with [scaleFactor = num / den], the
    expression of [calculateResizeDimensions], of the resize step of the
    process-image route and of the final size the upscale-image route
    reports. *)
Definition scaled (axis num den : Z) : Z :=
  let scaleFactor := div (inject_Z num) (inject_Z den) in
  Math_round (mul (inject_Z axis) scaleFactor).

Definition calculateResizeDimensions (originalSize : ImageDimensions)
    (maxDimension : Z) : ImageDimensions * bool :=
  let maxOriginal := Z.max (width originalSize) (height originalSize) in
  if maxOriginal <=? maxDimension then (originalSize, false)
  else
    ({| width := scaled (width originalSize) maxDimension maxOriginal;
        height := scaled (height originalSize) maxDimension maxOriginal |},
     true).

End Binary64.

(** [formatFileSize].  [Math.floor(Math.log(bytes) / Math.log(1024))] is
    taken to be the integer logarithm of [bytes] in base 1024, the value the
    expression denotes; [bytes / Math.pow(1024, i)] is a division by a power
    of two and is exact.  [Number.prototype.toFixed(1)] picks the integer [n]
    with [n / 10] nearest to the number, the larger one on a tie, and prints
    it with one digit after the point; a negative number is printed as its
    opposite after a minus sign.  [sizes[i]] beyond the end of the array is
    [undefined], which the template literal prints as such. *)

Definition toFixed1_nonneg (x : Q) : jsstring :=
  let n := Qfloor (x * 10 + (1 # 2)) in
  string_of_Z (n / 10) ++ lit "." ++ string_of_Z (n mod 10).

Definition toFixed1 (x : Q) : jsstring :=
  if Qle_bool 0 x then toFixed1_nonneg x
  else lit "-" ++ toFixed1_nonneg (- x).

Definition sizes : list jsstring := [lit "B"; lit "KB"; lit "MB"; lit "GB"].

Definition log1024 (bytes : N) : nat := N.to_nat (N.log2 bytes / 10).

Definition formatFileSize (bytes : N) : jsstring :=
  if N.eqb bytes 0 then lit "0 B"
  else
    let k := 1024 in
    let i := log1024 bytes in
    toFixed1 (inject_Z (Z.of_N bytes) / inject_Z (k ^ Z.of_nat i))
      ++ lit " " ++ nth i sizes (lit "undefined").

(** The part of a browser [File] the pipeline reads. *)
Record File := {
  file_name : jsstring;
  file_type : jsstring;
  file_size : N;
  file_bytes : list N
}.

Record Validation := { valid : bool; error : option jsstring }.

Definition maxSize : N := 50 * 1024 * 1024.

Definition supportedTypes : list jsstring :=
  [lit "image/jpeg"; lit "image/jpg"; lit "image/png"; lit "image/webp";
   lit "image/avif"; lit "image/bmp"; lit "image/tiff"; lit "image/gif"].

(** [xs.includes(x)] on an array of strings. *)
Definition includes (xs : list jsstring) (x : jsstring) : bool :=
  existsb (fun y => bool_decide (y = x)) xs.

Definition validateImageFile (file : File) : Validation :=
  if negb (includes supportedTypes (file_type file)) then
    {| valid := false;
       error := Some (lit "Unsupported file type: " ++ file_type file
                      ++ lit ". Supported formats: JPEG, PNG, WebP, AVIF, BMP, TIFF, GIF") |}
  else if (maxSize <? file_size file)%N then
    {| valid := false;
       error := Some (lit "File too large: " ++ formatFileSize (file_size file)
                      ++ lit ". Maximum size: " ++ formatFileSize maxSize) |}
  else {| valid := true; error := None |}.

(** [sanitizeFileName].  The three regular expressions, on code units. *)

Definition dot : N := 46.
Definition slash : N := 47.
Definition underscore : N := 95.
Definition hyphen : N := 45.

(** [/\.[^/.]+$/]: a dot followed, up to the end of the string, by one or
    more code units that are neither a slash nor a dot.  [replace] without the
    [g] flag removes the leftmost match. *)
Definition isExtChar (c : N) : bool := negb (N.eqb c slash || N.eqb c dot).

Fixpoint stripExtension (s : jsstring) : jsstring :=
  match s with
  | [] => []
  | c :: rest =>
      if N.eqb c dot && truthy_str rest && forallb isExtChar rest then []
      else c :: stripExtension rest
  end.

(** The class [\s]: white space and line terminators. *)
Definition isSpace (c : N) : bool :=
  ((9 <=? c) && (c <=? 13) || N.eqb c 32 || N.eqb c 160 || N.eqb c 5760
   || (8192 <=? c) && (c <=? 8202) || N.eqb c 8232 || N.eqb c 8233
   || N.eqb c 8239 || N.eqb c 8287 || N.eqb c 12288 || N.eqb c 65279)%N.

(** [replace(/\s+/g, '_')]: [inRun] tells that the previous code unit was
    white space, already replaced. *)
Fixpoint collapseSpaces (inRun : bool) (s : jsstring) : jsstring :=
  match s with
  | [] => []
  | c :: rest =>
      if isSpace c then
        if inRun then collapseSpaces true rest
        else underscore :: collapseSpaces true rest
      else c :: collapseSpaces false rest
  end.

(** The class [[a-zA-Z0-9_-]]. *)
Definition isNameChar (c : N) : bool :=
  ((97 <=? c) && (c <=? 122) || (65 <=? c) && (c <=? 90)
   || (48 <=? c) && (c <=? 57) || N.eqb c underscore || N.eqb c hyphen)%N.

(** The constant [sanitized] of [sanitizeFileName]. *)
Definition sanitized (filename : jsstring) : jsstring :=
  let nameWithoutExt := stripExtension filename in
  firstn 50 (List.filter isNameChar (collapseSpaces false nameWithoutExt)).

(** [now] is the value [Date.now()] returns during the call. *)
Definition sanitizeFileName (now : Z) (filename : jsstring) : jsstring :=
  if truthy_str (sanitized filename) then sanitized filename
  else lit "image_" ++ string_of_Z now.

(** [prefix] and [index] are optional arguments: [None] is [undefined]. *)
Definition generateProcessedFileName (now : Z) (originalName : jsstring)
    (prefix : option jsstring) (index : option Z) : jsstring :=
  match prefix, index with
  | Some p, Some i =>
      if truthy_str p then sanitizeFileName now p ++ lit "_" ++ string_of_Z (i + 1)
      else lit "image_" ++ string_of_Z (i + 1)
  | None, Some i => lit "image_" ++ string_of_Z (i + 1)
  | _, None => sanitizeFileName now originalName
  end.

(** The string whose sanitizing decides the generated name, if there is
    one: the prefix when a non-empty prefix and an index are given, the
    original name when no index is given. *)
Definition sanitizedArgument (originalName : jsstring)
    (prefix : option jsstring) (index : option Z) : option jsstring :=
  match prefix, index with
  | Some p, Some _ => if truthy_str p then Some p else None
  | None, Some _ => None
  | _, None => Some originalName
  end.

(** ** Values that come from outside *)

(** A call into the outside world either returns or throws an [Error]
    carrying a message. *)
Inductive Outcome (A : Type) :=
  | Returned (a : A)
  | Threw (message : jsstring).
Arguments Returned {A} a.
Arguments Threw {A} message.

#[local] Set Warnings "-register-all".

(** A JavaScript value as [JSON.parse] builds it; the [fields] of an object
    are its own properties, each key once.  A property that is absent reads
    as [undefined], which is [None] where a value is looked up. *)
Inductive Json :=
  | JNull
  | JBool (b : bool)
  | JNum (q : Q)
  | JStr (s : jsstring)
  | JArr (items : list Json)
  | JObj (fields : list (jsstring * Json)).

Definition truthy (v : Json) : bool :=
  match v with
  | JNull => false
  | JBool b => b
  | JNum q => negb (Qeq_bool q 0)
  | JStr s => truthy_str s
  | JArr _ | JObj _ => true
  end.

Definition truthy_opt (v : option Json) : bool :=
  match v with Some x => truthy x | None => false end.

(** [typeof v === 'object'], which holds of [null] too. *)
Definition isObject (v : Json) : bool :=
  match v with JNull | JArr _ | JObj _ => true | _ => false end.

(** [v.key]: own properties of an object; anything else has none of the
    properties the routes read. *)
Fixpoint lookupField (key : jsstring) (fields : list (jsstring * Json))
    : option Json :=
  match fields with
  | [] => None
  | (k, x) :: rest => if bool_decide (k = key) then Some x else lookupField key rest
  end.

Definition prop (v : Json) (key : jsstring) : option Json :=
  match v with JObj fields => lookupField key fields | _ => None end.

(** [Object.keys(v).length] for a value with [typeof v === 'object']. *)
Definition keyCount (v : Json) : nat :=
  match v with
  | JArr items => List.length items
  | JObj fields => List.length fields
  | _ => O
  end.

(** [v === 'text'] for a looked-up property. *)
Definition isString (v : option Json) (text : string) : bool :=
  match v with Some (JStr s) => bool_decide (s = lit text) | _ => false end.

(** An HTTP response with a JSON body of type [B]. *)
Record Response (B : Type) := { status : Z; body : B }.
Arguments status {B} r.
Arguments body {B} r.

Definition ok {B} (r : Response B) : bool :=
  (200 <=? status r) && (status r <=? 299).

(** What is sent to the upscaling provider: the image and the [scale] and
    [face_enhance] inputs of the model. *)
Record ProviderRequest := {
  req_image : list N;
  req_scale : Q;
  req_face_enhance : bool
}.

(** ** The process-image route *)

Module ProcessImage.

Definition MAX_FILE_SIZE : N := 50 * 1024 * 1024.

(** The parsed [settings] field of the form; an absent key is [None] and
    takes the default of the destructuring. *)
Record Settings := {
  fileName : jsstring;
  maxDimension : option Z;
  enableUpscaling : option bool;
  targetSize : option Z
}.

Record Result := {
  success : bool;
  processedName : jsstring;
  originalSize : ImageDimensions;
  finalSize : ImageDimensions;
  wasResized : bool;
  wasUpscaled : bool;
  scaleFactor : Q;
  downloadUrl : jsstring;
  preview : jsstring
}.

(** The JSON body: [{success: false, error}] or the result object. *)
Inductive Body :=
  | Failure (error : jsstring)
  | Processed (r : Result).

(** What [upscaleWithReplicate] returns: the object with [success: true] or
    the one with [success: false]. *)
Inductive UpscaleResult :=
  | Upscaled (scaleFactor : Q) (finalSize : ImageDimensions) (downloadUrl : jsstring)
  | NotUpscaled (error : jsstring).

(** The outside world during one request.  [now] and [upscaleNow] are the
    values of [Date.now()] in [POST] and in [upscaleWithReplicate]; [dirsOk],
    [saveOriginalOk] and [saveProcessedOk] tell whether [ensureDirectories],
    the [writeFile] of the upload and the [toFile] of the processed image
    succeed; [metadata] is [sharp(buffer).metadata()], a missing [width] or
    [height] being [0]; [apiToken] is the variable [REPLICATE_API_TOKEN] of
    the process; [encoded] is the import of the provider's client followed by
    [readFileSync] of the processed file; [run] is [replicate.run], its
    result taken as data; [fetchUrl] gives [ok], [statusText] and the bytes
    of the response; [saveUpscaled] is the [writeFile] of the upscaled
    image. *)
Record Env := {
  now : Z;
  dirsOk : bool;
  saveOriginalOk : bool;
  metadata : list N -> Outcome (Z * Z);
  saveProcessedOk : bool;
  apiToken : option jsstring;
  encoded : Outcome (list N);
  run : ProviderRequest -> Outcome Json;
  fetchUrl : jsstring -> Outcome (bool * jsstring * list N);
  upscaleNow : Z;
  saveUpscaled : Outcome unit
}.

(** The URL in the provider's output: the output itself when it is a string,
    else its [url] or [stringValue] property when that is a string, else its
    first element when it is an array that starts with a string. *)
Definition outputUrl (output : Json) : option jsstring :=
  match output with
  | JStr s => Some s
  | JObj _ | JArr _ =>
      match prop output (lit "url") with
      | Some (JStr u) => Some u
      | _ =>
          match prop output (lit "stringValue") with
          | Some (JStr u) => Some u
          | _ =>
              match output with
              | JArr (JStr u :: _) => Some u
              | _ => None
              end
          end
      end
  | _ => None
  end.

(** The part of [upscaleWithReplicate] after the provider has answered with
    a usable URL. *)
Definition storeUpscaled (env : Env) (fileName imageUrl : jsstring)
    (scaleFactor : Q) : UpscaleResult :=
  match fetchUrl env imageUrl with
  | Threw m => NotUpscaled m
  | Returned (okay, statusText, upscaledBuffer) =>
      if negb okay then
        NotUpscaled (lit "Failed to download upscaled image: " ++ statusText)
      else
        match metadata env upscaledBuffer with
        | Threw m => NotUpscaled m
        | Returned (w, h) =>
            if (w =? 0) || (h =? 0) then NotUpscaled (lit "Invalid upscaled image")
            else
              match saveUpscaled env with
              | Threw m => NotUpscaled m
              | Returned _ =>
                  let upscaledFileName :=
                    lit "upscaled_" ++ string_of_Z (upscaleNow env) ++ lit "_"
                      ++ fileName ++ lit ".png" in
                  Upscaled scaleFactor {| width := w; height := h |}
                    (lit "/api/serve-image/" ++ upscaledFileName)
              end
        end
  end.

(** [upscaleWithReplicate]: the requests submitted to the provider, and the
    value returned or the error thrown. *)
Definition upscaleWithReplicate (env : Env) (fileName : jsstring)
    (currentSize : ImageDimensions) (targetSize : Z)
    : list ProviderRequest * Outcome UpscaleResult :=
  if negb (truthy_str (default [] (apiToken env))) then
    ([], Threw (lit "REPLICATE_API_TOKEN not configured"))
  else
    let maxCurrentDimension := Z.max (width currentSize) (height currentSize) in
    let scaleFactor := (inject_Z targetSize / inject_Z maxCurrentDimension)%Q in
    if Qle_bool scaleFactor 1 then
      ([], Returned (NotUpscaled
         (lit "Image already at target size or larger (current: "
            ++ string_of_Z maxCurrentDimension ++ lit "px, target: "
            ++ string_of_Z targetSize ++ lit "px)")))
    else
      match encoded env with
      | Threw m => ([], Returned (NotUpscaled m))
      | Returned imageBuffer =>
          let request :=
            {| req_image := imageBuffer;
               req_scale := Math_min scaleFactor 4;
               req_face_enhance := false |} in
          ([request],
           Returned
             match run env request with
             | Threw m => NotUpscaled m
             | Returned output =>
                 match outputUrl output with
                 | Some imageUrl =>
                     if truthy_str imageUrl then
                       storeUpscaled env fileName imageUrl scaleFactor
                     else NotUpscaled (lit "No output from Replicate")
                 | None => NotUpscaled (lit "No output from Replicate")
                 end
             end)
      end.

Definition internalError : Response Body :=
  {| status := 500; body := Failure (lit "Internal server error") |}.

Definition badRequest (error : jsstring) : Response Body :=
  {| status := 400; body := Failure error |}.

(** [a || b] on strings. *)
Definition orElse (a b : jsstring) : jsstring := if truthy_str a then a else b.

(** [POST].  [file] is [None] when the form has no file; [settings] is the
    outcome of [JSON.parse]. *)
Definition POST (env : Env) (file : option File) (settings : Outcome Settings)
    : list ProviderRequest * Response Body :=
  if negb (dirsOk env) then ([], internalError)
  else
    match file with
    | None => ([], badRequest (lit "No file provided"))
    | Some file =>
        if (MAX_FILE_SIZE <? file_size file)%N then
          ([], badRequest
             (lit "File too large: "
                ++ toFixed1 (inject_Z (Z.of_N (file_size file)) / 1024 / 1024)
                ++ lit "MB (max: 50MB)"))
        else
          match settings with
          | Threw _ => ([], internalError)
          | Returned settings =>
              let maxDimension := default 1300 (maxDimension settings) in
              let enableUpscaling := default true (enableUpscaling settings) in
              let targetSize := default 2560 (targetSize settings) in
              let timestamp := now env in
              if negb (saveOriginalOk env) then ([], internalError)
              else
                match metadata env (file_bytes file) with
                | Threw _ => ([], internalError)
                | Returned (w, h) =>
                    if (w =? 0) || (h =? 0) then
                      ([], badRequest (lit "Invalid image file"))
                    else
                      let originalSize := {| width := w; height := h |} in
                      let maxCurrentDimension := Z.max w h in
                      let resized :=
                        if maxDimension <? maxCurrentDimension then
                          let scaleFactor :=
                            (inject_Z maxDimension / inject_Z maxCurrentDimension)%Q in
                          ({| width := Math_round (inject_Z w * scaleFactor);
                              height := Math_round (inject_Z h * scaleFactor) |},
                           true)
                        else (originalSize, false) in
                      let finalSize := fst resized in
                      let wasResized := snd resized in
                      if negb (saveProcessedOk env) then ([], internalError)
                      else
                        let processedFileName := fileName settings ++ lit ".png" in
                        let processedUrl :=
                          lit "/api/serve-image/" ++ string_of_Z timestamp
                            ++ lit "_" ++ processedFileName in
                        let result :=
                          {| success := true;
                             processedName := fileName settings;
                             originalSize := originalSize;
                             finalSize := finalSize;
                             wasResized := wasResized;
                             wasUpscaled := false;
                             scaleFactor := 1;
                             downloadUrl := processedUrl;
                             preview := processedUrl |} in
                        let finalMaxDimension :=
                          Z.max (width finalSize) (height finalSize) in
                        if enableUpscaling && (finalMaxDimension <? targetSize) then
                          let (requests, upscaleResult) :=
                            upscaleWithReplicate env (fileName settings)
                              finalSize targetSize in
                          (requests,
                           {| status := 200;
                              body := Processed
                                match upscaleResult with
                                | Returned (Upscaled f size url) =>
                                    {| success := true;
                                       processedName := processedName result;
                                       originalSize := originalSize;
                                       finalSize := size;
                                       wasResized := wasResized;
                                       wasUpscaled := true;
                                       scaleFactor := f;
                                       downloadUrl := orElse url (downloadUrl result);
                                       preview := orElse url (preview result) |}
                                | Returned (NotUpscaled _) | Threw _ => result
                                end |})
                        else ([], {| status := 200; body := Processed result |})
                end
          end
    end.

End ProcessImage.

(** ** The upscale-image route *)

Module UpscaleImage.

Record Request := {
  imageUrl : jsstring;
  fileName : jsstring;
  currentSize : ImageDimensions;
  targetSize : Z
}.

(** The JSON body: the object with [success: true] or the one with
    [success: false].  [downloadUrl] is whatever value the provider's
    response held at the place of the URL. *)
Inductive Body :=
  | Success (scaleFactor : Q) (finalSize : ImageDimensions) (downloadUrl : Json)
  | Failure (error : jsstring).

(** The outside world during one request.  [fetchImage] gives [ok],
    [statusText] and the bytes; [predict] is the call to the provider's
    predictions endpoint and gives the HTTP status and the parsed body;
    [toText] is the conversion of a value to a string in a template
    literal. *)
Record Env := {
  apiToken : option jsstring;
  fetchImage : jsstring -> Outcome (bool * jsstring * list N);
  predict : ProviderRequest -> Outcome (Z * Json);
  toText : Json -> jsstring
}.

Definition respond (code : Z) (b : Body) : Response Body :=
  {| status := code; body := b |}.

(** The URL the route takes from a response whose [status] is [succeeded] or
    [processing]: [output.output] when it is a string, its first element when
    it is a non-empty array. *)
Definition resultUrlOf (output : Json) : option Json :=
  match prop output (lit "output") with
  | Some (JStr s) => Some (JStr s)
  | Some (JArr (first :: _)) => Some first
  | _ => None
  end.

(** What the route does with the provider's answer.  A parsed JSON value has
    no function-valued property, so the branch of the source that looks for a
    [read] method is never taken. *)
Definition interpret (env : Env) (req : Request) (scaleFactor : Q)
    (code : Z) (output : Json) : Response Body :=
  if truthy output && isObject output && Nat.eqb (keyCount output) 0 then
    respond 200 (Failure
      (lit "Replicate returned empty object - this might be a model or API issue"))
  else if negb ((200 <=? code) && (code <=? 299)) then
    respond 200 (Failure (lit "Replicate API error: " ++ string_of_Z code))
  else
    let statusIs (text : string) := isString (prop output (lit "status")) text in
    let settled :=
      truthy output && (statusIs "succeeded"%string || statusIs "processing"%string)
        && truthy_opt (prop output (lit "output")) in
    if negb settled && truthy output && statusIs "failed"%string then
      respond 200 (Failure
        (lit "Replicate prediction failed: "
           ++ match prop output (lit "error") with
              | Some e => if truthy e then toText env e else lit "Unknown error"
              | None => lit "Unknown error"
              end))
    else
      match (if settled then resultUrlOf output else None) with
      | Some resultUrl =>
          if truthy resultUrl then
            respond 200 (Success scaleFactor
              {| width :=
                   Math_round (inject_Z (width (currentSize req)) * scaleFactor);
                 height :=
                   Math_round (inject_Z (height (currentSize req)) * scaleFactor) |}
              resultUrl)
          else respond 200 (Failure (lit "No valid URL in Replicate response"))
      | None => respond 200 (Failure (lit "No valid URL in Replicate response"))
      end.

(** [POST]: the requests submitted to the provider and the response.
    [request] is the outcome of [request.json()]. *)
Definition POST (env : Env) (request : Outcome Request)
    : list ProviderRequest * Response Body :=
  match request with
  | Threw m => ([], respond 500 (Failure m))
  | Returned req =>
      if negb (truthy_str (default [] (apiToken env))) then
        ([], respond 200 (Failure (lit "REPLICATE_API_TOKEN not configured")))
      else
        let maxCurrentDimension :=
          Z.max (width (currentSize req)) (height (currentSize req)) in
        let scaleFactor :=
          (inject_Z (targetSize req) / inject_Z maxCurrentDimension)%Q in
        if Qle_bool scaleFactor 1 then
          ([], respond 200 (Failure
             (lit "Image already at target size ("
                ++ string_of_Z maxCurrentDimension ++ lit "px >= "
                ++ string_of_Z (targetSize req) ++ lit "px)")))
        else
          match fetchImage env (imageUrl req) with
          | Threw m => ([], respond 500 (Failure m))
          | Returned (okay, statusText, imageBuffer) =>
              if negb okay then
                ([], respond 500 (Failure (lit "Failed to fetch image: " ++ statusText)))
              else
                let submitted :=
                  {| req_image := imageBuffer;
                     req_scale := Math_min scaleFactor 4;
                     req_face_enhance := false |} in
                ([submitted],
                 match predict env submitted with
                 | Threw m => respond 500 (Failure m)
                 | Returned (code, output) => interpret env req scaleFactor code output
                 end)
          end
  end.

End UpscaleImage.

(** ** The download-all route *)

Module DownloadAll.

(** A stored file.  [owner] is not in the source: it names the batch run
    whose requests wrote the file, so that statements can tell the files of
    one run from those of another. *)
Record Artifact := { owner : nat; content : list N }.

(** The two directories of temporary files, by file name; [None] is a
    directory that does not exist. *)
Record Store := {
  uploads : option (gmap jsstring Artifact);
  processed : option (gmap jsstring Artifact)
}.

Record ImageRef := {
  id : jsstring;
  name : jsstring;
  downloadUrl : option jsstring
}.

Inductive Directory := Uploads | Processed.

(** The outside world: [fetchUrl] gives [ok] and the bytes; [canUnlink]
    tells whether [unlink] of a file of a directory succeeds. *)
Record Env := {
  fetchUrl : jsstring -> Outcome (bool * list N);
  canUnlink : Directory -> jsstring -> bool
}.

(** [haystack.includes(needle)] on strings. *)
Fixpoint includesStr (haystack needle : jsstring) : bool :=
  startsWith haystack needle
  || match haystack with
     | [] => false
     | _ :: rest => includesStr rest needle
     end.

(** [readdir]: the names in a directory. *)
Definition readdir (dir : option (gmap jsstring Artifact)) : Outcome (list jsstring) :=
  match dir with
  | Some files => Returned (List.map fst (map_to_list files))
  | None => Threw (lit "ENOENT")
  end.

(** The entry one requested image adds to the archive, if any. *)
Definition archiveEntry (env : Env) (store : Store) (image : ImageRef)
    : option (jsstring * list N) :=
  let fileName := name image ++ lit ".png" in
  let url := default [] (downloadUrl image) in
  if truthy_str url && startsWith url (lit "http") then
    match fetchUrl env url with
    | Returned (true, buffer) => Some (fileName, buffer)
    | _ => None
    end
  else
    match readdir (processed store) with
    | Threw _ => None
    | Returned files =>
        match List.find (fun file => includesStr file (name image)) files with
        | Some matchingFile =>
            match processed store with
            | Some dir => (fun a => (fileName, content a)) <$> dir !! matchingFile
            | None => None
            end
        | None => None
        end
    end.

(** The loop of the cleanup over one directory: the listed files are
    unlinked in turn, and the first failure ends the loop. *)
Fixpoint unlinkAll (can : jsstring -> bool) (files : list jsstring)
    (dir : gmap jsstring Artifact) : gmap jsstring Artifact :=
  match files with
  | [] => dir
  | file :: rest =>
      if can file then unlinkAll can rest (delete file dir) else dir
  end.

(** One of the two [try] blocks of the cleanup: [readdir], then the loop; a
    directory that cannot be read is left as it is. *)
Definition cleanDirectory (can : jsstring -> bool)
    (dir : option (gmap jsstring Artifact)) : option (gmap jsstring Artifact) :=
  match dir with
  | Some files => Some (unlinkAll can (List.map fst (map_to_list files)) files)
  | None => None
  end.

(** The callback given to [setTimeout]. *)
Definition cleanup (env : Env) (store : Store) : Store :=
  {| uploads := cleanDirectory (canUnlink env Uploads) (uploads store);
     processed := cleanDirectory (canUnlink env Processed) (processed store) |}.

(** A timer set by [setTimeout]: the delay in milliseconds and the callback,
    a transformation of the store. *)
Record Timer := { delay : Z; callback : Store -> Store }.

Inductive Reply :=
  | Archive (entries : list (jsstring * list N))
  | NoImages
  | Failed.

(** [POST]: the reply and the timers it has set.  [images] is the [images]
    property of the parsed request, [None] when it is missing or not an
    array; [request] throws when the body does not parse. *)
Definition POST (env : Env) (store : Store)
    (request : Outcome (option (list ImageRef))) : Reply * list Timer :=
  match request with
  | Threw _ => (Failed, [])
  | Returned None | Returned (Some []) => (NoImages, [])
  | Returned (Some images) =>
      (Archive (omap (archiveEntry env store) images),
       [{| delay := 5000; callback := cleanup env |}])
  end.

End DownloadAll.

(** ** The batch loop of the image processor component *)

Module ImageProcessor.

Record Settings := {
  enableUpscaling : bool;
  targetSize : Z;
  maxDimension : Z;
  namePrefix : jsstring
}.

(** An element of the [files] property. *)
Record FileData := {
  fd_file : File;
  fd_preview : jsstring;
  fd_id : jsstring
}.

Record ProcessedImage := {
  id : jsstring;
  originalName : jsstring;
  processedName : jsstring;
  originalSize : ImageDimensions;
  finalSize : ImageDimensions;
  wasResized : bool;
  wasUpscaled : bool;
  scaleFactor : Q;
  downloadUrl : Json;
  preview : Json
}.

(** The outside world while one item is processed: whether each of the two
    [fetch] calls resolves, and the world of the route it reaches. *)
Record ItemWorld := {
  processReachable : bool;
  processEnv : ProcessImage.Env;
  upscaleReachable : bool;
  upscaleEnv : UpscaleImage.Env
}.

(** [origin] is [window.location.origin]; [item i] is the world during the
    [i]-th iteration. *)
Record World := {
  origin : jsstring;
  item : nat -> ItemWorld
}.

(** The name given to the [i]-th file. *)
Definition fileNameOf (settings : Settings) (i : nat) : jsstring :=
  if truthy_str (namePrefix settings) then
    namePrefix settings ++ lit "_" ++ string_of_Z (Z.of_nat i + 1)
  else lit "image_" ++ string_of_Z (Z.of_nat i + 1).

(** The first request of an iteration, up to [await response.json()]:
    [None] when [fetch] rejects or the response is not [ok], which throws
    into the [catch] of the iteration. *)
Definition basicProcessing (w : ItemWorld) (settings : Settings)
    (fileName : jsstring) (fileData : FileData) : option ProcessImage.Result :=
  if negb (processReachable w) then None
  else
    let response :=
      snd (ProcessImage.POST (processEnv w) (Some (fd_file fileData))
             (Returned
                {| ProcessImage.fileName := fileName;
                   ProcessImage.maxDimension := Some (maxDimension settings);
                   ProcessImage.enableUpscaling := Some false;
                   ProcessImage.targetSize := Some (targetSize settings) |})) in
    if negb (ok response) then None
    else
      match body response with
      | ProcessImage.Processed result => Some result
      | ProcessImage.Failure _ => None
      end.

(** The second request: the provider requests it causes, and the parsed
    body, or [None] when [fetch] or [json()] rejects. *)
Definition requestUpscale (world : World) (w : ItemWorld) (settings : Settings)
    (fileName : jsstring) (result : ProcessImage.Result)
    : list ProviderRequest * option UpscaleImage.Body :=
  let absoluteImageUrl :=
    if startsWith (ProcessImage.downloadUrl result) (lit "http")
    then ProcessImage.downloadUrl result
    else origin world ++ ProcessImage.downloadUrl result in
  if negb (upscaleReachable w) then ([], None)
  else
    let (requests, response) :=
      UpscaleImage.POST (upscaleEnv w)
        (Returned
           {| UpscaleImage.imageUrl := absoluteImageUrl;
              UpscaleImage.fileName := fileName;
              UpscaleImage.currentSize := ProcessImage.finalSize result;
              UpscaleImage.targetSize := targetSize settings |}) in
    (requests, Some (body response)).

(** The [ProcessedImage] built from [finalResult] when it is still the
    result of the first request. *)
Definition fromResult (fileData : FileData) (result : ProcessImage.Result)
    : ProcessedImage :=
  {| id := fd_id fileData;
     originalName := file_name (fd_file fileData);
     processedName := ProcessImage.processedName result;
     originalSize := ProcessImage.originalSize result;
     finalSize := ProcessImage.finalSize result;
     wasResized := ProcessImage.wasResized result;
     wasUpscaled := ProcessImage.wasUpscaled result;
     scaleFactor := ProcessImage.scaleFactor result;
     downloadUrl := JStr (ProcessImage.downloadUrl result);
     preview := JStr (ProcessImage.preview result) |}.

(** The same when the upscale has succeeded and its fields have replaced
    those of the result. *)
Definition fromUpscale (fileData : FileData) (result : ProcessImage.Result)
    (factor : Q) (size : ImageDimensions) (url : Json) : ProcessedImage :=
  {| id := fd_id fileData;
     originalName := file_name (fd_file fileData);
     processedName := ProcessImage.processedName result;
     originalSize := ProcessImage.originalSize result;
     finalSize := size;
     wasResized := ProcessImage.wasResized result;
     wasUpscaled := true;
     scaleFactor := factor;
     downloadUrl := url;
     preview := url |}.

(** One iteration of the loop: the provider requests it caused and the
    image pushed on [results], [None] when the iteration ended in its
    [catch] and pushed nothing. *)
Definition processItem (world : World) (settings : Settings) (i : nat)
    (fileData : FileData) : list ProviderRequest * option ProcessedImage :=
  let w := item world i in
  let fileName := fileNameOf settings i in
  match basicProcessing w settings fileName fileData with
  | None => ([], None)
  | Some result =>
      if enableUpscaling settings
         && (Z.max (width (ProcessImage.finalSize result))
                   (height (ProcessImage.finalSize result)) <? targetSize settings)
      then
        let (requests, upscaleResult) :=
          requestUpscale world w settings fileName result in
        (requests,
         Some match upscaleResult with
              | Some (UpscaleImage.Success factor size url) =>
                  fromUpscale fileData result factor size url
              | Some (UpscaleImage.Failure _) | None => fromResult fileData result
              end)
      else ([], Some (fromResult fileData result))
  end.

(** The loop, from index [i] on, with the [results] pushed so far. *)
Fixpoint processLoop (world : World) (settings : Settings) (i : nat)
    (files : list FileData) (results : list ProcessedImage)
    : list ProcessedImage :=
  match files with
  | [] => results
  | fileData :: rest =>
      let results' :=
        match snd (processItem world settings i fileData) with
        | Some processedImage => results ++ [processedImage]
        | None => results
        end in
      processLoop world settings (S i) rest results'
  end.

(** [processImages]: the list handed to [onProcessingComplete], [None] when
    the function returns at once because there is no file. *)
Definition processImages (world : World) (settings : Settings)
    (files : list FileData) : option (list ProcessedImage) :=
  match files with
  | [] => None
  | _ :: _ => Some (processLoop world settings 0 files [])
  end.

End ImageProcessor.

(** ** The serve-image route *)

Module ServeImage.

Inductive Reply :=
  | Served (content : list N)
  | NotFound
  | ServerError.

Definition statusOf (r : Reply) : Z :=
  match r with Served _ => 200 | NotFound => 404 | ServerError => 500 end.

(** Whether [filename] names a file of the directory it is joined to: it is
    not empty, has no separator and is neither [.] nor [..].  For any other
    name [path.join] yields a path that is not a file of the [processed]
    directory, which the store does not describe. *)
Definition plainName (filename : jsstring) : bool :=
  truthy_str filename
  && forallb (fun c => negb (N.eqb c slash || N.eqb c 92)) filename
  && negb (bool_decide (filename = lit ".") || bool_decide (filename = lit "..")).

(** [GET] for a plain [filename]: [existsSync], then [readFile], which
    succeeds when [readOk]. *)
Definition GET (store : DownloadAll.Store) (readOk : bool) (filename : jsstring)
    : Reply :=
  match DownloadAll.processed store with
  | Some dir =>
      match dir !! filename with
      | Some file => if readOk then Served (DownloadAll.content file) else ServerError
      | None => NotFound
      end
  | None => NotFound
  end.

End ServeImage.

(** ** The image uploader component *)

Module ImageUploader.

(** The defaults of the properties [acceptedFormats] and [maxFiles]. *)
Definition acceptedFormats : list jsstring :=
  [lit "image/jpeg"; lit "image/png"; lit "image/webp"; lit "image/avif";
   lit "image/bmp"; lit "image/tiff"; lit "image/gif"].

Definition maxFiles : nat := 100.

(** A file of the [FileList], with the id [Math.random] yields and the
    preview URL [URL.createObjectURL] yields if the file is accepted. *)
Record Offered := {
  off_file : File;
  off_id : jsstring;
  off_preview : jsstring
}.

(** The [forEach] of [handleFiles], with the [validFiles] pushed so far. *)
Fixpoint collect (formats : list jsstring) (limit : nat) (selectedCount : nat)
    (validFiles : list ImageProcessor.FileData) (files : list Offered)
    : list ImageProcessor.FileData :=
  match files with
  | [] => validFiles
  | offered :: rest =>
      if includes formats (file_type (off_file offered))
         && (List.length validFiles + selectedCount <? limit)%nat
      then
        collect formats limit selectedCount
          (validFiles
             ++ [{| ImageProcessor.fd_file := off_file offered;
                    ImageProcessor.fd_preview := off_preview offered;
                    ImageProcessor.fd_id := off_id offered |}])
          rest
      else collect formats limit selectedCount validFiles rest
  end.

(** [handleFiles]: the new selection, handed to [onFilesSelected], or [None]
    when no file was accepted and the selection stays as it is. *)
Definition handleFiles (formats : list jsstring) (limit : nat)
    (selectedFiles : list ImageProcessor.FileData) (files : list Offered)
    : option (list ImageProcessor.FileData) :=
  match collect formats limit (List.length selectedFiles) [] files with
  | [] => None
  | validFiles => Some (selectedFiles ++ validFiles)
  end.

End ImageUploader.

(** ** Vocabulary of the statements *)

(** The unit roundoff of binary64. *)
Definition unitRoundoff : Q := 1 # (2 ^ 53).

(** [axis * num / den] lies exactly half-way between two integers. *)
Definition halfway (axis num den : Z) : Prop :=
  (2 * axis * num + den) mod (2 * den) = 0.

(** Every code unit of [s] is of the class [[a-zA-Z0-9_-]]. *)
Definition nameChars (s : jsstring) : Prop :=
  Forall (fun c => isNameChar c = true) s.

(** The upscale request of an iteration has failed: [fetch] or [json()]
    rejected, or the body has [success: false]. *)
Definition upscaleFailed (answer : option UpscaleImage.Body) : Prop :=
  match answer with
  | Some (UpscaleImage.Success _ _ _) => False
  | Some (UpscaleImage.Failure _) | None => True
  end.

(** [upscaleWithReplicate] has failed: it threw, or returned an object with
    [success: false]. *)
Definition replicateFailed (o : Outcome ProcessImage.UpscaleResult) : Prop :=
  match o with
  | Returned (ProcessImage.Upscaled _ _ _) => False
  | Returned (ProcessImage.NotUpscaled _) | Threw _ => True
  end.

(** What the iterations of the batch loop leave, from index [i] on and in
    the order of the files: the image an iteration pushed, or [None] when it
    pushed nothing. *)
Fixpoint attempts (world : ImageProcessor.World)
    (settings : ImageProcessor.Settings) (i : nat)
    (files : list ImageProcessor.FileData)
    : list (option ImageProcessor.ProcessedImage) :=
  match files with
  | [] => []
  | fileData :: rest =>
      snd (ImageProcessor.processItem world settings i fileData)
        :: attempts world settings (S i) rest
  end.

(** The URL the batch loop sends to the upscale-image route: the download
    URL of the first stage, made absolute. *)
Definition absoluteImageUrl (world : ImageProcessor.World)
    (result : ProcessImage.Result) : jsstring :=
  if startsWith (ProcessImage.downloadUrl result) (lit "http")
  then ProcessImage.downloadUrl result
  else ImageProcessor.origin world ++ ProcessImage.downloadUrl result.

(** Both axes of [size] multiplied by [f] and rounded. *)
Definition scaledBy (size : ImageDimensions) (f : Q) : ImageDimensions :=
  {| width := Math_round (inject_Z (width size) * f);
     height := Math_round (inject_Z (height size) * f) |}.

(** The settings of a request with [enableUpscaling] replaced. *)
Definition withUpscaling (flag : bool) (settings : ProcessImage.Settings)
    : ProcessImage.Settings :=
  {| ProcessImage.fileName := ProcessImage.fileName settings;
     ProcessImage.maxDimension := ProcessImage.maxDimension settings;
     ProcessImage.enableUpscaling := Some flag;
     ProcessImage.targetSize := ProcessImage.targetSize settings |}.

(** The stored file of the [processed] directory under a name, if any. *)
Definition processedFile (store : DownloadAll.Store) (name : jsstring)
    : option DownloadAll.Artifact :=
  match DownloadAll.processed store with
  | Some dir => dir !! name
  | None => None
  end.

(** The directory of the store that [directory] names. *)
Definition directoryOf (store : DownloadAll.Store)
    (directory : DownloadAll.Directory)
    : option (gmap jsstring DownloadAll.Artifact) :=
  match directory with
  | DownloadAll.Uploads => DownloadAll.uploads store
  | DownloadAll.Processed => DownloadAll.processed store
  end.

(** The stored file of a directory under a name, if any. *)
Definition storedFile (store : DownloadAll.Store)
    (directory : DownloadAll.Directory) (name : jsstring)
    : option DownloadAll.Artifact :=
  match directoryOf store directory with
  | Some dir => dir !! name
  | None => None
  end.

(** A directory after every file in it has been deleted. *)
Definition emptied (dir : option (gmap jsstring DownloadAll.Artifact))
    : option (gmap jsstring DownloadAll.Artifact) :=
  match dir with Some _ => Some ∅ | None => None end.

(** ** Sample inputs

    Concrete values at which the properties below are instantiated. *)

Definition landscape : ImageDimensions := {| width := 4000; height := 3000 |}.

(** A PNG file of 60 MiB. *)
Definition bigPng : File :=
  {| file_name := lit "scan.png"; file_type := lit "image/png";
     file_size := 62914560; file_bytes := [] |}.

(** An image whose shorter axis, scaled to the bound 1300, comes to 487.5. *)
Definition wide : ImageDimensions := {| width := 1632; height := 612 |}.

(** A file name of two CJK code units and an extension. *)
Definition photoName : jsstring := [20889; 30495]%N ++ lit ".png".

(** The first bytes of a PNG file and of a PDF file. *)
Definition pngBytes : list N := [137; 80; 78; 71]%N.
Definition pdfBytes : list N := [37; 80; 68; 70]%N.

Definition pngFile (name : string) : File :=
  {| file_name := lit name; file_type := lit "image/png";
     file_size := 4; file_bytes := pngBytes |}.

Definition pdfFile : File :=
  {| file_name := lit "notes.pdf"; file_type := lit "application/pdf";
     file_size := 4; file_bytes := pdfBytes |}.

(** A file that is declared a PNG and whose bytes are not an image. *)
Definition brokenFile : File :=
  {| file_name := lit "broken.png"; file_type := lit "image/png";
     file_size := 4; file_bytes := [0; 0; 0; 0]%N |}.

(** A decoder that reads a PNG as an image of 800 by 600 and rejects
    anything else. *)
Definition sampleMetadata (bytes : list N) : Outcome (Z * Z) :=
  match bytes with
  | 137%N :: _ => Returned (800, 600)
  | _ => Threw (lit "Input buffer contains unsupported image format")
  end.

Definition sampleProcessEnv : ProcessImage.Env :=
  {| ProcessImage.now := 1700000000000;
     ProcessImage.dirsOk := true;
     ProcessImage.saveOriginalOk := true;
     ProcessImage.metadata := sampleMetadata;
     ProcessImage.saveProcessedOk := true;
     ProcessImage.apiToken := None;
     ProcessImage.encoded := Returned pngBytes;
     ProcessImage.run := fun _ => Threw (lit "not reached");
     ProcessImage.fetchUrl := fun _ => Threw (lit "not reached");
     ProcessImage.upscaleNow := 1700000000500;
     ProcessImage.saveUpscaled := Returned tt |}.

(** A provider that answers every prediction with status 201 and the body
    [output]. *)
Definition sampleUpscaleEnv (output : Json) : UpscaleImage.Env :=
  {| UpscaleImage.apiToken := Some (lit "r8_token");
     UpscaleImage.fetchImage := fun _ => Returned (true, lit "OK", pngBytes);
     UpscaleImage.predict := fun _ => Returned (201, output);
     UpscaleImage.toText := fun _ => lit "" |}.

Definition succeededOutput : Json :=
  JObj [(lit "status", JStr (lit "succeeded"));
        (lit "output", JStr (lit "https://replicate.delivery/out.png"))].

Definition sampleWorld (output : Json) : ImageProcessor.World :=
  {| ImageProcessor.origin := lit "http://localhost:3000";
     ImageProcessor.item := fun _ =>
       {| ImageProcessor.processReachable := true;
          ImageProcessor.processEnv := sampleProcessEnv;
          ImageProcessor.upscaleReachable := true;
          ImageProcessor.upscaleEnv := sampleUpscaleEnv output |} |}.

Definition sampleSettings (target : Z) : ImageProcessor.Settings :=
  {| ImageProcessor.enableUpscaling := true;
     ImageProcessor.targetSize := target;
     ImageProcessor.maxDimension := 1300;
     ImageProcessor.namePrefix := lit "" |}.

Definition fileA : ImageProcessor.FileData :=
  {| ImageProcessor.fd_file := pngFile "a.png";
     ImageProcessor.fd_preview := lit "blob:a";
     ImageProcessor.fd_id := lit "a" |}.

Definition fileB : ImageProcessor.FileData :=
  {| ImageProcessor.fd_file := brokenFile;
     ImageProcessor.fd_preview := lit "blob:b";
     ImageProcessor.fd_id := lit "b" |}.

Definition fileC : ImageProcessor.FileData :=
  {| ImageProcessor.fd_file := pngFile "c.png";
     ImageProcessor.fd_preview := lit "blob:c";
     ImageProcessor.fd_id := lit "c" |}.

(** A batch of three files; the second passes [validateImageFile] and cannot
    be decoded. *)
Definition sampleBatch : list ImageProcessor.FileData := [fileA; fileB; fileC].


(** Three files dropped on the uploader: a PNG, a PDF and a second PNG. *)
Definition sampleOffered : list ImageUploader.Offered :=
  [{| ImageUploader.off_file := pngFile "d.png";
      ImageUploader.off_id := lit "d";
      ImageUploader.off_preview := lit "blob:d" |};
   {| ImageUploader.off_file := pdfFile;
      ImageUploader.off_id := lit "e";
      ImageUploader.off_preview := lit "blob:e" |};
   {| ImageUploader.off_file := pngFile "f.png";
      ImageUploader.off_id := lit "f";
      ImageUploader.off_preview := lit "blob:f" |}].

(** The request the component sends to the upscale-image route for an image
    of 800 by 600 and a target of 4000. *)
Definition sampleRequest : UpscaleImage.Request :=
  {| UpscaleImage.imageUrl := lit "http://localhost:3000/api/serve-image/1700000000000_image_1.png";
     UpscaleImage.fileName := lit "image_1";
     UpscaleImage.currentSize := {| width := 800; height := 600 |};
     UpscaleImage.targetSize := 4000 |}.

(** A world of the process-image route in which the provider's client
    answers with a URL and the image behind it decodes to 3200 by 2400. *)
Definition sampleReplicateEnv : ProcessImage.Env :=
  {| ProcessImage.now := 1700000000000;
     ProcessImage.dirsOk := true;
     ProcessImage.saveOriginalOk := true;
     ProcessImage.metadata := fun _ => Returned (3200, 2400);
     ProcessImage.saveProcessedOk := true;
     ProcessImage.apiToken := Some (lit "r8_token");
     ProcessImage.encoded := Returned pngBytes;
     ProcessImage.run := fun _ =>
       Returned (JStr (lit "https://replicate.delivery/out.png"));
     ProcessImage.fetchUrl := fun _ => Returned (true, lit "OK", pngBytes);
     ProcessImage.upscaleNow := 1700000000500;
     ProcessImage.saveUpscaled := Returned tt |}.

(** A provider answer with the status [succeeded] whose output holds a
    number where the URL should be. *)
Definition unrecognizedOutput : Json :=
  JObj [(lit "status", JStr (lit "succeeded"));
        (lit "output", JArr [JNum 7])].

(** A store that holds the files of two runs: run 1 uploaded [a.png], run 2
    uploaded [z.png], and each has its processed [image_1.png]. *)
Definition sampleStore : DownloadAll.Store :=
  {| DownloadAll.uploads :=
       Some (list_to_map
         [(lit "1700000000000_a.png",
           {| DownloadAll.owner := 1; DownloadAll.content := pngBytes |});
          (lit "1700000009000_z.png",
           {| DownloadAll.owner := 2; DownloadAll.content := pngBytes |})]);
     DownloadAll.processed :=
       Some (list_to_map
         [(lit "1700000000000_image_1.png",
           {| DownloadAll.owner := 1; DownloadAll.content := pngBytes |});
          (lit "1700000009000_image_1.png",
           {| DownloadAll.owner := 2; DownloadAll.content := pngBytes |})]) |}.

Definition sampleDownloadEnv : DownloadAll.Env :=
  {| DownloadAll.fetchUrl := fun _ => Threw (lit "not reached");
     DownloadAll.canUnlink := fun _ _ => true |}.

(** A world in which the processed file of run 1 cannot be deleted, and
    every other file can. *)
Definition lockedDownloadEnv : DownloadAll.Env :=
  {| DownloadAll.fetchUrl := fun _ => Threw (lit "not reached");
     DownloadAll.canUnlink := fun directory file =>
       match directory with
       | DownloadAll.Uploads => true
       | DownloadAll.Processed =>
           negb (bool_decide (file = lit "1700000000000_image_1.png"))
       end |}.

(** The archive request of run 1. *)
Definition sampleDownload : Outcome (option (list DownloadAll.ImageRef)) :=
  Returned (Some
    [{| DownloadAll.id := lit "a";
        DownloadAll.name := lit "image_1";
        DownloadAll.downloadUrl :=
          Some (lit "/api/serve-image/1700000000000_image_1.png") |}]).

(** A world in which the decoder finds no dimensions in the bytes. *)
Definition blankProcessEnv : ProcessImage.Env :=
  {| ProcessImage.now := 1700000000000;
     ProcessImage.dirsOk := true;
     ProcessImage.saveOriginalOk := true;
     ProcessImage.metadata := fun _ => Returned (0, 0);
     ProcessImage.saveProcessedOk := true;
     ProcessImage.apiToken := None;
     ProcessImage.encoded := Returned pngBytes;
     ProcessImage.run := fun _ => Threw (lit "not reached");
     ProcessImage.fetchUrl := fun _ => Threw (lit "not reached");
     ProcessImage.upscaleNow := 1700000000500;
     ProcessImage.saveUpscaled := Returned tt |}.

(** The settings the component sends for the first file of a batch. *)
Definition sampleRouteSettings : ProcessImage.Settings :=
  {| ProcessImage.fileName := lit "image_1";
     ProcessImage.maxDimension := Some 1300;
     ProcessImage.enableUpscaling := Some false;
     ProcessImage.targetSize := Some 2560 |}.

(** * Properties *)

(** ** Rounding and the resize computation *)

Section Rounding.

Lemma Math_round_lower (x : Q) : (x - (1 # 2) < inject_Z (Math_round x))%Q.
Proof.
  unfold Math_round.
  pose proof (Qlt_floor (x + (1 # 2))) as H.
  rewrite inject_Z_plus in H. change (inject_Z 1) with 1%Q in H. lra.
Qed.

Lemma Math_round_upper (x : Q) : (inject_Z (Math_round x) <= x + (1 # 2))%Q.
Proof. unfold Math_round. apply Qfloor_le. Qed.

Lemma Math_round_nearest (x : Q) :
  (Qabs (inject_Z (Math_round x) - x) <= 1 # 2)%Q.
Proof.
  pose proof (Math_round_lower x). pose proof (Math_round_upper x).
  apply Qabs_Qle_condition. split; lra.
Qed.

Lemma Math_round_Z (z : Z) : Math_round (inject_Z z) = z.
Proof.
  unfold Math_round, Qfloor, inject_Z, Qplus. simpl.
  rewrite Z.mul_1_r.
  replace (z * 2 + 1) with (1 + z * 2) by lia.
  rewrite Z.div_add by lia. reflexivity.
Qed.

Lemma Math_round_mono (x y : Q) : (x <= y)%Q -> Math_round x <= Math_round y.
Proof.
  intros H. unfold Math_round. apply Qfloor_resp_le. lra.
Qed.

Lemma Math_round_comp (x y : Q) : (x == y)%Q -> Math_round x = Math_round y.
Proof. intros H. unfold Math_round. rewrite H. reflexivity. Qed.

End Rounding.

Section Resize.

Variables (a big m : Z).
Hypothesis big_pos : 0 < big.
Hypothesis m_pos : 0 < m.

Lemma big_nonzero : ~ (inject_Z big == 0)%Q.
Proof.
  unfold Qeq, inject_Z. simpl. lia.
Qed.

Lemma scale_nonneg : (0 <= inject_Z m / inject_Z big)%Q.
Proof.
  unfold Qdiv. apply Qmult_le_0_compat.
  - change 0%Q with (inject_Z 0). rewrite <- Zle_Qle. lia.
  - apply Qinv_le_0_compat. change 0%Q with (inject_Z 0).
    rewrite <- Zle_Qle. lia.
Qed.

(** The longer axis lands on the bound exactly. *)
Lemma scaled_big :
  Math_round (inject_Z big * (inject_Z m / inject_Z big)) = m.
Proof.
  rewrite <- (Math_round_Z m) at 2. apply Math_round_comp.
  field. exact big_nonzero.
Qed.

(** An axis that is not longer stays within the bound. *)
Lemma scaled_le :
  a <= big -> Math_round (inject_Z a * (inject_Z m / inject_Z big)) <= m.
Proof.
  intros Ha. rewrite <- scaled_big at 2. apply Math_round_mono.
  apply Qmult_le_compat_r; [| exact scale_nonneg].
  rewrite <- Zle_Qle. exact Ha.
Qed.

End Resize.

Lemma resize_small (d : ImageDimensions) (m : Z) :
  maxAxis d <= m -> calculateResizeDimensions d m = (d, false).
Proof.
  intros H. unfold calculateResizeDimensions. fold (maxAxis d).
  destruct (Z.leb_spec (maxAxis d) m) as [_ | Hlt]; [reflexivity | lia].
Qed.

Lemma resize_large (d : ImageDimensions) (m : Z) :
  m < maxAxis d ->
  calculateResizeDimensions d m =
    ({| width := Math_round (inject_Z (width d) * (inject_Z m / inject_Z (maxAxis d)));
        height := Math_round (inject_Z (height d) * (inject_Z m / inject_Z (maxAxis d))) |},
     true).
Proof.
  intros H. unfold calculateResizeDimensions. fold (maxAxis d).
  destruct (Z.leb_spec (maxAxis d) m) as [Hle | _]; [lia | reflexivity].
Qed.

(** After a resize the longer axis of the result is the bound itself. *)
Lemma resize_large_max (d : ImageDimensions) (m : Z) :
  0 < m -> m < maxAxis d ->
  maxAxis (fst (calculateResizeDimensions d m)) = m.
Proof.
  intros Hm Hlt. rewrite (resize_large d m Hlt). cbn [fst].
  assert (Hbig : 0 < maxAxis d) by lia.
  pose proof (scaled_le (width d) (maxAxis d) m Hbig Hm) as Hw.
  pose proof (scaled_le (height d) (maxAxis d) m Hbig Hm) as Hh.
  pose proof (scaled_big (maxAxis d) m Hbig) as Hb.
  unfold maxAxis in *. cbn [width height].
  destruct (Z.max_spec (width d) (height d)) as [[_ E] | [_ E]];
    rewrite E in *; lia.
Qed.



(** C9. At a fixed bound the resize computation is idempotent: applied to its
    own output it returns that output with [wasResized = false]. *)
Theorem calculateResizeDimensions_idempotent (d : ImageDimensions) (m : Z) :
  0 < width d -> 0 < height d -> 0 < m ->
  calculateResizeDimensions (fst (calculateResizeDimensions d m)) m
  = (fst (calculateResizeDimensions d m), false).
Proof.
  intros Hw Hh Hm. apply resize_small.
  destruct (Z.le_gt_cases (maxAxis d) m) as [Hle | Hlt].
  - rewrite (resize_small d m Hle). exact Hle.
  - rewrite (resize_large_max d m Hm Hlt). lia.
Qed.

Lemma calculateResizeDimensions_idempotent_witness :
  (0 < width landscape /\ 0 < height landscape /\ 0 < 1300) /\
  calculateResizeDimensions (fst (calculateResizeDimensions landscape 1300)) 1300
  = (fst (calculateResizeDimensions landscape 1300), false).
Proof.
  split.
  - cbn. lia.
  - apply (calculateResizeDimensions_idempotent landscape 1300); cbn; lia.
Defined.

Example resize_landscape :
  calculateResizeDimensions landscape 1300
  = ({| width := 1300; height := 975 |}, true).
Proof. vm_compute. reflexivity. Qed.

Lemma includes_In (xs : list jsstring) (x : jsstring) :
  includes xs x = true <-> In x xs.
Proof.
  unfold includes. rewrite existsb_exists. split.
  - intros [y [Hy E]]. apply bool_decide_eq_true in E. subst. exact Hy.
  - intros H. exists x. split; [exact H |]. apply bool_decide_eq_true. reflexivity.
Qed.

Lemma formatFileSize_maxSize : formatFileSize maxSize = lit "50.0 MB".
Proof. vm_compute. reflexivity. Qed.

Lemma log1024_bounds (n : N) :
  (0 < n)%N ->
  1024 ^ Z.of_nat (log1024 n) <= Z.of_N n < 1024 ^ (Z.of_nat (log1024 n) + 1).
Proof.
  intros Hn. unfold log1024.
  destruct (N.log2_spec n Hn) as [Hlo Hhi].
  rewrite N2Nat.id || rewrite N_nat_Z.
  set (e := N.log2 n) in *.
  pose proof (N.div_mod e 10 ltac:(lia)) as Hdm.
  pose proof (N.mod_lt e 10 ltac:(lia)) as Hmod.
  set (i := (e / 10)%N) in *. set (r := (e mod 10)%N) in *.
  clearbody r. clearbody i. clearbody e.
  change 1024 with (2 ^ 10).
  rewrite <- !Z.pow_mul_r by lia.
  apply N2Z.inj_le in Hlo. apply N2Z.inj_lt in Hhi.
  rewrite N2Z.inj_pow in Hlo, Hhi. rewrite N2Z.inj_succ in Hhi.
  change (Z.of_N 2) with 2 in *.
  split.
  - eapply Z.le_trans; [| exact Hlo]. apply Z.pow_le_mono_r; lia.
  - eapply Z.lt_le_trans; [exact Hhi |]. apply Z.pow_le_mono_r; lia.
Qed.

Lemma ratio_nonneg (n : N) (d : Z) :
  0 < d -> Qle_bool 0 (inject_Z (Z.of_N n) / inject_Z d) = true.
Proof.
  intros Hd. apply Qle_bool_iff. unfold Qdiv. apply Qmult_le_0_compat.
  - change 0%Q with (inject_Z 0). rewrite <- Zle_Qle. lia.
  - apply Qinv_le_0_compat. change 0%Q with (inject_Z 0).
    rewrite <- Zle_Qle. lia.
Qed.

Lemma formatFileSize_shape (n : N) :
  (0 < n)%N ->
  let i := log1024 n in
  let x := (inject_Z (Z.of_N n) / inject_Z (1024 ^ Z.of_nat i))%Q in
  exists t : Z,
    (Qabs (inject_Z t - x * 10) <= 1 # 2)%Q /\
    formatFileSize n
    = string_of_Z (t / 10) ++ lit "." ++ string_of_Z (t mod 10)
        ++ lit " " ++ nth i sizes (lit "undefined").
Proof.
  intros Hn i x. exists (Math_round (x * 10)). split.
  - apply Math_round_nearest.
  - unfold formatFileSize.
    destruct (N.eqb_spec n 0) as [E | _]; [lia |].
    cbv zeta. fold i. fold x. unfold toFixed1.
    unfold x at 1. rewrite ratio_nonneg by (apply Z.pow_pos_nonneg; lia).
    fold x. unfold toFixed1_nonneg, Math_round.
    rewrite <- !app_assoc. reflexivity.
Qed.

(** C7. [validateImageFile] returns [valid = false] exactly when the size
    exceeds 50 MiB (52428800 bytes) or the MIME type is not in the supported
    list.  An unsupported type is reported with the message that lists the
    supported formats; a supported type over the size limit is reported as
    ["File too large: <size>. Maximum size: 50.0 MB"], the size being printed
    with one decimal in the unit [1024^i] for which
    [1024^i <= size < 1024^(i+1)]. *)
Theorem validateImageFile_spec (file : File) :
  (valid (validateImageFile file) = false <->
   (52428800 < file_size file)%N \/ ~ In (file_type file) supportedTypes) /\
  (~ In (file_type file) supportedTypes ->
   error (validateImageFile file)
   = Some (lit "Unsupported file type: " ++ file_type file
           ++ lit ". Supported formats: JPEG, PNG, WebP, AVIF, BMP, TIFF, GIF")) /\
  (In (file_type file) supportedTypes -> (52428800 < file_size file)%N ->
   error (validateImageFile file)
   = Some (lit "File too large: " ++ formatFileSize (file_size file)
           ++ lit ". Maximum size: 50.0 MB") /\
   exists (i : nat) (t : Z),
     1024 ^ Z.of_nat i <= Z.of_N (file_size file) < 1024 ^ (Z.of_nat i + 1) /\
     (Qabs (inject_Z t
            - inject_Z (Z.of_N (file_size file)) / inject_Z (1024 ^ Z.of_nat i) * 10)
      <= 1 # 2)%Q /\
     formatFileSize (file_size file)
     = string_of_Z (t / 10) ++ lit "." ++ string_of_Z (t mod 10)
         ++ lit " " ++ nth i sizes (lit "undefined")).
Proof.
  unfold validateImageFile.
  change maxSize with 52428800%N.
  destruct (includes supportedTypes (file_type file)) eqn:Hin; cbn [negb].
  - apply includes_In in Hin.
    destruct (N.ltb_spec 52428800 (file_size file)) as [Hbig | Hsmall]; cbn [valid error].
    + split; [| split].
      * split; [intros _; left; exact Hbig | reflexivity].
      * intros Hno. contradiction.
      * intros _ _. split.
        -- change (formatFileSize 52428800) with (formatFileSize maxSize).
           rewrite formatFileSize_maxSize. reflexivity.
        -- assert (Hpos : (0 < file_size file)%N) by lia.
           destruct (formatFileSize_shape _ Hpos) as [t [Ht Hfmt]].
           exists (log1024 (file_size file)), t.
           split; [apply log1024_bounds; exact Hpos |]. split; assumption.
    + split; [| split].
      * split; [discriminate |]. intros [H | H]; [lia | contradiction].
      * intros Hno. contradiction.
      * intros _ H. lia.
  - assert (Hno : ~ In (file_type file) supportedTypes).
    { intros H. apply includes_In in H. congruence. }
    cbn [valid error]. split; [| split].
    + split; [intros _; right; exact Hno | reflexivity].
    + intros _. reflexivity.
    + intros H. contradiction.
Qed.

Lemma validateImageFile_spec_witness :
  (In (file_type bigPng) supportedTypes /\ (52428800 < file_size bigPng)%N) /\
  error (validateImageFile bigPng)
  = Some (lit "File too large: " ++ formatFileSize (file_size bigPng)
          ++ lit ". Maximum size: 50.0 MB").
Proof.
  assert (Hin : In (file_type bigPng) supportedTypes).
  { cbn. right. right. left. reflexivity. }
  assert (Hbig : (52428800 < file_size bigPng)%N) by (cbn; lia).
  split; [split; assumption |].
  exact (proj1 (proj2 (proj2 (validateImageFile_spec bigPng)) Hin Hbig)).
Defined.

Example bigPng_message :
  error (validateImageFile bigPng)
  = Some (lit "File too large: 60.0 MB. Maximum size: 50.0 MB").
Proof. vm_compute. reflexivity. Qed.

Lemma lit_inj (s t : string) : lit s = lit t -> s = t.
Proof.
  unfold lit. intros E.
  assert (H : list_ascii_of_string s = list_ascii_of_string t).
  { revert E. generalize (list_ascii_of_string s) (list_ascii_of_string t).
    induction l as [| a l IH]; intros [| b l']; cbn; intros E;
      try discriminate; [reflexivity |].
    injection E as Hab Hl. f_equal; [| apply IH; exact Hl].
    rewrite <- (ascii_N_embedding a), <- (ascii_N_embedding b), Hab. reflexivity. }
  rewrite <- (string_of_list_ascii_of_string s),
    <- (string_of_list_ascii_of_string t), H.
  reflexivity.
Qed.

Lemma string_of_Z_inj (a b : Z) : string_of_Z a = string_of_Z b -> a = b.
Proof.
  unfold string_of_Z. intros E. apply lit_inj in E.
  assert (Hgood : forall z, Z.to_int z <> Decimal.Pos Decimal.Nil
                            /\ Z.to_int z <> Decimal.Neg Decimal.Nil).
  { intros [| p | p]; cbn; split; try discriminate;
      intros H; injection H as H; apply (DecimalPos.Unsigned.to_uint_nonnil p H). }
  apply DecimalZ.to_int_inj.
  assert (Ha : NilZero.int_of_string (NilZero.string_of_int (Z.to_int a))
               = Some (Z.to_int a)) by (apply NilZero.isi; apply Hgood).
  assert (Hb : NilZero.int_of_string (NilZero.string_of_int (Z.to_int b))
               = Some (Z.to_int b)) by (apply NilZero.isi; apply Hgood).
  rewrite E in Ha. rewrite Ha in Hb. injection Hb as Hb. exact Hb.
Qed.

(** C8, counterexample. For a file name that keeps no character after
    sanitizing, two calls with the same arguments made at different times
    return different names. *)
Lemma generateProcessedFileName_reads_clock :
  generateProcessedFileName 1 photoName None None
  <> generateProcessedFileName 2 photoName None None.
Proof. vm_compute. discriminate. Qed.

Lemma truthy_str_nonempty (s : jsstring) : s <> [] -> truthy_str s = true.
Proof. destruct s; [congruence | reflexivity]. Qed.

Lemma sanitizeFileName_kept (now : Z) (s : jsstring) :
  sanitized s <> [] -> sanitizeFileName now s = sanitized s.
Proof.
  intros H. unfold sanitizeFileName. rewrite (truthy_str_nonempty _ H). reflexivity.
Qed.

Lemma sanitizeFileName_fallback (now : Z) (s : jsstring) :
  sanitized s = [] -> sanitizeFileName now s = lit "image_" ++ string_of_Z now.
Proof.
  intros H. unfold sanitizeFileName. rewrite H. reflexivity.
Qed.

(** C8, amended. Two calls with identical arguments return identical names,
    whatever the time of each call, provided the string that is sanitized
    (the prefix when a non-empty prefix and an index are given, the original
    name when no index is given; none otherwise) keeps at least one character
    after sanitizing.  When an index is given with an absent or empty prefix,
    nothing is sanitized and the name is [image_<index + 1>] at every time.
    When the sanitized string is empty, the name is the fallback
    [image_<Date.now()>], followed by [_<index + 1>] when an index is given,
    and two calls made at different times return different names. *)
Theorem generateProcessedFileName_deterministic
    (now1 now2 : Z) (originalName : jsstring)
    (prefix : option jsstring) (index : option Z) :
  ((forall s, sanitizedArgument originalName prefix index = Some s ->
              sanitized s <> []) ->
   generateProcessedFileName now1 originalName prefix index
   = generateProcessedFileName now2 originalName prefix index) /\
  (forall i,
     index = Some i -> prefix = None \/ prefix = Some [] ->
     sanitizedArgument originalName prefix index = None /\
     generateProcessedFileName now1 originalName prefix index
     = lit "image_" ++ string_of_Z (i + 1) /\
     generateProcessedFileName now2 originalName prefix index
     = lit "image_" ++ string_of_Z (i + 1)) /\
  (forall s, sanitizedArgument originalName prefix index = Some s ->
             sanitized s = [] ->
     generateProcessedFileName now1 originalName prefix index
     = lit "image_" ++ string_of_Z now1
         ++ match index with
            | Some i => lit "_" ++ string_of_Z (i + 1)
            | None => []
            end /\
     (now1 <> now2 ->
      generateProcessedFileName now1 originalName prefix index
      <> generateProcessedFileName now2 originalName prefix index)).
Proof.
  split; [| split].
  - intros H. unfold generateProcessedFileName, sanitizedArgument in *.
    destruct prefix as [p |], index as [i |]; try reflexivity.
    + destruct (truthy_str p) eqn:Hp; [| reflexivity].
      rewrite !sanitizeFileName_kept by (apply H; reflexivity). reflexivity.
    + rewrite !sanitizeFileName_kept by (apply H; reflexivity). reflexivity.
    + rewrite !sanitizeFileName_kept by (apply H; reflexivity). reflexivity.
  - intros i -> [-> | ->]; repeat split.
  - intros s Hs Hempty.
    assert (Hname : forall now,
              generateProcessedFileName now originalName prefix index
              = lit "image_" ++ string_of_Z now
                  ++ match index with
                     | Some i => lit "_" ++ string_of_Z (i + 1)
                     | None => []
                     end).
    { intros now. unfold generateProcessedFileName, sanitizedArgument in *.
      destruct prefix as [p |], index as [i |]; try discriminate.
      - destruct (truthy_str p); [| discriminate]. injection Hs as <-.
        rewrite (sanitizeFileName_fallback _ _ Hempty), <- app_assoc. reflexivity.
      - injection Hs as <-.
        rewrite (sanitizeFileName_fallback _ _ Hempty), app_nil_r. reflexivity.
      - injection Hs as <-.
        rewrite (sanitizeFileName_fallback _ _ Hempty), app_nil_r. reflexivity. }
    split; [apply Hname |].
    intros Hne E. rewrite !Hname in E.
    apply app_inv_head, app_inv_tail, string_of_Z_inj in E. contradiction.
Qed.

Lemma generateProcessedFileName_deterministic_witness :
  ((forall s, sanitizedArgument (lit "My Photo!!.png") None None = Some s ->
              sanitized s <> []) /\
   generateProcessedFileName 1 (lit "My Photo!!.png") None None
   = generateProcessedFileName 2 (lit "My Photo!!.png") None None) /\
  (sanitizedArgument photoName (Some (lit "")) (Some 4) = None /\
   generateProcessedFileName 1 photoName (Some (lit "")) (Some 4)
   = lit "image_" ++ string_of_Z (4 + 1) /\
   generateProcessedFileName 2 photoName (Some (lit "")) (Some 4)
   = lit "image_" ++ string_of_Z (4 + 1)) /\
  (sanitizedArgument photoName None None = Some photoName /\
   sanitized photoName = [] /\
   (1 <> 2 ->
    generateProcessedFileName 1 photoName None None
    <> generateProcessedFileName 2 photoName None None)).
Proof.
  assert (H : forall s, sanitizedArgument (lit "My Photo!!.png") None None = Some s ->
                        sanitized s <> []).
  { intros s E. injection E as <-. vm_compute. discriminate. }
  assert (Hsome : sanitizedArgument photoName None None = Some photoName)
    by reflexivity.
  assert (Hempty : sanitized photoName = []) by (vm_compute; reflexivity).
  split; [| split].
  - split; [exact H |].
    exact (proj1 (generateProcessedFileName_deterministic 1 2 _ None None) H).
  - exact (proj1 (proj2 (generateProcessedFileName_deterministic
                           1 2 photoName (Some (lit "")) (Some 4)))
             4 eq_refl (or_intror eq_refl)).
  - split; [exact Hsome |]. split; [exact Hempty |].
    exact (proj2 (proj2 (proj2 (generateProcessedFileName_deterministic
                                  1 2 photoName None None))
                    photoName Hsome Hempty)).
Defined.

(** C10. With an empty prefix and a defined index [i] the generated name is
    ["image_<i+1>"]: not ["_<i+1>"], and not the name the empty prefix would
    sanitize to.  The batch loop names its files the same way when the name
    prefix is empty. *)
Theorem generateProcessedFileName_empty_prefix
    (now : Z) (originalName : jsstring) (i : Z) :
  generateProcessedFileName now originalName (Some (lit "")) (Some i)
  = lit "image_" ++ string_of_Z (i + 1)
  /\ generateProcessedFileName now originalName (Some (lit "")) (Some i)
     <> lit "_" ++ string_of_Z (i + 1)
  /\ generateProcessedFileName now originalName (Some (lit "")) (Some i)
     <> sanitizeFileName now (lit "") ++ lit "_" ++ string_of_Z (i + 1)
  /\ forall (settings : ImageProcessor.Settings) (k : nat),
       ImageProcessor.namePrefix settings = lit "" ->
       ImageProcessor.fileNameOf settings k
       = lit "image_" ++ string_of_Z (Z.of_nat k + 1).
Proof.
  repeat split.
  - cbn. discriminate.
  - change (generateProcessedFileName now originalName (Some (lit "")) (Some i))
      with (lit "image_" ++ string_of_Z (i + 1)).
    change (sanitizeFileName now (lit "")) with (lit "image_" ++ string_of_Z now).
    intros E. apply (f_equal (@List.length N)) in E.
    rewrite !length_app in E. cbn in E. lia.
  - intros settings k E. unfold ImageProcessor.fileNameOf. rewrite E. reflexivity.
Qed.

(** ** The upscale stage *)

Ltac break_match :=
  match goal with
  | |- context [match ?x with _ => _ end] => destruct x eqn:?
  | H : context [match ?x with _ => _ end] |- _ => destruct x eqn:?
  end.

Lemma interpret_success (env : UpscaleImage.Env) (req : UpscaleImage.Request)
    (f : Q) (code : Z) (output : Json) (sf : Q) (size : ImageDimensions) (url : Json) :
  body (UpscaleImage.interpret env req f code output) = UpscaleImage.Success sf size url ->
  sf = f /\
  size = {| width := Math_round (inject_Z (width (UpscaleImage.currentSize req)) * f);
            height := Math_round (inject_Z (height (UpscaleImage.currentSize req)) * f) |}.
Proof.
  unfold UpscaleImage.interpret, UpscaleImage.respond.
  repeat break_match; cbn [body]; intros E; try discriminate.
  injection E as <- <- <-. split; reflexivity.
Qed.

Lemma upscale_route_requests (env : UpscaleImage.Env) (req : UpscaleImage.Request)
    (r : ProviderRequest) :
  In r (fst (UpscaleImage.POST env (Returned req))) ->
  req_scale r
  = Math_min (inject_Z (UpscaleImage.targetSize req)
              / inject_Z (maxAxis (UpscaleImage.currentSize req))) 4.
Proof.
  unfold UpscaleImage.POST, maxAxis.
  repeat break_match; cbn [fst In]; intros H; try contradiction;
    destruct H as [<- | []]; reflexivity.
Qed.

Lemma upscale_route_success (env : UpscaleImage.Env) (req : UpscaleImage.Request)
    (sf : Q) (size : ImageDimensions) (url : Json) :
  body (snd (UpscaleImage.POST env (Returned req))) = UpscaleImage.Success sf size url ->
  let f := (inject_Z (UpscaleImage.targetSize req)
            / inject_Z (maxAxis (UpscaleImage.currentSize req)))%Q in
  sf = f /\
  size = {| width := Math_round (inject_Z (width (UpscaleImage.currentSize req)) * f);
            height := Math_round (inject_Z (height (UpscaleImage.currentSize req)) * f) |} /\
  exists image,
    fst (UpscaleImage.POST env (Returned req))
    = [{| req_image := image; req_scale := Math_min f 4; req_face_enhance := false |}].
Proof.
  unfold UpscaleImage.POST, maxAxis, UpscaleImage.respond.
  repeat break_match; cbn [fst snd body]; intros E; try discriminate.
  apply interpret_success in E. destruct E as [-> ->].
  repeat split. eexists. reflexivity.
Qed.

Lemma storeUpscaled_success (env : ProcessImage.Env) (fileName imageUrl : jsstring)
    (f sf : Q) (size : ImageDimensions) (url : jsstring) :
  ProcessImage.storeUpscaled env fileName imageUrl f = ProcessImage.Upscaled sf size url ->
  sf = f /\
  exists statusText upscaledBuffer,
    ProcessImage.fetchUrl env imageUrl = Returned (true, statusText, upscaledBuffer) /\
    ProcessImage.metadata env upscaledBuffer = Returned (width size, height size).
Proof.
  unfold ProcessImage.storeUpscaled.
  repeat break_match; intros E; try discriminate.
  injection E as <- <- <-. split; [reflexivity |].
  match goal with H : negb ?b = false |- _ => destruct b; [| discriminate H] end.
  eexists _, _. split; [reflexivity |]. cbn [width height]. eassumption.
Qed.

Lemma replicate_requests (env : ProcessImage.Env) (fileName : jsstring)
    (currentSize : ImageDimensions) (targetSize : Z) (r : ProviderRequest) :
  In r (fst (ProcessImage.upscaleWithReplicate env fileName currentSize targetSize)) ->
  req_scale r = Math_min (inject_Z targetSize / inject_Z (maxAxis currentSize)) 4.
Proof.
  unfold ProcessImage.upscaleWithReplicate, maxAxis.
  repeat break_match; cbn [fst In]; intros H; try contradiction;
    destruct H as [<- | []]; reflexivity.
Qed.

Lemma replicate_success (env : ProcessImage.Env) (fileName : jsstring)
    (currentSize : ImageDimensions) (targetSize : Z)
    (sf : Q) (size : ImageDimensions) (url : jsstring) :
  snd (ProcessImage.upscaleWithReplicate env fileName currentSize targetSize)
  = Returned (ProcessImage.Upscaled sf size url) ->
  let f := (inject_Z targetSize / inject_Z (maxAxis currentSize))%Q in
  sf = f /\
  (exists image,
     fst (ProcessImage.upscaleWithReplicate env fileName currentSize targetSize)
     = [{| req_image := image; req_scale := Math_min f 4; req_face_enhance := false |}]) /\
  (exists imageUrl statusText upscaledBuffer,
     ProcessImage.fetchUrl env imageUrl = Returned (true, statusText, upscaledBuffer) /\
     ProcessImage.metadata env upscaledBuffer = Returned (width size, height size)).
Proof.
  unfold ProcessImage.upscaleWithReplicate, maxAxis.
  repeat break_match; cbn [fst snd]; intros E; try discriminate;
    injection E as E; try discriminate.
  apply storeUpscaled_success in E. destruct E as [-> [st [buf [Hf Hm]]]].
  split; [reflexivity |]. split.
  - eexists. reflexivity.
  - eexists _, _, _. split; eassumption.
Qed.

Lemma clamp_above (f : Q) :
  (4 < f)%Q -> (Math_min f 4 == 4)%Q /\ (Math_min f 4 < f)%Q.
Proof.
  intros H. unfold Math_min.
  assert (E : (Qmin f 4 == 4)%Q) by (apply Q.min_r; lra).
  split; [exact E |]. rewrite E. exact H.
Qed.

Lemma clamp_below (f : Q) : (f <= 4)%Q -> (Math_min f 4 == f)%Q.
Proof. intros H. unfold Math_min. apply Q.min_l. exact H. Qed.

(** ** The first request of an iteration *)

Lemma basicProcessing_baseline (w : ImageProcessor.ItemWorld)
    (settings : ImageProcessor.Settings) (fileName : jsstring)
    (fileData : ImageProcessor.FileData) (result : ProcessImage.Result) :
  ImageProcessor.basicProcessing w settings fileName fileData = Some result ->
  ProcessImage.success result = true /\
  ProcessImage.wasUpscaled result = false /\
  ProcessImage.scaleFactor result = 1%Q /\
  ProcessImage.processedName result = fileName.
Proof.
  unfold ImageProcessor.basicProcessing, ProcessImage.POST.
  cbn [ProcessImage.enableUpscaling ProcessImage.maxDimension
       ProcessImage.targetSize ProcessImage.fileName default andb].
  repeat break_match; cbn [snd ok status body] in *; intros E;
    try discriminate; subst;
    repeat match goal with H : ProcessImage.Processed _ = ProcessImage.Processed _ |- _ =>
      injection H as <- end;
    try discriminate.
  all: injection E as <-; cbn; repeat split.
Qed.

(** ** One iteration of the batch loop *)

Lemma processItem_failed (world : ImageProcessor.World)
    (settings : ImageProcessor.Settings) (i : nat)
    (fileData : ImageProcessor.FileData) :
  ImageProcessor.basicProcessing (ImageProcessor.item world i) settings
    (ImageProcessor.fileNameOf settings i) fileData = None ->
  ImageProcessor.processItem world settings i fileData = ([], None).
Proof. intros E. unfold ImageProcessor.processItem. rewrite E. reflexivity. Qed.

Lemma processItem_pushed (world : ImageProcessor.World)
    (settings : ImageProcessor.Settings) (i : nat)
    (fileData : ImageProcessor.FileData) (result : ProcessImage.Result) :
  ImageProcessor.basicProcessing (ImageProcessor.item world i) settings
    (ImageProcessor.fileNameOf settings i) fileData = Some result ->
  exists p, snd (ImageProcessor.processItem world settings i fileData) = Some p /\
            ImageProcessor.id p = ImageProcessor.fd_id fileData.
Proof.
  intros E. unfold ImageProcessor.processItem. rewrite E.
  repeat break_match; cbn [snd]; eexists; (split; [reflexivity |]); reflexivity.
Qed.

Lemma processItem_fallback (world : ImageProcessor.World)
    (settings : ImageProcessor.Settings) (i : nat)
    (fileData : ImageProcessor.FileData) (result : ProcessImage.Result) :
  ImageProcessor.basicProcessing (ImageProcessor.item world i) settings
    (ImageProcessor.fileNameOf settings i) fileData = Some result ->
  upscaleFailed
    (snd (ImageProcessor.requestUpscale world (ImageProcessor.item world i)
            settings (ImageProcessor.fileNameOf settings i) result)) ->
  snd (ImageProcessor.processItem world settings i fileData)
  = Some (ImageProcessor.fromResult fileData result).
Proof.
  intros E Hfail. unfold ImageProcessor.processItem. rewrite E.
  destruct (ImageProcessor.enableUpscaling settings
            && (_ <? ImageProcessor.targetSize settings)); [| reflexivity].
  destruct (ImageProcessor.requestUpscale _ _ _ _ _) as [requests answer].
  cbn [snd] in *. destruct answer as [[f size url | e] |]; cbn in Hfail;
    [contradiction | reflexivity | reflexivity].
Qed.

Lemma processItem_upscaled (world : ImageProcessor.World)
    (settings : ImageProcessor.Settings) (i : nat)
    (fileData : ImageProcessor.FileData) (result : ProcessImage.Result)
    (requests : list ProviderRequest) (p : ImageProcessor.ProcessedImage) :
  ImageProcessor.basicProcessing (ImageProcessor.item world i) settings
    (ImageProcessor.fileNameOf settings i) fileData = Some result ->
  ImageProcessor.processItem world settings i fileData = (requests, Some p) ->
  ImageProcessor.wasUpscaled p = true ->
  let f := (inject_Z (ImageProcessor.targetSize settings)
            / inject_Z (maxAxis (ProcessImage.finalSize result)))%Q in
  ImageProcessor.scaleFactor p = f /\
  ImageProcessor.finalSize p
  = {| width := Math_round (inject_Z (width (ProcessImage.finalSize result)) * f);
       height := Math_round (inject_Z (height (ProcessImage.finalSize result)) * f) |} /\
  exists image,
    requests = [{| req_image := image; req_scale := Math_min f 4;
                   req_face_enhance := false |}].
Proof.
  intros E Hitem Hup.
  destruct (basicProcessing_baseline _ _ _ _ _ E) as [_ [Hbase _]].
  unfold ImageProcessor.processItem in Hitem. rewrite E in Hitem.
  destruct (ImageProcessor.enableUpscaling settings
            && (_ <? ImageProcessor.targetSize settings)).
  - unfold ImageProcessor.requestUpscale in Hitem.
    destruct (negb (ImageProcessor.upscaleReachable _)).
    + injection Hitem as <- <-. cbn in Hup. congruence.
    + match type of Hitem with
      | context [UpscaleImage.POST ?env (Returned ?req)] =>
          pose proof (upscale_route_success env req) as Hroute;
          destruct (UpscaleImage.POST env (Returned req)) as [sent response]
      end.
      cbn [fst snd] in *. injection Hitem as <- <-.
      destruct (body response) as [sf size url | e]; cbn in Hup; [| congruence].
      destruct (Hroute sf size url eq_refl) as [-> [-> Hsent]].
      cbn. repeat split. exact Hsent.
  - injection Hitem as <- <-. cbn in Hup. congruence.
Qed.

Example sample_item_fallback :
  ImageProcessor.processItem (sampleWorld (JObj [])) (sampleSettings 2560) 0 fileA
  = ([{| req_image := pngBytes; req_scale := 2560 # 800; req_face_enhance := false |}],
     Some
       {| ImageProcessor.id := lit "a";
          ImageProcessor.originalName := lit "a.png";
          ImageProcessor.processedName := lit "image_1";
          ImageProcessor.originalSize := {| width := 800; height := 600 |};
          ImageProcessor.finalSize := {| width := 800; height := 600 |};
          ImageProcessor.wasResized := false;
          ImageProcessor.wasUpscaled := false;
          ImageProcessor.scaleFactor := 1;
          ImageProcessor.downloadUrl :=
            JStr (lit "/api/serve-image/1700000000000_image_1.png");
          ImageProcessor.preview :=
            JStr (lit "/api/serve-image/1700000000000_image_1.png") |}).
Proof. vm_compute. reflexivity. Qed.


Lemma not_above_one (t big : Z) :
  0 < big -> t <= big -> Qle_bool (inject_Z t / inject_Z big) 1 = true.
Proof.
  intros Hbig Hle. apply Qle_bool_iff. apply Qle_shift_div_r.
  - change 0%Q with (inject_Z 0). rewrite <- Zlt_Qlt. exact Hbig.
  - rewrite Qmult_1_l. rewrite <- Zle_Qle. exact Hle.
Qed.

Lemma above_one (t big : Z) :
  0 < big -> Qle_bool (inject_Z t / inject_Z big) 1 = false -> big < t.
Proof.
  intros Hbig H. destruct (Z.lt_ge_cases big t) as [Hlt | Hge]; [exact Hlt |].
  rewrite (not_above_one t big Hbig Hge) in H. discriminate H.
Qed.

Lemma status_field_object (output : Json) (text : string) :
  isString (prop output (lit "status")) text = true ->
  truthy output = true /\ isObject output = true /\ keyCount output <> O.
Proof.
  destruct output as [| b | q | s | items | fields]; cbn; try discriminate.
  destruct fields; cbn; [discriminate |]. intros _. repeat split. discriminate.
Qed.

Lemma resultUrl_truthy (output url : Json) :
  UpscaleImage.resultUrlOf output = Some url -> truthy url = true ->
  truthy_opt (prop output (lit "output")) = true.
Proof.
  unfold UpscaleImage.resultUrlOf.
  destruct (prop output (lit "output")) as [[| b | q | s | [| first rest] | fields] |];
    try discriminate; intros E; injection E as <-; cbn; tauto.
Qed.

Lemma interpret_accepts (env : UpscaleImage.Env) (req : UpscaleImage.Request)
    (f : Q) (code : Z) (output url : Json) :
  200 <= code <= 299 ->
  isString (prop output (lit "status")) "succeeded" = true
  \/ isString (prop output (lit "status")) "processing" = true ->
  UpscaleImage.resultUrlOf output = Some url ->
  truthy url = true ->
  UpscaleImage.interpret env req f code output
  = UpscaleImage.respond 200
      (UpscaleImage.Success f (scaledBy (UpscaleImage.currentSize req) f) url).
Proof.
  intros Hcode Hstatus Hurl Htruthy.
  assert (Hobj : truthy output = true /\ isObject output = true
                 /\ keyCount output <> O).
  { destruct Hstatus as [H | H]; apply (status_field_object _ _ H). }
  destruct Hobj as [Ht [Ho Hk]].
  pose proof (resultUrl_truthy _ _ Hurl Htruthy) as Hout.
  unfold UpscaleImage.interpret, UpscaleImage.respond, scaledBy.
  rewrite Ht, Ho, Hout. cbn [andb].
  destruct (keyCount output) as [| k] eqn:Ek; [congruence |]. cbn [Nat.eqb].
  replace ((200 <=? code) && (code <=? 299)) with true
    by (symmetry; apply andb_true_iff; split; apply Z.leb_le; lia).
  cbn [negb].
  replace (isString (prop output (lit "status")) "succeeded"
           || isString (prop output (lit "status")) "processing") with true
    by (symmetry; apply orb_true_iff; exact Hstatus).
  cbn [negb andb]. rewrite Hurl, Htruthy. reflexivity.
Qed.

Lemma upscale_route_submits (env : UpscaleImage.Env) (req : UpscaleImage.Request)
    (token statusText : jsstring) (image : list N) :
  let f := (inject_Z (UpscaleImage.targetSize req)
            / inject_Z (maxAxis (UpscaleImage.currentSize req)))%Q in
  (1 < f)%Q ->
  UpscaleImage.apiToken env = Some token -> token <> [] ->
  UpscaleImage.fetchImage env (UpscaleImage.imageUrl req)
  = Returned (true, statusText, image) ->
  fst (UpscaleImage.POST env (Returned req))
  = [{| req_image := image; req_scale := Math_min f 4; req_face_enhance := false |}].
Proof.
  intros f Hf Htoken Hne Hfetch. unfold UpscaleImage.POST.
  rewrite Htoken. cbn [from_option id]. rewrite (truthy_str_nonempty _ Hne). cbn [negb].
  fold (maxAxis (UpscaleImage.currentSize req)). fold f.
  destruct (Qle_bool f 1) eqn:Hle.
  - apply Qle_bool_iff in Hle. lra.
  - rewrite Hfetch. reflexivity.
Qed.

Lemma upscale_route_accepts (env : UpscaleImage.Env) (req : UpscaleImage.Request)
    (token statusText : jsstring) (image : list N)
    (code : Z) (output url : Json) :
  let f := (inject_Z (UpscaleImage.targetSize req)
            / inject_Z (maxAxis (UpscaleImage.currentSize req)))%Q in
  (1 < f)%Q ->
  UpscaleImage.apiToken env = Some token -> token <> [] ->
  UpscaleImage.fetchImage env (UpscaleImage.imageUrl req)
  = Returned (true, statusText, image) ->
  UpscaleImage.predict env
    {| req_image := image; req_scale := Math_min f 4; req_face_enhance := false |}
  = Returned (code, output) ->
  200 <= code <= 299 ->
  isString (prop output (lit "status")) "succeeded" = true
  \/ isString (prop output (lit "status")) "processing" = true ->
  UpscaleImage.resultUrlOf output = Some url ->
  truthy url = true ->
  UpscaleImage.POST env (Returned req)
  = ([{| req_image := image; req_scale := Math_min f 4; req_face_enhance := false |}],
     UpscaleImage.respond 200
       (UpscaleImage.Success f (scaledBy (UpscaleImage.currentSize req) f) url)).
Proof.
  intros f Hf Htoken Hne Hfetch Hpredict Hcode Hstatus Hurl Htruthy.
  unfold UpscaleImage.POST.
  rewrite Htoken. cbn [from_option id]. rewrite (truthy_str_nonempty _ Hne). cbn [negb].
  fold (maxAxis (UpscaleImage.currentSize req)). fold f.
  destruct (Qle_bool f 1) eqn:Hle; [apply Qle_bool_iff in Hle; lra |].
  rewrite Hfetch. cbn [negb]. rewrite Hpredict.
  rewrite (interpret_accepts env req f code output url Hcode Hstatus Hurl Htruthy).
  reflexivity.
Qed.

Lemma replicate_submits (env : ProcessImage.Env) (fileName : jsstring)
    (currentSize : ImageDimensions) (targetSize : Z)
    (token : jsstring) (image : list N) :
  let f := (inject_Z targetSize / inject_Z (maxAxis currentSize))%Q in
  (1 < f)%Q ->
  ProcessImage.apiToken env = Some token -> token <> [] ->
  ProcessImage.encoded env = Returned image ->
  fst (ProcessImage.upscaleWithReplicate env fileName currentSize targetSize)
  = [{| req_image := image; req_scale := Math_min f 4; req_face_enhance := false |}].
Proof.
  intros f Hf Htoken Hne Hencoded. unfold ProcessImage.upscaleWithReplicate.
  rewrite Htoken. cbn [from_option id]. rewrite (truthy_str_nonempty _ Hne). cbn [negb].
  fold (maxAxis currentSize). fold f.
  destruct (Qle_bool f 1) eqn:Hle; [apply Qle_bool_iff in Hle; lra |].
  rewrite Hencoded. reflexivity.
Qed.

Lemma replicate_accepts (env : ProcessImage.Env) (fileName : jsstring)
    (currentSize : ImageDimensions) (targetSize : Z)
    (token : jsstring) (image : list N) (output : Json)
    (imageUrl statusText : jsstring) (upscaled : list N) (w h : Z) :
  let f := (inject_Z targetSize / inject_Z (maxAxis currentSize))%Q in
  (1 < f)%Q ->
  ProcessImage.apiToken env = Some token -> token <> [] ->
  ProcessImage.encoded env = Returned image ->
  ProcessImage.run env
    {| req_image := image; req_scale := Math_min f 4; req_face_enhance := false |}
  = Returned output ->
  ProcessImage.outputUrl output = Some imageUrl -> imageUrl <> [] ->
  ProcessImage.fetchUrl env imageUrl = Returned (true, statusText, upscaled) ->
  ProcessImage.metadata env upscaled = Returned (w, h) ->
  w <> 0 -> h <> 0 ->
  ProcessImage.saveUpscaled env = Returned tt ->
  snd (ProcessImage.upscaleWithReplicate env fileName currentSize targetSize)
  = Returned
      (ProcessImage.Upscaled f {| width := w; height := h |}
         (lit "/api/serve-image/"
            ++ (lit "upscaled_" ++ string_of_Z (ProcessImage.upscaleNow env)
                  ++ lit "_" ++ fileName ++ lit ".png"))).
Proof.
  intros f Hf Htoken Hne Hencoded Hrun Hurl Hnonempty Hfetch Hmeta Hw Hh Hsave.
  unfold ProcessImage.upscaleWithReplicate.
  rewrite Htoken. cbn [from_option id]. rewrite (truthy_str_nonempty _ Hne). cbn [negb].
  fold (maxAxis currentSize). fold f.
  destruct (Qle_bool f 1) eqn:Hle; [apply Qle_bool_iff in Hle; lra |].
  rewrite Hencoded. cbn [snd]. rewrite Hrun, Hurl.
  rewrite (truthy_str_nonempty _ Hnonempty).
  unfold ProcessImage.storeUpscaled. rewrite Hfetch. cbn [negb]. rewrite Hmeta.
  replace (w =? 0) with false by (symmetry; apply Z.eqb_neq; exact Hw).
  replace (h =? 0) with false by (symmetry; apply Z.eqb_neq; exact Hh).
  cbn [orb]. rewrite Hsave. reflexivity.
Qed.

Lemma processItem_submits (world : ImageProcessor.World)
    (settings : ImageProcessor.Settings) (i : nat)
    (fileData : ImageProcessor.FileData) (result : ProcessImage.Result)
    (token statusText : jsstring) (image : list N) :
  let f := (inject_Z (ImageProcessor.targetSize settings)
            / inject_Z (maxAxis (ProcessImage.finalSize result)))%Q in
  let w := ImageProcessor.item world i in
  ImageProcessor.basicProcessing w settings
    (ImageProcessor.fileNameOf settings i) fileData = Some result ->
  ImageProcessor.enableUpscaling settings = true ->
  0 < maxAxis (ProcessImage.finalSize result) ->
  (1 < f)%Q ->
  ImageProcessor.upscaleReachable w = true ->
  UpscaleImage.apiToken (ImageProcessor.upscaleEnv w) = Some token -> token <> [] ->
  UpscaleImage.fetchImage (ImageProcessor.upscaleEnv w) (absoluteImageUrl world result)
  = Returned (true, statusText, image) ->
  fst (ImageProcessor.processItem world settings i fileData)
  = [{| req_image := image; req_scale := Math_min f 4; req_face_enhance := false |}] /\
  forall code output url,
    UpscaleImage.predict (ImageProcessor.upscaleEnv w)
      {| req_image := image; req_scale := Math_min f 4; req_face_enhance := false |}
    = Returned (code, output) ->
    200 <= code <= 299 ->
    isString (prop output (lit "status")) "succeeded" = true
    \/ isString (prop output (lit "status")) "processing" = true ->
    UpscaleImage.resultUrlOf output = Some url ->
    truthy url = true ->
    snd (ImageProcessor.processItem world settings i fileData)
    = Some (ImageProcessor.fromUpscale fileData result f
              (scaledBy (ProcessImage.finalSize result) f) url).
Proof.
  intros f w Hbasic Hon Hpos Hf Hreach Htoken Hne Hfetch.
  assert (Hlt : (maxAxis (ProcessImage.finalSize result)
                 <? ImageProcessor.targetSize settings) = true).
  { apply Z.ltb_lt. apply (above_one _ _ Hpos).
    destruct (Qle_bool f 1) eqn:Hle; [| exact Hle].
    apply Qle_bool_iff in Hle. lra. }
  unfold ImageProcessor.processItem. fold w. rewrite Hbasic, Hon.
  fold (maxAxis (ProcessImage.finalSize result)). rewrite Hlt. cbn [andb].
  unfold ImageProcessor.requestUpscale. rewrite Hreach. cbn [negb].
  fold (absoluteImageUrl world result).
  set (req := {| UpscaleImage.imageUrl := absoluteImageUrl world result;
                 UpscaleImage.fileName := ImageProcessor.fileNameOf settings i;
                 UpscaleImage.currentSize := ProcessImage.finalSize result;
                 UpscaleImage.targetSize := ImageProcessor.targetSize settings |}).
  pose proof (upscale_route_submits (ImageProcessor.upscaleEnv w) req
                token statusText image Hf Htoken Hne Hfetch) as Hsent.
  split.
  - destruct (UpscaleImage.POST (ImageProcessor.upscaleEnv w) (Returned req))
      as [requests response]. exact Hsent.
  - intros code output url Hpredict Hcode Hstatus Hurl Htruthy.
    rewrite (upscale_route_accepts (ImageProcessor.upscaleEnv w) req
               token statusText image code output url
               Hf Htoken Hne Hfetch Hpredict Hcode Hstatus Hurl Htruthy).
    reflexivity.
Qed.

(** C4. For a computed factor [f = targetSize / longer axis] above one: the
    request submitted to the provider carries the scale [min(f, 4)], and a
    successful upscale reports the factor [f] itself; so above four the
    reported factor exceeds the scale that was requested.  This holds of the
    upscale-image route, of [upscaleWithReplicate], and of the outcome the
    batch loop records for the item.  Each of the three does submit that
    request once its credential is set and its input image is read, and does
    report [f] once the provider has answered with a result it accepts. *)
Theorem scale_clamped_factor_reported
    (currentSize : ImageDimensions) (targetSize : Z) :
  let f := (inject_Z targetSize / inject_Z (maxAxis currentSize))%Q in
  (1 < f)%Q ->
  (forall env imageUrl fileName,
     let run :=
       UpscaleImage.POST env
         (Returned {| UpscaleImage.imageUrl := imageUrl;
                      UpscaleImage.fileName := fileName;
                      UpscaleImage.currentSize := currentSize;
                      UpscaleImage.targetSize := targetSize |}) in
     (forall r, In r (fst run) -> req_scale r = Math_min f 4) /\
     (forall token statusText image,
        UpscaleImage.apiToken env = Some token -> token <> [] ->
        UpscaleImage.fetchImage env imageUrl = Returned (true, statusText, image) ->
        exists r, fst run = [r] /\ req_scale r = Math_min f 4) /\
     (forall sf size url,
        body (snd run) = UpscaleImage.Success sf size url ->
        sf = f /\
        exists r, fst run = [r] /\ req_scale r = Math_min f 4 /\
                  ((f <= 4)%Q -> (req_scale r == sf)%Q) /\
                  ((4 < f)%Q -> (req_scale r == 4)%Q /\ (req_scale r < sf)%Q)) /\
     (forall token statusText image code output url,
        UpscaleImage.apiToken env = Some token -> token <> [] ->
        UpscaleImage.fetchImage env imageUrl = Returned (true, statusText, image) ->
        UpscaleImage.predict env
          {| req_image := image; req_scale := Math_min f 4;
             req_face_enhance := false |}
        = Returned (code, output) ->
        200 <= code <= 299 ->
        isString (prop output (lit "status")) "succeeded" = true
        \/ isString (prop output (lit "status")) "processing" = true ->
        UpscaleImage.resultUrlOf output = Some url ->
        truthy url = true ->
        run = ([{| req_image := image; req_scale := Math_min f 4;
                   req_face_enhance := false |}],
               {| status := 200;
                  body := UpscaleImage.Success f (scaledBy currentSize f) url |}))) /\
  (forall env fileName,
     let run := ProcessImage.upscaleWithReplicate env fileName currentSize targetSize in
     (forall r, In r (fst run) -> req_scale r = Math_min f 4) /\
     (forall sf size url,
        snd run = Returned (ProcessImage.Upscaled sf size url) ->
        sf = f /\
        exists r, fst run = [r] /\ req_scale r = Math_min f 4 /\
                  ((f <= 4)%Q -> (req_scale r == sf)%Q) /\
                  ((4 < f)%Q -> (req_scale r == 4)%Q /\ (req_scale r < sf)%Q)) /\
     (forall token image,
        ProcessImage.apiToken env = Some token -> token <> [] ->
        ProcessImage.encoded env = Returned image ->
        fst run = [{| req_image := image; req_scale := Math_min f 4;
                      req_face_enhance := false |}] /\
        forall output imageUrl statusText upscaled w h,
          ProcessImage.run env
            {| req_image := image; req_scale := Math_min f 4;
               req_face_enhance := false |}
          = Returned output ->
          ProcessImage.outputUrl output = Some imageUrl -> imageUrl <> [] ->
          ProcessImage.fetchUrl env imageUrl = Returned (true, statusText, upscaled) ->
          ProcessImage.metadata env upscaled = Returned (w, h) ->
          w <> 0 -> h <> 0 ->
          ProcessImage.saveUpscaled env = Returned tt ->
          exists url,
            snd run
            = Returned (ProcessImage.Upscaled f {| width := w; height := h |} url))) /\
  (forall world settings i fileData result requests p,
     ImageProcessor.basicProcessing (ImageProcessor.item world i) settings
       (ImageProcessor.fileNameOf settings i) fileData = Some result ->
     ProcessImage.finalSize result = currentSize ->
     ImageProcessor.targetSize settings = targetSize ->
     ImageProcessor.processItem world settings i fileData = (requests, Some p) ->
     ImageProcessor.wasUpscaled p = true ->
     ImageProcessor.scaleFactor p = f /\
     exists r, requests = [r] /\ req_scale r = Math_min f 4 /\
               ((f <= 4)%Q -> (req_scale r == ImageProcessor.scaleFactor p)%Q) /\
               ((4 < f)%Q -> (req_scale r == 4)%Q
                             /\ (req_scale r < ImageProcessor.scaleFactor p)%Q)) /\
  (forall world settings i fileData result token statusText image,
     ImageProcessor.basicProcessing (ImageProcessor.item world i) settings
       (ImageProcessor.fileNameOf settings i) fileData = Some result ->
     ProcessImage.finalSize result = currentSize ->
     ImageProcessor.targetSize settings = targetSize ->
     ImageProcessor.enableUpscaling settings = true ->
     0 < maxAxis currentSize ->
     ImageProcessor.upscaleReachable (ImageProcessor.item world i) = true ->
     UpscaleImage.apiToken (ImageProcessor.upscaleEnv (ImageProcessor.item world i))
     = Some token ->
     token <> [] ->
     UpscaleImage.fetchImage (ImageProcessor.upscaleEnv (ImageProcessor.item world i))
       (absoluteImageUrl world result)
     = Returned (true, statusText, image) ->
     fst (ImageProcessor.processItem world settings i fileData)
     = [{| req_image := image; req_scale := Math_min f 4;
           req_face_enhance := false |}] /\
     forall code output url,
       UpscaleImage.predict (ImageProcessor.upscaleEnv (ImageProcessor.item world i))
         {| req_image := image; req_scale := Math_min f 4;
            req_face_enhance := false |}
       = Returned (code, output) ->
       200 <= code <= 299 ->
       isString (prop output (lit "status")) "succeeded" = true
       \/ isString (prop output (lit "status")) "processing" = true ->
       UpscaleImage.resultUrlOf output = Some url ->
       truthy url = true ->
       exists p,
         snd (ImageProcessor.processItem world settings i fileData) = Some p /\
         ImageProcessor.wasUpscaled p = true /\
         ImageProcessor.scaleFactor p = f /\
         ImageProcessor.downloadUrl p = url).
Proof.
  intros f Hf. split; [| split; [| split]].
  - intros env imageUrl fileName run. split; [| split; [| split]].
    + intros r Hr. apply (upscale_route_requests _ _ _ Hr).
    + intros token statusText image Htoken Hne Hfetch.
      eexists. split;
        [apply (upscale_route_submits env
                  {| UpscaleImage.imageUrl := imageUrl;
                     UpscaleImage.fileName := fileName;
                     UpscaleImage.currentSize := currentSize;
                     UpscaleImage.targetSize := targetSize |}
                  token statusText image Hf Htoken Hne Hfetch)
        | reflexivity].
    + intros sf size url E.
      destruct (upscale_route_success _ _ _ _ _ E) as [-> [_ [image Hsent]]].
      split; [reflexivity |]. eexists. split; [exact Hsent |].
      cbn [req_scale UpscaleImage.targetSize UpscaleImage.currentSize].
      split; [reflexivity |]. split; [apply clamp_below | apply clamp_above].
    + intros token statusText image code output url
        Htoken Hne Hfetch Hpredict Hcode Hstatus Hurl Htruthy.
      apply (upscale_route_accepts env
               {| UpscaleImage.imageUrl := imageUrl;
                  UpscaleImage.fileName := fileName;
                  UpscaleImage.currentSize := currentSize;
                  UpscaleImage.targetSize := targetSize |}
               token statusText image code output url
               Hf Htoken Hne Hfetch Hpredict Hcode Hstatus Hurl Htruthy).
  - intros env fileName run. split; [| split].
    + intros r Hr. apply (replicate_requests _ _ _ _ _ Hr).
    + intros sf size url E.
      destruct (replicate_success _ _ _ _ _ _ _ E) as [-> [[image Hsent] _]].
      split; [reflexivity |]. eexists. split; [exact Hsent |].
      cbn [req_scale]. split; [reflexivity |].
      split; [apply clamp_below | apply clamp_above].
    + intros token image Htoken Hne Hencoded. split.
      * apply (replicate_submits env fileName currentSize targetSize token image
                 Hf Htoken Hne Hencoded).
      * intros output imageUrl statusText upscaled w h
          Hrun Hurl Hnonempty Hfetch Hmeta Hw Hh Hsave.
        eexists.
        apply (replicate_accepts env fileName currentSize targetSize token image
                 output imageUrl statusText upscaled w h
                 Hf Htoken Hne Hencoded Hrun Hurl Hnonempty Hfetch Hmeta Hw Hh Hsave).
  - intros world settings i fileData result requests p Hbasic <- <- Hitem Hup.
    destruct (processItem_upscaled _ _ _ _ _ _ _ Hbasic Hitem Hup)
      as [Hsf [_ [image ->]]].
    split; [exact Hsf |]. eexists. split; [reflexivity |].
    cbn [req_scale]. rewrite Hsf. split; [reflexivity |].
    split; [apply clamp_below | apply clamp_above].
  - intros world settings i fileData result token statusText image
      Hbasic <- <- Hon Hpos Hreach Htoken Hne Hfetch.
    destruct (processItem_submits world settings i fileData result
                token statusText image Hbasic Hon Hpos Hf Hreach Htoken Hne Hfetch)
      as [Hsent Haccept].
    split; [exact Hsent |].
    intros code output url Hpredict Hcode Hstatus Hurl Htruthy.
    eexists. split;
      [apply (Haccept code output url Hpredict Hcode Hstatus Hurl Htruthy) |].
    repeat split.
Qed.

Lemma scale_clamped_factor_reported_witness :
  (1 < inject_Z 4000 / inject_Z (maxAxis {| width := 800; height := 600 |}))%Q /\
  UpscaleImage.POST (sampleUpscaleEnv succeededOutput) (Returned sampleRequest)
  = ([{| req_image := pngBytes;
         req_scale :=
           Math_min (inject_Z 4000
                     / inject_Z (maxAxis {| width := 800; height := 600 |})) 4;
         req_face_enhance := false |}],
     {| status := 200;
        body :=
          UpscaleImage.Success
            (inject_Z 4000 / inject_Z (maxAxis {| width := 800; height := 600 |}))
            (scaledBy {| width := 800; height := 600 |}
               (inject_Z 4000 / inject_Z (maxAxis {| width := 800; height := 600 |})))
            (JStr (lit "https://replicate.delivery/out.png")) |}) /\
  (exists url,
     ProcessImage.upscaleWithReplicate sampleReplicateEnv (lit "image_1")
       {| width := 800; height := 600 |} 4000
     = ([{| req_image := pngBytes;
            req_scale :=
              Math_min (inject_Z 4000
                        / inject_Z (maxAxis {| width := 800; height := 600 |})) 4;
            req_face_enhance := false |}],
        Returned
          (ProcessImage.Upscaled
             (inject_Z 4000 / inject_Z (maxAxis {| width := 800; height := 600 |}))
             {| width := 3200; height := 2400 |} url))) /\
  (fst (ImageProcessor.processItem (sampleWorld succeededOutput)
          (sampleSettings 4000) 0 fileA)
   = [{| req_image := pngBytes;
         req_scale :=
           Math_min (inject_Z 4000
                     / inject_Z (maxAxis {| width := 800; height := 600 |})) 4;
         req_face_enhance := false |}] /\
   exists p,
     snd (ImageProcessor.processItem (sampleWorld succeededOutput)
            (sampleSettings 4000) 0 fileA) = Some p /\
     ImageProcessor.wasUpscaled p = true /\
     ImageProcessor.scaleFactor p
     = (inject_Z 4000 / inject_Z (maxAxis {| width := 800; height := 600 |}))%Q /\
     ImageProcessor.downloadUrl p = JStr (lit "https://replicate.delivery/out.png")).
Proof.
  assert (H : (1 < inject_Z 4000
                   / inject_Z (maxAxis {| width := 800; height := 600 |}))%Q)
    by (vm_compute; reflexivity).
  destruct (scale_clamped_factor_reported {| width := 800; height := 600 |} 4000 H)
    as [Hroute [Hreplicate [_ Hitem]]].
  split; [exact H |]. split; [| split].
  - apply (proj2 (proj2 (proj2
             (Hroute (sampleUpscaleEnv succeededOutput)
                (UpscaleImage.imageUrl sampleRequest)
                (UpscaleImage.fileName sampleRequest))))
             (lit "r8_token") (lit "OK") pngBytes 201 succeededOutput
             (JStr (lit "https://replicate.delivery/out.png")));
      try reflexivity; try discriminate.
    + lia.
    + left. reflexivity.
  - destruct (proj2 (proj2 (Hreplicate sampleReplicateEnv (lit "image_1")))
                (lit "r8_token") pngBytes eq_refl ltac:(discriminate) eq_refl)
      as [Hsent Haccept].
    destruct (Haccept (JStr (lit "https://replicate.delivery/out.png"))
                (lit "https://replicate.delivery/out.png") (lit "OK") pngBytes
                3200 2400 eq_refl eq_refl ltac:(discriminate) eq_refl eq_refl
                ltac:(discriminate) ltac:(discriminate) eq_refl)
      as [url Hrun].
    exists url.
    rewrite (surjective_pairing
               (ProcessImage.upscaleWithReplicate sampleReplicateEnv (lit "image_1")
                  {| width := 800; height := 600 |} 4000)).
    rewrite Hsent, Hrun. reflexivity.
  - assert (Hbasic :
      ImageProcessor.basicProcessing
        (ImageProcessor.item (sampleWorld succeededOutput) 0) (sampleSettings 4000)
        (ImageProcessor.fileNameOf (sampleSettings 4000) 0) fileA
      = Some
          {| ProcessImage.success := true;
             ProcessImage.processedName := lit "image_1";
             ProcessImage.originalSize := {| width := 800; height := 600 |};
             ProcessImage.finalSize := {| width := 800; height := 600 |};
             ProcessImage.wasResized := false;
             ProcessImage.wasUpscaled := false;
             ProcessImage.scaleFactor := 1;
             ProcessImage.downloadUrl :=
               lit "/api/serve-image/1700000000000_image_1.png";
             ProcessImage.preview :=
               lit "/api/serve-image/1700000000000_image_1.png" |})
      by (vm_compute; reflexivity).
    destruct (Hitem (sampleWorld succeededOutput) (sampleSettings 4000) 0%nat fileA
                _ (lit "r8_token") (lit "OK") pngBytes
                Hbasic eq_refl eq_refl eq_refl ltac:(reflexivity) eq_refl eq_refl
                ltac:(discriminate) eq_refl)
      as [Hsent Haccept].
    split; [exact Hsent |].
    apply (Haccept 201 succeededOutput
             (JStr (lit "https://replicate.delivery/out.png")));
      try reflexivity.
    + lia.
    + left. reflexivity.
Defined.

(** C3. The final size the upscale-image route reports on success is the
    input size times the computed factor, rounded: the route neither
    downloads nor decodes the image the provider produced.  Asked to bring an
    image of 800 by 600 to a target of 4000, it submits the scale 4 and, when
    the provider answers with a URL, reports 4000 by 3000, the input times
    the unclamped factor 5, where the provider was asked for an image of 3200
    by 2400. *)
Theorem upscale_route_reports_computed_size :
  (forall env req sf size url,
     body (snd (UpscaleImage.POST env (Returned req)))
     = UpscaleImage.Success sf size url ->
     size
     = {| width :=
            Math_round (inject_Z (width (UpscaleImage.currentSize req))
                        * (inject_Z (UpscaleImage.targetSize req)
                           / inject_Z (maxAxis (UpscaleImage.currentSize req))));
          height :=
            Math_round (inject_Z (height (UpscaleImage.currentSize req))
                        * (inject_Z (UpscaleImage.targetSize req)
                           / inject_Z (maxAxis (UpscaleImage.currentSize req)))) |}) /\
  UpscaleImage.POST (sampleUpscaleEnv succeededOutput) (Returned sampleRequest)
  = ([{| req_image := pngBytes; req_scale := 4; req_face_enhance := false |}],
     {| status := 200;
        body := UpscaleImage.Success (4000 # 800)
                  {| width := 4000; height := 3000 |}
                  (JStr (lit "https://replicate.delivery/out.png")) |})
  /\ {| width := 4000; height := 3000 |}
     <> {| width := 4 * 800; height := 4 * 600 |}.
Proof.
  split; [| split; [vm_compute; reflexivity | discriminate]].
  intros env req sf size url E.
  apply (upscale_route_success env req sf size url E).
Qed.

(** The sibling path does measure: the size [upscaleWithReplicate] reports
    is the one the decoder read from the bytes it downloaded. *)
Lemma upscaleWithReplicate_measures (env : ProcessImage.Env) (fileName : jsstring)
    (currentSize : ImageDimensions) (targetSize : Z)
    (sf : Q) (size : ImageDimensions) (url : jsstring) :
  snd (ProcessImage.upscaleWithReplicate env fileName currentSize targetSize)
  = Returned (ProcessImage.Upscaled sf size url) ->
  exists imageUrl statusText upscaledBuffer,
    ProcessImage.fetchUrl env imageUrl = Returned (true, statusText, upscaledBuffer) /\
    ProcessImage.metadata env upscaledBuffer = Returned (width size, height size).
Proof. intros E. apply (replicate_success _ _ _ _ _ _ _ E). Qed.

(** ** Fallback to the artifact of the first stage *)

Lemma route_fallback (env : ProcessImage.Env) (file : option File)
    (settings : ProcessImage.Settings) (base : ProcessImage.Result) :
  snd (ProcessImage.POST env file (Returned (withUpscaling false settings)))
  = {| status := 200; body := ProcessImage.Processed base |} ->
  exists r,
    snd (ProcessImage.POST env file (Returned settings))
    = {| status := 200; body := ProcessImage.Processed r |} /\
    ProcessImage.success r = true /\
    ProcessImage.success base = true /\
    ProcessImage.wasUpscaled base = false /\
    ProcessImage.scaleFactor base = 1%Q /\
    (replicateFailed
       (snd (ProcessImage.upscaleWithReplicate env (ProcessImage.fileName settings)
               (ProcessImage.finalSize base)
               (default 2560 (ProcessImage.targetSize settings)))) ->
     r = base).
Proof.
  unfold ProcessImage.POST, withUpscaling.
  cbn [ProcessImage.enableUpscaling ProcessImage.maxDimension
       ProcessImage.targetSize ProcessImage.fileName from_option id andb].
  unfold ProcessImage.internalError, ProcessImage.badRequest.
  repeat break_match; cbn [snd] in *; intros E; try discriminate;
    injection E as <-;
    cbn [fst snd ProcessImage.finalSize ProcessImage.success
         ProcessImage.wasUpscaled ProcessImage.scaleFactor] in *;
    eexists; (split; [reflexivity |]);
    cbn [ProcessImage.success ProcessImage.wasUpscaled ProcessImage.scaleFactor];
    repeat split;
    try (intros Hfail;
         repeat match goal with
                | H : ProcessImage.upscaleWithReplicate _ _ _ _ = _ |- _ =>
                    rewrite H in Hfail
                end;
         cbn [snd replicateFailed] in Hfail; try contradiction; reflexivity).
Qed.

Lemma interpret_failed (env : UpscaleImage.Env) (req : UpscaleImage.Request)
    (f : Q) (code : Z) (output : Json) :
  (200 <=? code) && (code <=? 299) = false \/ output = JObj []
  \/ UpscaleImage.resultUrlOf output = None ->
  upscaleFailed (Some (body (UpscaleImage.interpret env req f code output))).
Proof.
  unfold UpscaleImage.interpret, UpscaleImage.respond.
  intros [H | [-> | H]].
  - rewrite H. repeat break_match; cbn [body upscaleFailed]; try exact I;
      cbn [negb] in *; discriminate.
  - cbn. exact I.
  - rewrite H. repeat break_match; cbn [body upscaleFailed]; try exact I;
      cbn [negb] in *; discriminate.
Qed.

(** Each kind of failure makes the upscale-image route answer with
    [success: false]: a missing credential, a failed download of the input,
    a provider call that throws, a provider error status, an empty object,
    and a response in which no URL is recognized. *)
Lemma upscale_route_failures (env : UpscaleImage.Env) (req : UpscaleImage.Request) :
  let answer := Some (body (snd (UpscaleImage.POST env (Returned req)))) in
  (truthy_str (default [] (UpscaleImage.apiToken env)) = false ->
   upscaleFailed answer) /\
  ((forall okay statusText image,
      UpscaleImage.fetchImage env (UpscaleImage.imageUrl req)
      <> Returned (okay, statusText, image) \/ okay = false) ->
   upscaleFailed answer) /\
  ((forall r code output, UpscaleImage.predict env r <> Returned (code, output)) ->
   upscaleFailed answer) /\
  ((forall r code output,
      UpscaleImage.predict env r = Returned (code, output) ->
      (200 <=? code) && (code <=? 299) = false) ->
   upscaleFailed answer) /\
  ((forall r code output,
      UpscaleImage.predict env r = Returned (code, output) -> output = JObj []) ->
   upscaleFailed answer) /\
  ((forall r code output,
      UpscaleImage.predict env r = Returned (code, output) ->
      UpscaleImage.resultUrlOf output = None) ->
   upscaleFailed answer).
Proof.
  cbv zeta. unfold UpscaleImage.POST, UpscaleImage.respond.
  repeat split; intros H;
    repeat break_match; cbn [snd body]; try exact I.
  - match goal with E : negb _ = false |- _ => rewrite H in E; discriminate E end.
  - match goal with
    | E : UpscaleImage.fetchImage _ _ = Returned (?o, ?s, ?i) |- _ =>
        destruct (H o s i) as [Hne | ->]; [congruence | discriminate]
    end.
  - match goal with
    | E : UpscaleImage.predict _ _ = Returned _ |- _ => apply H in E; contradiction
    end.
  - apply interpret_failed. left. eapply H. eassumption.
  - apply interpret_failed. right. left. eapply H. eassumption.
  - apply interpret_failed. right. right. eapply H. eassumption.
Qed.

(** An item whose first stage succeeded keeps the artifact of that stage
    whenever the upscale stage reports a failure: the batch loop records it
    with the download URL and the final size of the first stage,
    [wasUpscaled = false] and [scaleFactor = 1]; and the process-image route
    answers with [success = true] and the same result as with upscaling
    switched off. *)
Theorem upscale_failure_keeps_item :
  (forall world settings i fileData result,
     ImageProcessor.basicProcessing (ImageProcessor.item world i) settings
       (ImageProcessor.fileNameOf settings i) fileData = Some result ->
     upscaleFailed
       (snd (ImageProcessor.requestUpscale world (ImageProcessor.item world i)
               settings (ImageProcessor.fileNameOf settings i) result)) ->
     exists p,
       snd (ImageProcessor.processItem world settings i fileData) = Some p /\
       ProcessImage.success result = true /\
       ImageProcessor.downloadUrl p = JStr (ProcessImage.downloadUrl result) /\
       ImageProcessor.finalSize p = ProcessImage.finalSize result /\
       ImageProcessor.wasUpscaled p = false /\
       ImageProcessor.scaleFactor p = 1%Q) /\
  (forall env file settings base,
     snd (ProcessImage.POST env file (Returned (withUpscaling false settings)))
     = {| status := 200; body := ProcessImage.Processed base |} ->
     replicateFailed
       (snd (ProcessImage.upscaleWithReplicate env (ProcessImage.fileName settings)
               (ProcessImage.finalSize base)
               (default 2560 (ProcessImage.targetSize settings)))) ->
     exists r,
       snd (ProcessImage.POST env file (Returned settings))
       = {| status := 200; body := ProcessImage.Processed r |} /\
       ProcessImage.success r = true /\
       ProcessImage.downloadUrl r = ProcessImage.downloadUrl base /\
       ProcessImage.finalSize r = ProcessImage.finalSize base /\
       ProcessImage.wasUpscaled r = false /\
       ProcessImage.scaleFactor r = 1%Q).
Proof.
  split.
  - intros world settings i fileData result Hbasic Hfail.
    destruct (basicProcessing_baseline _ _ _ _ _ Hbasic) as [Hs [Hu [Hf _]]].
    exists (ImageProcessor.fromResult fileData result).
    split; [apply processItem_fallback; assumption |].
    cbn. repeat split; assumption.
  - intros env file settings base Hbase Hfail.
    destruct (route_fallback env file settings base Hbase)
      as [r [Hr [Hs [_ [Hu [Hf Heq]]]]]].
    specialize (Heq Hfail). subst r.
    exists base. repeat split; assumption.
Qed.

Lemma upscale_failure_keeps_item_witness :
  (ImageProcessor.basicProcessing
     (ImageProcessor.item (sampleWorld (JObj [])) 0) (sampleSettings 2560)
     (ImageProcessor.fileNameOf (sampleSettings 2560) 0) fileA
   <> None) /\
  exists p,
    snd (ImageProcessor.processItem (sampleWorld (JObj [])) (sampleSettings 2560) 0 fileA)
    = Some p /\
    ImageProcessor.downloadUrl p
    = JStr (lit "/api/serve-image/1700000000000_image_1.png") /\
    ImageProcessor.finalSize p = {| width := 800; height := 600 |} /\
    ImageProcessor.wasUpscaled p = false /\
    ImageProcessor.scaleFactor p = 1%Q.
Proof.
  destruct (ImageProcessor.basicProcessing
              (ImageProcessor.item (sampleWorld (JObj [])) 0) (sampleSettings 2560)
              (ImageProcessor.fileNameOf (sampleSettings 2560) 0) fileA)
    as [result |] eqn:Hbasic; [| vm_compute in Hbasic; discriminate Hbasic].
  split; [discriminate |].
  assert (Hfail : upscaleFailed
            (snd (ImageProcessor.requestUpscale (sampleWorld (JObj []))
                    (ImageProcessor.item (sampleWorld (JObj [])) 0)
                    (sampleSettings 2560)
                    (ImageProcessor.fileNameOf (sampleSettings 2560) 0) result))).
  { vm_compute in Hbasic. injection Hbasic as <-. vm_compute. exact I. }
  destruct (proj1 upscale_failure_keeps_item _ _ _ _ _ Hbasic Hfail)
    as [p [Hp [_ [Hurl [Hsize [Hup Hsf]]]]]].
  exists p. vm_compute in Hbasic. injection Hbasic as <-.
  repeat split; assumption.
Defined.

(** C2. A provider answer that holds no URL is not always taken as a failure
    of the upscale stage.  When the answer has the status [succeeded] (or
    [processing]) and its output is an array, the upscale-image route takes
    the first element as the result URL whatever it is, provided it is
    truthy, and the batch loop records the item as upscaled with that value
    as its download URL.  For the output [[7]] the item of an 800 by 600
    image is recorded with [wasUpscaled = true], [scaleFactor = 3.2], the
    size 2560 by 1920 and the download URL [7], where an empty object leaves
    the artifact of the first stage. *)
Theorem unrecognized_output_recorded_as_upscaled :
  (forall world settings i fileData result token statusText image
          code status first rest,
     let w := ImageProcessor.item world i in
     let f := (inject_Z (ImageProcessor.targetSize settings)
               / inject_Z (maxAxis (ProcessImage.finalSize result)))%Q in
     ImageProcessor.basicProcessing w settings
       (ImageProcessor.fileNameOf settings i) fileData = Some result ->
     ImageProcessor.enableUpscaling settings = true ->
     0 < maxAxis (ProcessImage.finalSize result) ->
     maxAxis (ProcessImage.finalSize result) < ImageProcessor.targetSize settings ->
     ImageProcessor.upscaleReachable w = true ->
     UpscaleImage.apiToken (ImageProcessor.upscaleEnv w) = Some token ->
     token <> [] ->
     UpscaleImage.fetchImage (ImageProcessor.upscaleEnv w)
       (absoluteImageUrl world result)
     = Returned (true, statusText, image) ->
     UpscaleImage.predict (ImageProcessor.upscaleEnv w)
       {| req_image := image; req_scale := Math_min f 4; req_face_enhance := false |}
     = Returned (code, JObj [(lit "status", JStr status);
                             (lit "output", JArr (first :: rest))]) ->
     200 <= code <= 299 ->
     status = lit "succeeded" \/ status = lit "processing" ->
     truthy first = true ->
     exists p,
       snd (ImageProcessor.processItem world settings i fileData) = Some p /\
       ImageProcessor.wasUpscaled p = true /\
       ImageProcessor.scaleFactor p = f /\
       ImageProcessor.finalSize p = scaledBy (ProcessImage.finalSize result) f /\
       ImageProcessor.downloadUrl p = first) /\
  ImageProcessor.processItem (sampleWorld unrecognizedOutput) (sampleSettings 2560) 0 fileA
  = ([{| req_image := pngBytes; req_scale := 2560 # 800; req_face_enhance := false |}],
     Some
       {| ImageProcessor.id := lit "a";
          ImageProcessor.originalName := lit "a.png";
          ImageProcessor.processedName := lit "image_1";
          ImageProcessor.originalSize := {| width := 800; height := 600 |};
          ImageProcessor.finalSize := {| width := 2560; height := 1920 |};
          ImageProcessor.wasResized := false;
          ImageProcessor.wasUpscaled := true;
          ImageProcessor.scaleFactor := 2560 # 800;
          ImageProcessor.downloadUrl := JNum 7;
          ImageProcessor.preview := JNum 7 |}) /\
  snd (ImageProcessor.processItem (sampleWorld (JObj [])) (sampleSettings 2560) 0 fileA)
  = Some
      {| ImageProcessor.id := lit "a";
         ImageProcessor.originalName := lit "a.png";
         ImageProcessor.processedName := lit "image_1";
         ImageProcessor.originalSize := {| width := 800; height := 600 |};
         ImageProcessor.finalSize := {| width := 800; height := 600 |};
         ImageProcessor.wasResized := false;
         ImageProcessor.wasUpscaled := false;
         ImageProcessor.scaleFactor := 1;
         ImageProcessor.downloadUrl :=
           JStr (lit "/api/serve-image/1700000000000_image_1.png");
         ImageProcessor.preview :=
           JStr (lit "/api/serve-image/1700000000000_image_1.png") |}.
Proof.
  split; [| split; vm_compute; reflexivity].
  intros world settings i fileData result token statusText image
    code status first rest w f
    Hbasic Hon Hpos Hlt Hreach Htoken Hne Hfetch Hpredict Hcode Hstatus Htruthy.
  assert (Hf : (1 < f)%Q).
  { subst f. apply Qlt_shift_div_l.
    - change 0%Q with (inject_Z 0). rewrite <- Zlt_Qlt. exact Hpos.
    - rewrite Qmult_1_l. rewrite <- Zlt_Qlt. exact Hlt. }
  destruct (processItem_submits world settings i fileData result
              token statusText image Hbasic Hon Hpos Hf Hreach Htoken Hne Hfetch)
    as [_ Haccept].
  eexists. split.
  - apply (Haccept code _ first Hpredict Hcode).
    + destruct Hstatus as [-> | ->]; [left | right]; vm_compute; reflexivity.
    + reflexivity.
    + exact Htruthy.
  - repeat split.
Qed.

(** ** The batch loop *)

(** What each iteration leaves, in the order of the files: the image it
    pushed, or [None]. *)
Lemma processLoop_attempts (world : ImageProcessor.World)
    (settings : ImageProcessor.Settings) (files : list ImageProcessor.FileData) :
  forall (i : nat) (results : list ImageProcessor.ProcessedImage),
    ImageProcessor.processLoop world settings i files results
    = results ++ omap id (attempts world settings i files).
Proof.
  induction files as [| fileData rest IH]; intros i results; cbn [ImageProcessor.processLoop attempts].
  - cbn. rewrite app_nil_r. reflexivity.
  - rewrite IH. cbn [omap list_omap id].
    destruct (snd (ImageProcessor.processItem world settings i fileData)) as [p |];
      cbn; [rewrite <- app_assoc |]; reflexivity.
Qed.

Lemma attempts_length (world : ImageProcessor.World)
    (settings : ImageProcessor.Settings) (files : list ImageProcessor.FileData) :
  forall i, List.length (attempts world settings i files) = List.length files.
Proof.
  induction files as [| fileData rest IH]; intros i; cbn; [reflexivity |].
  rewrite IH. reflexivity.
Qed.

Lemma attempts_lookup (world : ImageProcessor.World)
    (settings : ImageProcessor.Settings) (files : list ImageProcessor.FileData) :
  forall (i k : nat),
    attempts world settings i files !! k
    = (fun fileData => snd (ImageProcessor.processItem world settings (i + k) fileData))
        <$> files !! k.
Proof.
  induction files as [| fileData rest IH]; intros i k; [reflexivity |].
  destruct k as [| k]; cbn.
  - rewrite Nat.add_0_r. reflexivity.
  - rewrite IH. replace (S i + k)%nat with (i + S k)%nat by lia. reflexivity.
Qed.

Lemma omap_id_length {A} (l : list (option A)) :
  (List.length (omap id l) <= List.length l)%nat.
Proof.
  induction l as [| [x |] l IH]; cbn; lia.
Qed.

Lemma omap_id_length_full {A} (l : list (option A)) :
  List.length (omap id l) = List.length l <-> Forall is_Some l.
Proof.
  induction l as [| [x |] l IH]; cbn.
  - split; [constructor | reflexivity].
  - split.
    + intros E. constructor; [eexists; reflexivity | apply IH; lia].
    + intros H. inversion H; subst. f_equal. apply IH. assumption.
  - pose proof (omap_id_length l). split.
    + intros E. lia.
    + intros H'. inversion H' as [| ? ? [? Hx] ?]. discriminate Hx.
Qed.

(** C1, counterexample. In a batch of three files whose second file cannot be
    decoded, the list handed to [onProcessingComplete] has two entries, those
    of the first and the third file; the second file has no entry. *)
Lemma processImages_drops_failed_item :
  List.length sampleBatch = 3%nat /\
  valid (validateImageFile brokenFile) = true /\
  option_map (List.map ImageProcessor.id)
    (ImageProcessor.processImages (sampleWorld (JObj [])) (sampleSettings 2560)
       sampleBatch)
  = Some [lit "a"; lit "c"].
Proof. repeat split; vm_compute; reflexivity. Qed.

(** C1, amended. A run over a non-empty batch hands over the images pushed
    by the iterations, in the order of the files: an iteration whose first
    request succeeded pushes one image, carrying the id of its file, and an
    iteration whose first request failed pushes nothing.  The list is
    therefore at most as long as the batch, and as long exactly when no
    first request failed. *)
Theorem processImages_outcomes (world : ImageProcessor.World)
    (settings : ImageProcessor.Settings) (files : list ImageProcessor.FileData) :
  files <> [] ->
  exists results,
    ImageProcessor.processImages world settings files = Some results /\
    results = omap id (attempts world settings 0 files) /\
    List.length (attempts world settings 0 files) = List.length files /\
    (forall k fileData,
       files !! k = Some fileData ->
       match ImageProcessor.basicProcessing (ImageProcessor.item world k) settings
               (ImageProcessor.fileNameOf settings k) fileData with
       | Some _ =>
           exists p, attempts world settings 0 files !! k = Some (Some p) /\
                     ImageProcessor.id p = ImageProcessor.fd_id fileData
       | None => attempts world settings 0 files !! k = Some None
       end) /\
    (List.length results <= List.length files)%nat /\
    (List.length results = List.length files <->
     forall k fileData,
       files !! k = Some fileData ->
       ImageProcessor.basicProcessing (ImageProcessor.item world k) settings
         (ImageProcessor.fileNameOf settings k) fileData <> None).
Proof.
  intros Hne.
  assert (Hslot : forall k fileData,
    files !! k = Some fileData ->
    match ImageProcessor.basicProcessing (ImageProcessor.item world k) settings
            (ImageProcessor.fileNameOf settings k) fileData with
    | Some _ =>
        exists p, attempts world settings 0 files !! k = Some (Some p) /\
                  ImageProcessor.id p = ImageProcessor.fd_id fileData
    | None => attempts world settings 0 files !! k = Some None
    end).
  { intros k fileData Hk. rewrite attempts_lookup, Hk. cbn.
    destruct (ImageProcessor.basicProcessing _ _ _ _) as [result |] eqn:E.
    - destruct (processItem_pushed _ _ _ _ _ E) as [p [Hp Hid]].
      exists p. rewrite Hp. split; [reflexivity | exact Hid].
    - rewrite (processItem_failed _ _ _ _ E). reflexivity. }
  exists (omap id (attempts world settings 0 files)).
  split; [| split; [reflexivity | split; [apply attempts_length |
    split; [exact Hslot | split]]]].
  - destruct files as [| fileData rest]; [congruence |].
    unfold ImageProcessor.processImages. rewrite processLoop_attempts. reflexivity.
  - rewrite <- (attempts_length world settings files 0). apply omap_id_length.
  - rewrite <- (attempts_length world settings files 0) at 1.
    rewrite omap_id_length_full, Forall_lookup. split.
    + intros Hall k fileData Hk Hnone.
      specialize (Hslot k fileData Hk). rewrite Hnone in Hslot.
      destruct (Hall k None Hslot) as [x Hx]. discriminate Hx.
    + intros Hall k o Hk.
      rewrite attempts_lookup in Hk.
      destruct (files !! k) as [fileData |] eqn:Hf; [| discriminate Hk].
      specialize (Hslot k fileData Hf). specialize (Hall k fileData Hf).
      destruct (ImageProcessor.basicProcessing _ _ _ _) as [result |];
        [| congruence].
      destruct Hslot as [p [Hp _]]. rewrite attempts_lookup, Hf in Hp.
      cbn in Hk, Hp. rewrite Hk in Hp. injection Hp as ->. eexists; reflexivity.
Qed.

Lemma processImages_outcomes_witness :
  sampleBatch <> [] /\
  exists results,
    ImageProcessor.processImages (sampleWorld (JObj [])) (sampleSettings 2560)
      sampleBatch = Some results /\
    (List.length results <= List.length sampleBatch)%nat.
Proof.
  assert (H : sampleBatch <> []) by discriminate.
  split; [exact H |].
  destruct (processImages_outcomes (sampleWorld (JObj [])) (sampleSettings 2560)
              sampleBatch H) as [results [Hrun [_ [_ [_ [Hlen _]]]]]].
  exists results. split; assumption.
Defined.

(** ** Cleanup after the archive *)

(** C5, counterexample. The store holds a processed file written by run 2.
    Run 1 requests its archive; the one timer the route sets has a delay of
    5000 ms, and once its callback has run the file of run 2 is gone. *)
Lemma cleanup_deletes_other_runs :
  processedFile sampleStore (lit "1700000009000_image_1.png")
  = Some {| DownloadAll.owner := 2; DownloadAll.content := pngBytes |} /\
  List.map
    (fun t => (DownloadAll.delay t,
               processedFile (DownloadAll.callback t sampleStore)
                 (lit "1700000009000_image_1.png")))
    (snd (DownloadAll.POST sampleDownloadEnv sampleStore sampleDownload))
  = [(5000, None)].
Proof. split; vm_compute; reflexivity. Qed.

Lemma unlinkAll_lookup (can : jsstring -> bool) (files : list jsstring) :
  (forall file, can file = true) ->
  forall (dir : gmap jsstring DownloadAll.Artifact) (k : jsstring),
    DownloadAll.unlinkAll can files dir !! k
    = if decide (k ∈ files) then None else dir !! k.
Proof.
  intros Hcan. induction files as [| file rest IH]; intros dir k; cbn.
  - destruct (decide (k ∈ [])) as [Hin | _]; [| reflexivity].
    apply elem_of_nil in Hin. contradiction.
  - rewrite Hcan, IH.
    destruct (decide (k ∈ rest)) as [Hin | Hnot].
    + destruct (decide (k ∈ file :: rest)) as [_ | Hout]; [reflexivity |].
      exfalso. apply Hout. right. exact Hin.
    + destruct (decide (k = file)) as [-> | Hne].
      * rewrite lookup_delete_eq.
        destruct (decide (file ∈ file :: rest)) as [_ | Hout]; [reflexivity |].
        exfalso. apply Hout. left.
      * rewrite lookup_delete_ne by congruence.
        destruct (decide (k ∈ file :: rest)) as [Hin | _]; [| reflexivity].
        apply elem_of_cons in Hin. destruct Hin; [congruence | contradiction].
Qed.

Lemma unlinkAll_only_deletes (can : jsstring -> bool) (files : list jsstring) :
  forall (dir : gmap jsstring DownloadAll.Artifact) (k : jsstring)
         (a : DownloadAll.Artifact),
    DownloadAll.unlinkAll can files dir !! k = Some a -> dir !! k = Some a.
Proof.
  induction files as [| file rest IH]; intros dir k a; cbn; [tauto |].
  destruct (can file); [| tauto].
  intros H. apply IH in H. apply lookup_delete_Some in H. tauto.
Qed.

Lemma cleanDirectory_emptied (can : jsstring -> bool)
    (dir : option (gmap jsstring DownloadAll.Artifact)) :
  (forall file, can file = true) ->
  DownloadAll.cleanDirectory can dir = emptied dir.
Proof.
  intros Hcan. destruct dir as [files |]; [| reflexivity].
  cbn. f_equal. apply map_eq. intros k.
  rewrite (unlinkAll_lookup can _ Hcan), lookup_empty.
  destruct (decide (k ∈ List.map fst (map_to_list files))) as [_ | Hout];
    [reflexivity |].
  destruct (files !! k) as [a |] eqn:E; [| reflexivity].
  exfalso. apply Hout. apply list_elem_of_In, in_map_iff.
  exists (k, a). split; [reflexivity |].
  apply list_elem_of_In, elem_of_map_to_list. exact E.
Qed.

Lemma unlinkAll_stops (can : jsstring -> bool) (before : list jsstring)
    (file : jsstring) (after : list jsstring) :
  (forall f, In f before -> can f = true) ->
  can file = false ->
  forall (dir : gmap jsstring DownloadAll.Artifact) (k : jsstring),
    DownloadAll.unlinkAll can (before ++ file :: after) dir !! k
    = if decide (k ∈ before) then None else dir !! k.
Proof.
  intros Hbefore Hfile.
  induction before as [| first rest IH]; intros dir k; cbn [app DownloadAll.unlinkAll].
  - rewrite Hfile. destruct (decide (k ∈ [])) as [Hin | _]; [| reflexivity].
    apply elem_of_nil in Hin. contradiction.
  - rewrite (Hbefore first) by (left; reflexivity).
    rewrite IH by (intros f Hf; apply Hbefore; right; exact Hf).
    destruct (decide (k ∈ rest)) as [Hin | Hnot].
    + destruct (decide (k ∈ first :: rest)) as [_ | Hout]; [reflexivity |].
      exfalso. apply Hout. right. exact Hin.
    + destruct (decide (k = first)) as [-> | Hne].
      * rewrite lookup_delete_eq.
        destruct (decide (first ∈ first :: rest)) as [_ | Hout]; [reflexivity |].
        exfalso. apply Hout. left.
      * rewrite lookup_delete_ne by congruence.
        destruct (decide (k ∈ first :: rest)) as [Hin | _]; [| reflexivity].
        apply elem_of_cons in Hin. destruct Hin; [congruence | contradiction].
Qed.

Lemma cleanup_directory (env : DownloadAll.Env) (store : DownloadAll.Store)
    (directory : DownloadAll.Directory) :
  directoryOf (DownloadAll.cleanup env store) directory
  = DownloadAll.cleanDirectory (DownloadAll.canUnlink env directory)
      (directoryOf store directory).
Proof. destruct directory; reflexivity. Qed.

(** C5, amended. When the request names at least one image, the route sets
    one timer, of 5000 ms, whose callback is the cleanup.  The cleanup only
    deletes, in the uploads and in the processed directory; a directory in
    which no deletion fails is left empty, so when none fails both are: the
    cleanup deletes every stored file, whichever run wrote it.  The first
    deletion that fails ends the cleanup of its directory: the files listed
    before it are deleted, that file and the files listed after it stay.  A
    request that is not answered with the archive sets no timer. *)
Theorem cleanup_after_five_seconds (env : DownloadAll.Env)
    (store : DownloadAll.Store) (images : list DownloadAll.ImageRef) :
  images <> [] ->
  snd (DownloadAll.POST env store (Returned (Some images)))
  = [{| DownloadAll.delay := 5000; DownloadAll.callback := DownloadAll.cleanup env |}] /\
  (exists entries,
     fst (DownloadAll.POST env store (Returned (Some images)))
     = DownloadAll.Archive entries) /\
  (forall request,
     snd (DownloadAll.POST env store request) <> [] ->
     exists entries,
       fst (DownloadAll.POST env store request) = DownloadAll.Archive entries) /\
  (forall name a,
     processedFile (DownloadAll.cleanup env store) name = Some a ->
     processedFile store name = Some a) /\
  ((forall directory file, DownloadAll.canUnlink env directory file = true) ->
   DownloadAll.cleanup env store
   = {| DownloadAll.uploads := emptied (DownloadAll.uploads store);
        DownloadAll.processed := emptied (DownloadAll.processed store) |} /\
   forall name, processedFile (DownloadAll.cleanup env store) name = None) /\
  (forall directory name a,
     storedFile (DownloadAll.cleanup env store) directory name = Some a ->
     storedFile store directory name = Some a) /\
  (forall directory,
     (forall file, DownloadAll.canUnlink env directory file = true) ->
     directoryOf (DownloadAll.cleanup env store) directory
     = emptied (directoryOf store directory)) /\
  (forall directory before file after,
     DownloadAll.readdir (directoryOf store directory)
     = Returned (before ++ file :: after) ->
     (forall f, In f before -> DownloadAll.canUnlink env directory f = true) ->
     DownloadAll.canUnlink env directory file = false ->
     (forall name, In name before ->
        storedFile (DownloadAll.cleanup env store) directory name = None) /\
     (forall name, name = file \/ In name after ->
        storedFile store directory name <> None /\
        storedFile (DownloadAll.cleanup env store) directory name
        = storedFile store directory name) /\
     (forall name,
        storedFile (DownloadAll.cleanup env store) directory name
        = if decide (name ∈ before) then None
          else storedFile store directory name)).
Proof.
  intros Hne. split; [| split; [| split; [| split; [| split; [| split; [| split]]]]]].
  - destruct images as [| image rest]; [congruence | reflexivity].
  - destruct images as [| image rest]; [congruence |]. eexists. reflexivity.
  - intros [[[| image rest] |] | e]; cbn; try congruence.
    intros _. eexists. reflexivity.
  - intros name a. unfold processedFile, DownloadAll.cleanup. cbn.
    destruct (DownloadAll.processed store) as [dir |]; cbn; [| discriminate].
    apply unlinkAll_only_deletes.
  - intros Hcan. unfold DownloadAll.cleanup.
    rewrite !cleanDirectory_emptied by (intros file; apply Hcan).
    split; [reflexivity |].
    intros name. unfold processedFile. cbn.
    destruct (DownloadAll.processed store); [apply lookup_empty | reflexivity].
  - intros directory name a. unfold storedFile. rewrite cleanup_directory.
    destruct (directoryOf store directory) as [dir |]; cbn; [| discriminate].
    apply unlinkAll_only_deletes.
  - intros directory Hcan. rewrite cleanup_directory.
    apply cleanDirectory_emptied. exact Hcan.
  - intros directory before file after Hlist Hbefore Hfile.
    assert (Hall : forall name,
              storedFile (DownloadAll.cleanup env store) directory name
              = if decide (name ∈ before) then None
                else storedFile store directory name).
    { intros name. unfold storedFile. rewrite cleanup_directory.
      unfold DownloadAll.readdir in Hlist.
      destruct (directoryOf store directory) as [dir |]; [| discriminate].
      injection Hlist as Hlist. cbn [DownloadAll.cleanDirectory]. rewrite Hlist.
      apply unlinkAll_stops; assumption. }
    split; [| split; [| exact Hall]].
    + intros name Hin. rewrite Hall.
      destruct (decide (name ∈ before)) as [_ | Hout]; [reflexivity |].
      exfalso. apply Hout, list_elem_of_In. exact Hin.
    + intros name Hname.
      unfold DownloadAll.readdir in Hlist.
      destruct (directoryOf store directory) as [dir |] eqn:Hdir; [| discriminate].
      injection Hlist as Hlist.
      assert (Hnodup : NoDup (before ++ file :: after))
        by (rewrite <- Hlist; apply NoDup_fst_map_to_list).
      assert (Hlisted : name ∈ List.map fst (map_to_list dir)).
      { rewrite Hlist. apply list_elem_of_In, in_or_app. right.
        destruct Hname as [-> | Hin]; [left; reflexivity | right; exact Hin]. }
      assert (Hout : name ∉ before).
      { apply NoDup_app in Hnodup. destruct Hnodup as [_ [Hdisjoint _]].
        intros Hin. apply (Hdisjoint name Hin). apply list_elem_of_In.
        destruct Hname as [-> | Hafter]; [left; reflexivity | right; exact Hafter]. }
      split.
      * unfold storedFile. rewrite Hdir.
        apply list_elem_of_In, in_map_iff in Hlisted.
        destruct Hlisted as [[k a] [Hk Hka]]. cbn in Hk. subst k.
        apply list_elem_of_In, elem_of_map_to_list in Hka. rewrite Hka. discriminate.
      * rewrite Hall. destruct (decide (name ∈ before)); [contradiction | reflexivity].
Qed.

Lemma cleanup_after_five_seconds_witness :
  ([{| DownloadAll.id := lit "a"; DownloadAll.name := lit "image_1";
       DownloadAll.downloadUrl := None |}] <> [] /\
   snd (DownloadAll.POST lockedDownloadEnv sampleStore
          (Returned (Some [{| DownloadAll.id := lit "a";
                              DownloadAll.name := lit "image_1";
                              DownloadAll.downloadUrl := None |}])))
   = [{| DownloadAll.delay := 5000;
         DownloadAll.callback := DownloadAll.cleanup lockedDownloadEnv |}]) /\
  ((forall file,
      DownloadAll.canUnlink lockedDownloadEnv DownloadAll.Uploads file = true) /\
   directoryOf (DownloadAll.cleanup lockedDownloadEnv sampleStore)
     DownloadAll.Uploads = Some ∅) /\
  (DownloadAll.readdir (directoryOf sampleStore DownloadAll.Processed)
   = Returned ([lit "1700000009000_image_1.png"]
               ++ lit "1700000000000_image_1.png" :: []) /\
   DownloadAll.canUnlink lockedDownloadEnv DownloadAll.Processed
     (lit "1700000000000_image_1.png") = false /\
   storedFile (DownloadAll.cleanup lockedDownloadEnv sampleStore)
     DownloadAll.Processed (lit "1700000009000_image_1.png") = None /\
   storedFile (DownloadAll.cleanup lockedDownloadEnv sampleStore)
     DownloadAll.Processed (lit "1700000000000_image_1.png")
   = storedFile sampleStore DownloadAll.Processed (lit "1700000000000_image_1.png")).
Proof.
  assert (H : [{| DownloadAll.id := lit "a"; DownloadAll.name := lit "image_1";
                  DownloadAll.downloadUrl := None |}] <> []) by discriminate.
  destruct (cleanup_after_five_seconds lockedDownloadEnv sampleStore _ H)
    as [Htimer [_ [_ [_ [_ [_ [Hempty Hstop]]]]]]].
  assert (Huploads : forall file,
            DownloadAll.canUnlink lockedDownloadEnv DownloadAll.Uploads file = true)
    by (intros file; reflexivity).
  split; [split; [exact H | exact Htimer] |].
  split; [split; [exact Huploads | exact (Hempty DownloadAll.Uploads Huploads)] |].
  assert (Hlist : DownloadAll.readdir (directoryOf sampleStore DownloadAll.Processed)
                  = Returned ([lit "1700000009000_image_1.png"]
                              ++ lit "1700000000000_image_1.png" :: []))
    by (vm_compute; reflexivity).
  assert (Hbefore : forall f, In f [lit "1700000009000_image_1.png"] ->
            DownloadAll.canUnlink lockedDownloadEnv DownloadAll.Processed f = true).
  { intros f [<- | []]. vm_compute. reflexivity. }
  assert (Hfile : DownloadAll.canUnlink lockedDownloadEnv DownloadAll.Processed
                    (lit "1700000000000_image_1.png") = false)
    by (vm_compute; reflexivity).
  destruct (Hstop DownloadAll.Processed _ _ _ Hlist Hbefore Hfile)
    as [Hdeleted [Hkept _]].
  split; [exact Hlist |]. split; [exact Hfile |].
  split; [apply Hdeleted; left; reflexivity |].
  apply Hkept. left. reflexivity.
Defined.

(** ** Sample evaluations *)

Example formatFileSize_zero : formatFileSize 0 = lit "0 B".
Proof. reflexivity. Qed.

Example formatFileSize_1536 : formatFileSize 1536 = lit "1.5 KB".
Proof. vm_compute. reflexivity. Qed.

Example formatFileSize_tebibyte :
  formatFileSize (1024 ^ 4) = lit "1.0 undefined".
Proof. vm_compute. reflexivity. Qed.

Example sanitizeFileName_photo (now : Z) :
  sanitizeFileName now (lit "My Photo!!.png") = lit "My_Photo".
Proof. vm_compute. reflexivity. Qed.

Example sanitizeFileName_empty (now : Z) :
  sanitizeFileName now (lit "") = lit "image_" ++ string_of_Z now.
Proof. reflexivity. Qed.

Example calculateUpscaleFactor_small :
  calculateUpscaleFactor {| width := 800; height := 600 |} None = (2560 # 800)%Q.
Proof. vm_compute. reflexivity. Qed.

Example pdf_rejected :
  validateImageFile pdfFile
  = {| valid := false;
       error := Some (lit "Unsupported file type: application/pdf. Supported formats: JPEG, PNG, WebP, AVIF, BMP, TIFF, GIF") |}.
Proof. vm_compute. reflexivity. Qed.

(** * Further properties *)

(** ** The sizing utilities *)

(** Rounding a scaled axis, in integers. *)
Lemma Math_round_ratio (a m big : Z) :
  0 < big ->
  Math_round (inject_Z a * (inject_Z m / inject_Z big))
  = (2 * a * m + big) / (2 * big).
Proof.
  intros Hbig. unfold Math_round. rewrite Zdiv_Qdiv. apply Qfloor_comp.
  rewrite !inject_Z_plus, !inject_Z_mult.
  change (inject_Z 2) with 2%Q.
  field. apply big_nonzero. exact Hbig.
Qed.

Lemma ratio_above_one (t big : Z) :
  0 < big -> big < t -> (1 < inject_Z t / inject_Z big)%Q.
Proof.
  intros Hbig Hlt. apply Qlt_shift_div_l.
  - change 0%Q with (inject_Z 0). rewrite <- Zlt_Qlt. exact Hbig.
  - rewrite Qmult_1_l. rewrite <- Zlt_Qlt. exact Hlt.
Qed.

(** X1. For every image with a positive longer axis and every target size
    (2560 when omitted), calculateUpscaleFactor returns a factor of at least
    1, and exactly 1 precisely when the target does not exceed the longer
    axis. *)
Theorem calculateUpscaleFactor_at_least_one (d : ImageDimensions)
    (target : option Z) :
  0 < maxAxis d ->
  (1 <= calculateUpscaleFactor d target)%Q /\
  ((calculateUpscaleFactor d target == 1)%Q <-> default 2560 target <= maxAxis d).
Proof.
  intros Hpos. unfold calculateUpscaleFactor. fold (maxAxis d).
  set (t := default 2560 target).
  destruct (Z.geb_spec (maxAxis d) t) as [Hge | Hlt].
  - split; [apply Qle_refl |]. split; [intros _; lia | reflexivity].
  - pose proof (ratio_above_one t (maxAxis d) Hpos Hlt) as H.
    split; [lra |]. split; [intros E; lra | lia].
Qed.

Lemma calculateUpscaleFactor_at_least_one_witness :
  0 < maxAxis landscape /\
  (1 <= calculateUpscaleFactor landscape None)%Q /\
  ((calculateUpscaleFactor landscape None == 1)%Q
   <-> default 2560 None <= maxAxis landscape).
Proof.
  assert (H : 0 < maxAxis landscape) by reflexivity.
  split; [exact H |].
  exact (calculateUpscaleFactor_at_least_one landscape None H).
Defined.

(** The rounded axis as a quotient of integers. *)
Lemma scaled_axis_bounds (a m big : Z) :
  0 <= a -> a <= big -> 0 < m -> m < big ->
  let a' := (2 * a * m + big) / (2 * big) in
  0 <= a' <= a /\
  (a' = 0 <-> 2 * a * m < big) /\
  - big < 2 * big * a' - 2 * a * m <= big.
Proof.
  intros Ha Hle Hm Hlt a'.
  assert (Hbig : 0 < 2 * big) by lia.
  pose proof (Z.div_mod (2 * a * m + big) (2 * big) ltac:(lia)) as Hdm.
  pose proof (Z.mod_pos_bound (2 * a * m + big) (2 * big) Hbig) as Hmod.
  fold a' in Hdm.
  set (r := (2 * a * m + big) mod (2 * big)) in *. clearbody r a'.
  assert (Hnn : 0 <= a') by nia.
  assert (Hup : a' <= a) by nia.
  split; [lia |]. split; [| lia].
  split; [intros ->; lia | intros Hsmall; nia].
Qed.

(** X2. For positive axes and a positive bound, calculateResizeDimensions
    never enlarges an axis: each returned axis lies between 0 and the
    original axis.  An axis comes out as 0 only when the image is resized
    and twice the axis times the bound is at most the longer axis, and it
    does come out as 0 whenever the image is resized and that product is
    below the longer axis. *)
Theorem calculateResizeDimensions_never_enlarges (d : ImageDimensions) (m : Z) :
  0 < width d -> 0 < height d -> 0 < m ->
  let d' := fst (calculateResizeDimensions d m) in
  0 <= width d' <= width d /\
  0 <= height d' <= height d /\
  (width d' = 0 -> m < maxAxis d /\ 2 * width d * m <= maxAxis d) /\
  (m < maxAxis d -> 2 * width d * m < maxAxis d -> width d' = 0) /\
  (height d' = 0 -> m < maxAxis d /\ 2 * height d * m <= maxAxis d) /\
  (m < maxAxis d -> 2 * height d * m < maxAxis d -> height d' = 0).
Proof.
  intros Hw Hh Hm d'. subst d'.
  destruct (Z.le_gt_cases (maxAxis d) m) as [Hle | Hlt].
  - rewrite (resize_small d m Hle). cbn [fst].
    repeat split; lia.
  - rewrite (resize_large d m Hlt). cbn [fst width height].
    assert (Hbig : 0 < maxAxis d) by lia.
    rewrite !Math_round_ratio by exact Hbig.
    assert (Hwb : width d <= maxAxis d) by (unfold maxAxis; lia).
    assert (Hhb : height d <= maxAxis d) by (unfold maxAxis; lia).
    pose proof (scaled_axis_bounds (width d) m (maxAxis d)
                  ltac:(lia) Hwb Hm Hlt) as [Hw1 [Hw2 _]].
    pose proof (scaled_axis_bounds (height d) m (maxAxis d)
                  ltac:(lia) Hhb Hm Hlt) as [Hh1 [Hh2 _]].
    split; [lia |]. split; [lia |].
    split; [intros E; apply Hw2 in E; lia |].
    split; [intros _ Hsmall; apply Hw2; exact Hsmall |].
    split; [intros E; apply Hh2 in E; lia |].
    intros _ Hsmall; apply Hh2; exact Hsmall.
Qed.

Lemma calculateResizeDimensions_never_enlarges_witness :
  ((0 < width landscape /\ 0 < height landscape /\ 0 < 1300) /\
   0 <= width (fst (calculateResizeDimensions landscape 1300)) <= width landscape) /\
  ((0 < 10000 /\ 0 < 1 /\ 0 < 100) /\
   (100 < maxAxis {| width := 10000; height := 1 |} /\
    2 * 1 * 100 < maxAxis {| width := 10000; height := 1 |}) /\
   height (fst (calculateResizeDimensions {| width := 10000; height := 1 |} 100)) = 0).
Proof.
  split.
  - split; [cbn; lia |].
    apply (calculateResizeDimensions_never_enlarges landscape 1300); cbn; lia.
  - split; [repeat split |]. split; [split; reflexivity |].
    apply (calculateResizeDimensions_never_enlarges
             {| width := 10000; height := 1 |} 100); reflexivity.
Defined.

(** X3. For positive axes and a positive bound, calculateResizeDimensions
    keeps the aspect ratio up to rounding: twice the absolute value of
    width' * height - height' * width is at most width + height. *)
Theorem calculateResizeDimensions_keeps_aspect (d : ImageDimensions) (m : Z) :
  0 < width d -> 0 < height d -> 0 < m ->
  let d' := fst (calculateResizeDimensions d m) in
  2 * Z.abs (width d' * height d - height d' * width d) <= width d + height d.
Proof.
  intros Hw Hh Hm d'. subst d'.
  destruct (Z.le_gt_cases (maxAxis d) m) as [Hle | Hlt].
  - rewrite (resize_small d m Hle). cbn [fst]. lia.
  - rewrite (resize_large d m Hlt). cbn [fst width height].
    assert (Hbig : 0 < maxAxis d) by lia.
    rewrite !Math_round_ratio by exact Hbig.
    assert (Hwb : width d <= maxAxis d) by (unfold maxAxis; lia).
    assert (Hhb : height d <= maxAxis d) by (unfold maxAxis; lia).
    pose proof (scaled_axis_bounds (width d) m (maxAxis d)
                  ltac:(lia) Hwb Hm Hlt) as [_ [_ Hw3]].
    pose proof (scaled_axis_bounds (height d) m (maxAxis d)
                  ltac:(lia) Hhb Hm Hlt) as [_ [_ Hh3]].
    set (w' := (2 * width d * m + maxAxis d) / (2 * maxAxis d)) in *.
    set (h' := (2 * height d * m + maxAxis d) / (2 * maxAxis d)) in *.
    set (big := maxAxis d) in *. set (w := width d) in *. set (h := height d) in *.
    clearbody w' h' big w h.
    assert (E : 2 * big * (w' * h - h' * w)
                = h * (2 * big * w' - 2 * w * m) - w * (2 * big * h' - 2 * h * m))
      by ring.
    assert (Hb : Z.abs (2 * big * (w' * h - h' * w)) <= big * (w + h)) by nia.
    rewrite Z.abs_mul in Hb. rewrite (Z.abs_eq (2 * big)) in Hb by lia. nia.
Qed.

Lemma calculateResizeDimensions_keeps_aspect_witness :
  (0 < width landscape /\ 0 < height landscape /\ 0 < 1300) /\
  2 * Z.abs (width (fst (calculateResizeDimensions landscape 1300)) * height landscape
             - height (fst (calculateResizeDimensions landscape 1300)) * width landscape)
  <= width landscape + height landscape.
Proof.
  split; [cbn; lia |].
  apply (calculateResizeDimensions_keeps_aspect landscape 1300); cbn; lia.
Defined.

(** X4. After an image has been resized to a positive bound m below its
    longer axis, calculateUpscaleFactor of the resized dimensions depends on
    m and the target only: it is 1 when the target is at most m and target /
    m otherwise. *)
Theorem upscale_factor_after_resize (d : ImageDimensions) (m target : Z) :
  0 < m -> m < maxAxis d ->
  calculateUpscaleFactor (fst (calculateResizeDimensions d m)) (Some target)
  = if m >=? target then 1%Q else (inject_Z target / inject_Z m)%Q.
Proof.
  intros Hm Hlt. unfold calculateUpscaleFactor.
  fold (maxAxis (fst (calculateResizeDimensions d m))).
  rewrite (resize_large_max d m Hm Hlt). reflexivity.
Qed.

Lemma upscale_factor_after_resize_witness :
  (0 < 1300 /\ 1300 < maxAxis landscape) /\
  calculateUpscaleFactor (fst (calculateResizeDimensions landscape 1300)) (Some 2560)
  = (inject_Z 2560 / inject_Z 1300)%Q.
Proof.
  assert (Hm : 0 < 1300) by lia.
  assert (Hlt : 1300 < maxAxis landscape) by reflexivity.
  split; [split; assumption |].
  exact (upscale_factor_after_resize landscape 1300 2560 Hm Hlt).
Defined.

(** ** Printing of sizes *)

Lemma log1024_small (n : N) : (0 < n < 1024)%N -> log1024 n = O.
Proof.
  intros [Hpos Hlt]. unfold log1024.
  assert (H : (N.log2 n < 10)%N).
  { apply N.log2_lt_pow2; [exact Hpos | exact Hlt]. }
  rewrite N.div_small by exact H. reflexivity.
Qed.

(** X5. For every size from 1 to 1023 bytes formatFileSize prints the number
    of bytes followed by '.0 B'. *)
Theorem formatFileSize_bytes (n : N) :
  (0 < n < 1024)%N ->
  formatFileSize n = string_of_Z (Z.of_N n) ++ lit ".0 B".
Proof.
  intros Hn. unfold formatFileSize.
  destruct (N.eqb_spec n 0) as [E | _]; [lia |].
  cbv zeta. rewrite (log1024_small n Hn).
  change (1024 ^ Z.of_nat 0) with 1. unfold toFixed1.
  rewrite ratio_nonneg by lia. unfold toFixed1_nonneg.
  assert (E : Qfloor (inject_Z (Z.of_N n) / inject_Z 1 * 10 + (1 # 2))
              = Z.of_N n * 10).
  { rewrite <- (Math_round_Z (Z.of_N n * 10)). unfold Math_round.
    apply Qfloor_comp. rewrite inject_Z_mult. change (inject_Z 10) with 10%Q.
    change (inject_Z 1) with 1%Q. field. }
  rewrite E. rewrite Z.div_mul by lia. rewrite Z.mod_mul by lia.
  cbn [nth sizes]. rewrite <- !app_assoc. reflexivity.
Qed.

Lemma formatFileSize_bytes_witness :
  (0 < 512 < 1024)%N /\ formatFileSize 512 = string_of_Z (Z.of_N 512) ++ lit ".0 B".
Proof.
  assert (H : (0 < 512 < 1024)%N) by lia.
  split; [exact H |]. exact (formatFileSize_bytes 512 H).
Defined.

Lemma log1024_unit (n : N) :
  (0 < n)%N ->
  ((n < 1024 ^ 4)%N -> In (nth (log1024 n) sizes (lit "undefined")) sizes) /\
  ((1024 ^ 4 <= n)%N -> nth (log1024 n) sizes (lit "undefined") = lit "undefined").
Proof.
  intros Hn. pose proof (log1024_bounds n Hn) as [Hlo Hhi].
  set (i := log1024 n) in *. clearbody i. split; intros H.
  - assert (Hi : (i < 4)%nat).
    { apply Nat2Z.inj_lt. apply (Z.pow_lt_mono_r_iff 1024); [lia | lia |].
      change (1024 ^ Z.of_nat 4) with (Z.of_N (1024 ^ 4)). lia. }
    destruct i as [| [| [| [| i]]]]; [| | | | lia]; cbn; auto.
  - assert (Hi : (4 <= i)%nat).
    { apply Nat2Z.inj_le. apply Z.lt_succ_r.
      apply (Z.pow_lt_mono_r_iff 1024); [lia | lia |].
      change (1024 ^ Z.of_nat 4) with (Z.of_N (1024 ^ 4)).
      unfold Z.succ. lia. }
    do 4 (destruct i as [| i]; [lia |]). cbn. destruct i; reflexivity.
Qed.

(** X6. For every positive size formatFileSize prints a number with one
    decimal between 1.0 and 1024.0, a space and a unit; the unit is one of
    B, KB, MB, GB for sizes below 1024^4 bytes and the text 'undefined' from
    1 TiB on, where the table of units has no entry. *)
Theorem formatFileSize_mantissa (n : N) :
  (0 < n)%N ->
  exists (t : Z) (unit : jsstring),
    10 <= t <= 10240 /\
    formatFileSize n
    = string_of_Z (t / 10) ++ lit "." ++ string_of_Z (t mod 10) ++ lit " " ++ unit /\
    ((n < 1024 ^ 4)%N -> In unit sizes) /\
    ((1024 ^ 4 <= n)%N -> unit = lit "undefined").
Proof.
  intros Hn. pose proof (log1024_bounds n Hn) as [Hlo Hhi].
  pose proof (log1024_unit n Hn) as [Hsmall Hlarge].
  set (i := log1024 n) in *.
  set (P := 1024 ^ Z.of_nat i) in *.
  assert (HP : 0 < P) by (apply Z.pow_pos_nonneg; lia).
  assert (Hhi' : Z.of_N n < 1024 * P).
  { unfold P. rewrite Z.pow_add_r in Hhi by lia. lia. }
  exists ((2 * Z.of_N n * 10 + P) / (2 * P)), (nth i sizes (lit "undefined")).
  split; [| split; [| split; assumption]].
  - split.
    + apply Z.div_le_lower_bound; lia.
    + apply Z.lt_succ_r. apply Z.div_lt_upper_bound; lia.
  - unfold formatFileSize.
    destruct (N.eqb_spec n 0) as [E | _]; [lia |].
    cbv zeta. fold i. fold P. unfold toFixed1.
    rewrite ratio_nonneg by exact HP. unfold toFixed1_nonneg.
    assert (E : Qfloor (inject_Z (Z.of_N n) / inject_Z P * 10 + (1 # 2))
                = (2 * Z.of_N n * 10 + P) / (2 * P)).
    { rewrite <- (Math_round_ratio (Z.of_N n) 10 P HP). unfold Math_round.
      apply Qfloor_comp. change (inject_Z 10) with 10%Q. field.
      apply big_nonzero. exact HP. }
    rewrite E. rewrite <- !app_assoc. reflexivity.
Qed.

Lemma formatFileSize_mantissa_witness :
  (0 < 1048575)%N /\
  exists (t : Z) (unit : jsstring),
    10 <= t <= 10240 /\
    formatFileSize 1048575
    = string_of_Z (t / 10) ++ lit "." ++ string_of_Z (t mod 10) ++ lit " " ++ unit /\
    ((1048575 < 1024 ^ 4)%N -> In unit sizes) /\
    ((1024 ^ 4 <= 1048575)%N -> unit = lit "undefined").
Proof.
  assert (H : (0 < 1048575)%N) by lia.
  split; [exact H |]. exact (formatFileSize_mantissa 1048575 H).
Defined.

Example formatFileSize_rounds_up_to_1024 :
  formatFileSize 1048575 = lit "1024.0 KB".
Proof. vm_compute. reflexivity. Qed.

(** ** Sanitized names *)

Lemma digits_nameChars (d : Decimal.uint) :
  nameChars (lit (NilEmpty.string_of_uint d)).
Proof.
  unfold nameChars, lit.
  induction d; cbn; constructor; try reflexivity; assumption.
Qed.

Lemma string_of_Z_nameChars (n : Z) : nameChars (string_of_Z n).
Proof.
  unfold string_of_Z.
  assert (H : forall d, nameChars (lit (NilZero.string_of_uint d))).
  { intros d. destruct d; try apply digits_nameChars.
    cbn. constructor; [reflexivity | constructor]. }
  destruct (Z.to_int n) as [d | d]; cbn [NilZero.string_of_int].
  - apply H.
  - unfold lit. cbn. constructor; [reflexivity | apply H].
Qed.

Lemma string_of_Z_nonempty (n : Z) : string_of_Z n <> [].
Proof.
  unfold string_of_Z.
  destruct (Z.to_int n) as [d | d]; cbn [NilZero.string_of_int].
  - destruct d; cbn; discriminate.
  - cbn. discriminate.
Qed.

Lemma nameChars_app (s t : jsstring) : nameChars s -> nameChars t -> nameChars (s ++ t).
Proof. intros Hs Ht. apply Forall_app. split; assumption. Qed.

Lemma sanitized_nameChars (s : jsstring) : nameChars (sanitized s).
Proof.
  unfold nameChars, sanitized. apply Forall_take.
  apply Forall_forall. intros c Hc.
  apply list_elem_of_In in Hc. apply filter_In in Hc. tauto.
Qed.

Lemma sanitized_length (s : jsstring) : (List.length (sanitized s) <= 50)%nat.
Proof. unfold sanitized. rewrite length_firstn. lia. Qed.

Lemma sanitizeFileName_chars (now : Z) (filename : jsstring) :
  sanitizeFileName now filename <> [] /\
  nameChars (sanitizeFileName now filename) /\
  (sanitized filename <> [] ->
   (List.length (sanitizeFileName now filename) <= 50)%nat).
Proof.
  unfold sanitizeFileName.
  destruct (sanitized filename) as [| c rest] eqn:E; cbn [truthy_str].
  - split; [| split].
    + cbn. discriminate.
    + apply nameChars_app; [| apply string_of_Z_nameChars].
      unfold nameChars, lit. cbn. repeat constructor.
    + congruence.
  - split; [discriminate |]. split.
    + rewrite <- E. apply sanitized_nameChars.
    + intros _. rewrite <- E. apply sanitized_length.
Qed.

(** X7. For every file name and clock value sanitizeFileName returns a non-
    empty string of ASCII letters, digits, underscores and hyphens only, of
    at most 50 characters unless it is the fallback 'image_<timestamp>'. *)
Theorem sanitizeFileName_safe (now : Z) (filename : jsstring) :
  sanitizeFileName now filename <> [] /\
  nameChars (sanitizeFileName now filename) /\
  (sanitized filename <> [] ->
   (List.length (sanitizeFileName now filename) <= 50)%nat).
Proof. apply sanitizeFileName_chars. Qed.

Lemma nameChar_not_space (c : N) : isNameChar c = true -> isSpace c = false.
Proof.
  unfold isNameChar, isSpace, underscore, hyphen. intros H.
  rewrite !orb_true_iff, !andb_true_iff, !N.leb_le, !N.eqb_eq in H.
  apply not_true_is_false. intros E.
  rewrite !orb_true_iff, !andb_true_iff, !N.leb_le, !N.eqb_eq in E. lia.
Qed.

Lemma nameChar_not_dot (c : N) : isNameChar c = true -> N.eqb c dot = false.
Proof.
  unfold isNameChar, dot, underscore, hyphen. intros H.
  rewrite !orb_true_iff, !andb_true_iff, !N.leb_le, !N.eqb_eq in H.
  apply N.eqb_neq. lia.
Qed.

Lemma stripExtension_nameChars (s : jsstring) : nameChars s -> stripExtension s = s.
Proof.
  unfold nameChars. induction 1 as [| c rest Hc _ IH]; cbn; [reflexivity |].
  rewrite (nameChar_not_dot c Hc). cbn. rewrite IH. reflexivity.
Qed.

Lemma collapseSpaces_nameChars (s : jsstring) :
  nameChars s -> forall inRun, collapseSpaces inRun s = s.
Proof.
  unfold nameChars. induction 1 as [| c rest Hc _ IH]; intros inRun; cbn;
    [reflexivity |].
  rewrite (nameChar_not_space c Hc), IH. reflexivity.
Qed.

Lemma filter_nameChars (s : jsstring) : nameChars s -> List.filter isNameChar s = s.
Proof.
  unfold nameChars. induction 1 as [| c rest Hc _ IH]; cbn; [reflexivity |].
  rewrite Hc, IH. reflexivity.
Qed.

Lemma sanitized_of_nameChars (s : jsstring) :
  nameChars s -> sanitized s = firstn 50 s.
Proof.
  intros H. unfold sanitized.
  rewrite (stripExtension_nameChars s H), (collapseSpaces_nameChars s H),
    (filter_nameChars s H).
  reflexivity.
Qed.

(** X8. sanitizeFileName is idempotent on its own results: sanitizing a
    result removes nothing but what exceeds 50 characters, and whenever the
    first result is not the timestamp fallback a second call returns it
    unchanged, whatever the clock. *)
Theorem sanitizeFileName_idempotent (now now' : Z) (filename : jsstring) :
  sanitized (sanitizeFileName now filename)
  = firstn 50 (sanitizeFileName now filename) /\
  (sanitized filename <> [] ->
   sanitizeFileName now' (sanitizeFileName now filename)
   = sanitizeFileName now filename).
Proof.
  destruct (sanitizeFileName_chars now filename) as [Hne [Hchars Hlen]].
  split; [apply sanitized_of_nameChars; exact Hchars |].
  intros Hkept. specialize (Hlen Hkept).
  unfold sanitizeFileName at 1.
  rewrite (sanitized_of_nameChars _ Hchars), firstn_all2 by exact Hlen.
  rewrite (truthy_str_nonempty _ Hne). reflexivity.
Qed.

Lemma sanitizeFileName_idempotent_witness :
  sanitized (lit "My Photo!!.png") <> [] /\
  sanitizeFileName 2 (sanitizeFileName 1 (lit "My Photo!!.png"))
  = sanitizeFileName 1 (lit "My Photo!!.png").
Proof.
  assert (H : sanitized (lit "My Photo!!.png") <> [])
    by (vm_compute; discriminate).
  split; [exact H |].
  exact (proj2 (sanitizeFileName_idempotent 1 2 (lit "My Photo!!.png")) H).
Defined.

(** X9. For every original name, prefix, index and clock value
    generateProcessedFileName returns a non-empty string of ASCII letters,
    digits, underscores and hyphens only, so the name has no path separator,
    dot or space. *)
Theorem generateProcessedFileName_safe (now : Z) (originalName : jsstring)
    (prefix : option jsstring) (index : option Z) :
  generateProcessedFileName now originalName prefix index <> [] /\
  nameChars (generateProcessedFileName now originalName prefix index).
Proof.
  assert (Himage : forall i, nameChars (lit "image_" ++ string_of_Z (i + 1))).
  { intros i. apply nameChars_app; [| apply string_of_Z_nameChars].
    unfold nameChars, lit. cbn. repeat constructor. }
  assert (Hprefixed : forall p i,
            nameChars (sanitizeFileName now p ++ lit "_" ++ string_of_Z (i + 1))).
  { intros p i. apply nameChars_app; [apply sanitizeFileName_chars |].
    apply nameChars_app; [| apply string_of_Z_nameChars].
    unfold nameChars, lit. cbn. repeat constructor. }
  unfold generateProcessedFileName.
  destruct prefix as [p |], index as [i |].
  - destruct (truthy_str p).
    + split; [| apply Hprefixed].
      destruct (sanitizeFileName_chars now p) as [Hne _].
      destruct (sanitizeFileName now p); [congruence | discriminate].
    + split; [cbn; discriminate | apply Himage].
  - split; apply sanitizeFileName_chars.
  - split; [cbn; discriminate | apply Himage].
  - split; apply sanitizeFileName_chars.
Qed.

(** X10. The first replace of sanitizeFileName removes exactly the last
    extension: for a non-empty extension without dot or slash, base.ext
    becomes base. A name that is only an extension, such as '.png', is
    therefore emptied and sanitizeFileName returns the fallback
    'image_<timestamp>'. *)
Theorem stripExtension_last_extension (base ext : jsstring) :
  ext <> [] -> forallb isExtChar ext = true ->
  stripExtension (base ++ dot :: ext) = base /\
  forall now, sanitizeFileName now (dot :: ext) = lit "image_" ++ string_of_Z now.
Proof.
  intros Hne Hext.
  assert (Hstrip : forall b, stripExtension (b ++ dot :: ext) = b).
  { induction b as [| c rest IH]; cbn.
    - rewrite (truthy_str_nonempty _ Hne), Hext. reflexivity.
    - rewrite IH.
      destruct (N.eqb c dot && truthy_str (rest ++ dot :: ext)
                && forallb isExtChar (rest ++ dot :: ext)) eqn:E; [| reflexivity].
      rewrite !andb_true_iff in E. destruct E as [_ E].
      rewrite forallb_app in E. cbn in E. rewrite andb_true_iff in E.
      destruct E as [_ E]. discriminate E. }
  split; [apply Hstrip |].
  intros now. unfold sanitizeFileName, sanitized.
  pose proof (Hstrip []) as H0. cbn [app] in H0. rewrite H0. reflexivity.
Qed.

Lemma stripExtension_last_extension_witness :
  (lit "gz" <> [] /\ forallb isExtChar (lit "gz") = true) /\
  stripExtension (lit "a.tar" ++ dot :: lit "gz") = lit "a.tar".
Proof.
  assert (Hne : lit "gz" <> []) by discriminate.
  assert (Hext : forallb isExtChar (lit "gz") = true) by reflexivity.
  split; [split; assumption |].
  exact (proj1 (stripExtension_last_extension (lit "a.tar") (lit "gz") Hne Hext)).
Defined.

(** ** The process-image route *)

Lemma process_route_cases (env : ProcessImage.Env) (file : option File)
    (settings : Outcome ProcessImage.Settings) :
  let response := snd (ProcessImage.POST env file settings) in
  (status response = 500 /\
   body response = ProcessImage.Failure (lit "Internal server error")) \/
  (status response = 400 /\
   (body response = ProcessImage.Failure (lit "No file provided") /\ file = None
    \/ (exists f, file = Some f /\ (ProcessImage.MAX_FILE_SIZE < file_size f)%N /\
                  body response
                  = ProcessImage.Failure
                      (lit "File too large: "
                       ++ toFixed1 (inject_Z (Z.of_N (file_size f)) / 1024 / 1024)
                       ++ lit "MB (max: 50MB)"))
    \/ (exists f, file = Some f /\ (file_size f <= ProcessImage.MAX_FILE_SIZE)%N /\
                  body response = ProcessImage.Failure (lit "Invalid image file")))) \/
  (status response = 200 /\
   exists f s r,
     file = Some f /\ settings = Returned s /\
     (file_size f <= ProcessImage.MAX_FILE_SIZE)%N /\
     body response = ProcessImage.Processed r /\
     ProcessImage.success r = true /\
     ProcessImage.processedName r = ProcessImage.fileName s /\
     width (ProcessImage.originalSize r) <> 0 /\
     height (ProcessImage.originalSize r) <> 0 /\
     ProcessImage.metadata env (file_bytes f)
     = Returned (width (ProcessImage.originalSize r),
                 height (ProcessImage.originalSize r))).
Proof.
  cbv zeta. unfold ProcessImage.POST, ProcessImage.internalError,
    ProcessImage.badRequest.
  repeat break_match; cbn [snd status body];
    try (left; split; reflexivity).
  all: try (right; left; split; [reflexivity |]).
  all: try (right; right; split; [reflexivity |]).
  all: subst.
  all: try (left; split; reflexivity).
  all: try (right; left; eexists; split; [reflexivity |];
            split; [apply N.ltb_lt; assumption | reflexivity]).
  all: try (right; right; eexists; split; [reflexivity |];
            split; [apply N.ltb_ge; assumption | reflexivity]).
  all: eexists _, _, _; split; [reflexivity |]; split; [reflexivity |];
    split; [apply N.ltb_ge; assumption |]; split; [reflexivity |];
    cbn [ProcessImage.success ProcessImage.processedName ProcessImage.originalSize
         width height];
    match goal with
    | H : (_ =? 0) || (_ =? 0) = false |- _ =>
        apply orb_false_iff in H; destruct H as [H1 H2];
        apply Z.eqb_neq in H1; apply Z.eqb_neq in H2
    end;
    repeat split; assumption.
Qed.

(** X11. The process-image route answers in one of three ways: 500 with
    'Internal server error'; 400 with 'No file provided' (no file), 'File
    too large: <MB>MB (max: 50MB)' (a file over 50 MiB) or 'Invalid image
    file' (a file within the limit); or 200 with success true, the requested
    file name and the non-zero width and height the decoder reported. *)
Theorem process_route_responses (env : ProcessImage.Env) (file : option File)
    (settings : Outcome ProcessImage.Settings) :
  let response := snd (ProcessImage.POST env file settings) in
  (status response = 500 /\
   body response = ProcessImage.Failure (lit "Internal server error")) \/
  (status response = 400 /\
   (body response = ProcessImage.Failure (lit "No file provided") /\ file = None
    \/ (exists f, file = Some f /\ (ProcessImage.MAX_FILE_SIZE < file_size f)%N /\
                  body response
                  = ProcessImage.Failure
                      (lit "File too large: "
                       ++ toFixed1 (inject_Z (Z.of_N (file_size f)) / 1024 / 1024)
                       ++ lit "MB (max: 50MB)"))
    \/ (exists f, file = Some f /\ (file_size f <= ProcessImage.MAX_FILE_SIZE)%N /\
                  body response = ProcessImage.Failure (lit "Invalid image file")))) \/
  (status response = 200 /\
   exists f s r,
     file = Some f /\ settings = Returned s /\
     (file_size f <= ProcessImage.MAX_FILE_SIZE)%N /\
     body response = ProcessImage.Processed r /\
     ProcessImage.success r = true /\
     ProcessImage.processedName r = ProcessImage.fileName s /\
     width (ProcessImage.originalSize r) <> 0 /\
     height (ProcessImage.originalSize r) <> 0 /\
     ProcessImage.metadata env (file_bytes f)
     = Returned (width (ProcessImage.originalSize r),
                 height (ProcessImage.originalSize r))).
Proof. apply process_route_cases. Qed.

Lemma validated_size (file : File) :
  valid (validateImageFile file) = true -> (file_size file <= maxSize)%N.
Proof.
  unfold validateImageFile.
  destruct (negb _); [discriminate |].
  destruct (N.ltb_spec maxSize (file_size file)); [discriminate |].
  intros _. assumption.
Qed.

(** X12. A file that validateImageFile accepts is never rejected by the
    process-image route for its size: if the route answers 400 for it, the
    error is 'Invalid image file'. *)
Theorem validated_file_passes_size_check (env : ProcessImage.Env) (file : File)
    (settings : Outcome ProcessImage.Settings) :
  valid (validateImageFile file) = true ->
  status (snd (ProcessImage.POST env (Some file) settings)) = 400 ->
  body (snd (ProcessImage.POST env (Some file) settings))
  = ProcessImage.Failure (lit "Invalid image file").
Proof.
  intros Hvalid Hstatus. apply validated_size in Hvalid.
  change maxSize with ProcessImage.MAX_FILE_SIZE in Hvalid.
  destruct (process_route_cases env (Some file) settings)
    as [[H5 _] | [[_ H4] | [H2 _]]]; cbv zeta in *; [congruence | | congruence].
  destruct H4 as [[_ Hnone] | [[f [Hf [Hbig _]]] | [f [_ [_ Hbody]]]]].
  - discriminate Hnone.
  - injection Hf as <-. lia.
  - exact Hbody.
Qed.

Lemma validated_file_passes_size_check_witness :
  (valid (validateImageFile brokenFile) = true /\
   status (snd (ProcessImage.POST blankProcessEnv (Some brokenFile)
                  (Returned sampleRouteSettings))) = 400) /\
  body (snd (ProcessImage.POST blankProcessEnv (Some brokenFile)
               (Returned sampleRouteSettings)))
  = ProcessImage.Failure (lit "Invalid image file").
Proof.
  assert (H : valid (validateImageFile brokenFile) = true) by reflexivity.
  assert (H4 : status (snd (ProcessImage.POST blankProcessEnv (Some brokenFile)
                              (Returned sampleRouteSettings))) = 400)
    by reflexivity.
  split; [split; assumption |].
  exact (validated_file_passes_size_check blankProcessEnv brokenFile _ H H4).
Defined.

Lemma route_resize_agrees (env : ProcessImage.Env) (file : option File)
    (settings : ProcessImage.Settings) (r : ProcessImage.Result) :
  body (snd (ProcessImage.POST env file (Returned settings)))
  = ProcessImage.Processed r ->
  let resized :=
    calculateResizeDimensions (ProcessImage.originalSize r)
      (default 1300 (ProcessImage.maxDimension settings)) in
  ProcessImage.wasResized r = snd resized /\
  (ProcessImage.wasUpscaled r = false -> ProcessImage.finalSize r = fst resized).
Proof.
  unfold ProcessImage.POST, ProcessImage.internalError, ProcessImage.badRequest,
    calculateResizeDimensions.
  repeat break_match; cbn [snd body]; intros E; try discriminate;
    injection E as <-;
    cbn [ProcessImage.wasResized ProcessImage.wasUpscaled ProcessImage.finalSize
         ProcessImage.originalSize width height fst snd] in *;
    repeat match goal with
           | H : (_, _) = (_, _) |- _ => injection H as <- <-
           end;
    try (split; [reflexivity | intros; first [reflexivity | discriminate]]);
    exfalso;
    repeat match goal with
           | H : (_ <? _) = _ |- _ => first [apply Z.ltb_lt in H | apply Z.ltb_ge in H]
           | H : (_ <=? _) = _ |- _ => first [apply Z.leb_le in H | apply Z.leb_gt in H]
           end;
    lia.
Qed.

(** X13. On success the process-image route's resize step agrees with
    calculateResizeDimensions: wasResized is the utility's flag for the
    original size and the bound (1300 by default), and when the image was
    not upscaled finalSize is the utility's dimensions. *)
Theorem process_route_resize (env : ProcessImage.Env) (file : option File)
    (settings : ProcessImage.Settings) (r : ProcessImage.Result) :
  body (snd (ProcessImage.POST env file (Returned settings)))
  = ProcessImage.Processed r ->
  let resized :=
    calculateResizeDimensions (ProcessImage.originalSize r)
      (default 1300 (ProcessImage.maxDimension settings)) in
  ProcessImage.wasResized r = snd resized /\
  (ProcessImage.wasUpscaled r = false -> ProcessImage.finalSize r = fst resized).
Proof. apply route_resize_agrees. Qed.

(** X14. For a positive bound, a result of the process-image route that was
    not upscaled has a longer axis of at most the bound (1300 by default),
    and of exactly the bound when the image was resized. *)
Theorem process_route_bounded (env : ProcessImage.Env) (file : option File)
    (settings : ProcessImage.Settings) (r : ProcessImage.Result) :
  body (snd (ProcessImage.POST env file (Returned settings)))
  = ProcessImage.Processed r ->
  0 < default 1300 (ProcessImage.maxDimension settings) ->
  ProcessImage.wasUpscaled r = false ->
  maxAxis (ProcessImage.finalSize r)
  <= default 1300 (ProcessImage.maxDimension settings) /\
  (ProcessImage.wasResized r = true ->
   maxAxis (ProcessImage.finalSize r)
   = default 1300 (ProcessImage.maxDimension settings)).
Proof.
  intros Hbody Hpos Hup.
  destruct (route_resize_agrees env file settings r Hbody) as [Hres Hfinal].
  specialize (Hfinal Hup). rewrite Hfinal, Hres.
  set (m := default 1300 (ProcessImage.maxDimension settings)) in *.
  destruct (Z.le_gt_cases (maxAxis (ProcessImage.originalSize r)) m) as [Hle | Hlt].
  - rewrite (resize_small _ m Hle). cbn [fst snd].
    split; [exact Hle | discriminate].
  - rewrite (resize_large_max _ m Hpos Hlt). split; [lia | reflexivity].
Qed.

Lemma process_route_resize_witness :
  exists r,
    body (snd (ProcessImage.POST sampleProcessEnv (Some (pngFile "a.png"))
                 (Returned sampleRouteSettings)))
    = ProcessImage.Processed r /\
    ProcessImage.wasResized r
    = snd (calculateResizeDimensions (ProcessImage.originalSize r)
             (default 1300 (ProcessImage.maxDimension sampleRouteSettings))).
Proof.
  destruct (body (snd (ProcessImage.POST sampleProcessEnv (Some (pngFile "a.png"))
                         (Returned sampleRouteSettings))))
    as [e | r] eqn:Hbody; [vm_compute in Hbody; discriminate Hbody |].
  exists r. split; [reflexivity |].
  exact (proj1 (process_route_resize sampleProcessEnv _ sampleRouteSettings r Hbody)).
Defined.

Lemma process_route_bounded_witness :
  exists r,
    (body (snd (ProcessImage.POST sampleProcessEnv (Some (pngFile "a.png"))
                  (Returned sampleRouteSettings)))
     = ProcessImage.Processed r /\
     0 < default 1300 (ProcessImage.maxDimension sampleRouteSettings) /\
     ProcessImage.wasUpscaled r = false) /\
    maxAxis (ProcessImage.finalSize r)
    <= default 1300 (ProcessImage.maxDimension sampleRouteSettings).
Proof.
  destruct (body (snd (ProcessImage.POST sampleProcessEnv (Some (pngFile "a.png"))
                         (Returned sampleRouteSettings))))
    as [e | r] eqn:Hbody; [vm_compute in Hbody; discriminate Hbody |].
  assert (Hpos : 0 < default 1300 (ProcessImage.maxDimension sampleRouteSettings))
    by reflexivity.
  assert (Hup : ProcessImage.wasUpscaled r = false).
  { vm_compute in Hbody. injection Hbody as <-. reflexivity. }
  exists r. split; [split; [reflexivity | split; assumption] |].
  exact (proj1 (process_route_bounded sampleProcessEnv _ sampleRouteSettings r
                  Hbody Hpos Hup)).
Defined.

(** ** Requests to the provider *)

Lemma clamped_scale_bounds (f : Q) :
  Qle_bool f 1 = false -> (1 < Math_min f 4)%Q /\ (Math_min f 4 <= 4)%Q.
Proof.
  intros H. assert (Hf : (1 < f)%Q).
  { apply Qnot_le_lt. intros Hle. apply Qle_bool_iff in Hle. congruence. }
  unfold Math_min. split.
  - apply Q.min_glb_lt; [exact Hf | reflexivity].
  - apply Q.le_min_r.
Qed.

Lemma replicate_request_cases (env : ProcessImage.Env) (fileName : jsstring)
    (currentSize : ImageDimensions) (targetSize : Z) :
  let run := ProcessImage.upscaleWithReplicate env fileName currentSize targetSize in
  let f := (inject_Z targetSize / inject_Z (maxAxis currentSize))%Q in
  (fst run = [] \/
   exists image,
     fst run = [{| req_image := image; req_scale := Math_min f 4;
                   req_face_enhance := false |}] /\
     ProcessImage.encoded env = Returned image /\
     truthy_str (default [] (ProcessImage.apiToken env)) = true /\
     Qle_bool f 1 = false) /\
  (forall m, snd run = Threw m <->
             truthy_str (default [] (ProcessImage.apiToken env)) = false /\
             m = lit "REPLICATE_API_TOKEN not configured").
Proof.
  cbv zeta. unfold ProcessImage.upscaleWithReplicate, maxAxis.
  destruct (truthy_str (default [] (ProcessImage.apiToken env))) eqn:Htoken;
    cbn [negb].
  - destruct (Qle_bool _ 1) eqn:Hle.
    + split; [left; reflexivity |]. intros m. cbn [snd].
      split; [discriminate | intros [H _]; discriminate H].
    + destruct (ProcessImage.encoded env) as [image | e] eqn:Henc.
      * split.
        -- right. exists image. repeat split; reflexivity.
        -- intros m. cbn [snd]. split; [discriminate | intros [H _]; discriminate H].
      * split; [left; reflexivity |]. intros m. cbn [snd].
        split; [discriminate | intros [H _]; discriminate H].
  - split; [left; reflexivity |]. intros m. cbn [snd]. split.
    + intros E. injection E as <-. split; reflexivity.
    + intros [_ ->]. reflexivity.
Qed.

(** X15. upscaleWithReplicate throws in one case only: when the API token is
    missing or empty, and then with the message 'REPLICATE_API_TOKEN not
    configured'; in every other case it returns a result. *)
Theorem upscaleWithReplicate_throws_without_token (env : ProcessImage.Env)
    (fileName : jsstring) (currentSize : ImageDimensions) (targetSize : Z) (m : jsstring) :
  snd (ProcessImage.upscaleWithReplicate env fileName currentSize targetSize) = Threw m
  <-> truthy_str (default [] (ProcessImage.apiToken env)) = false /\
      m = lit "REPLICATE_API_TOKEN not configured".
Proof. apply replicate_request_cases. Qed.

Lemma upscale_request_cases (env : UpscaleImage.Env) (req : UpscaleImage.Request) :
  let run := UpscaleImage.POST env (Returned req) in
  let f := (inject_Z (UpscaleImage.targetSize req)
            / inject_Z (maxAxis (UpscaleImage.currentSize req)))%Q in
  (fst run = [] /\
   (exists e, body (snd run) = UpscaleImage.Failure e) /\
   (truthy_str (default [] (UpscaleImage.apiToken env)) = false /\ status (snd run) = 200
    \/ truthy_str (default [] (UpscaleImage.apiToken env)) = true /\
       Qle_bool f 1 = true /\ status (snd run) = 200
    \/ truthy_str (default [] (UpscaleImage.apiToken env)) = true /\
       Qle_bool f 1 = false /\ status (snd run) = 500 /\
       (forall statusText image,
          UpscaleImage.fetchImage env (UpscaleImage.imageUrl req)
          <> Returned (true, statusText, image))))
  \/
  (exists statusText image,
     let submitted := {| req_image := image; req_scale := Math_min f 4;
                         req_face_enhance := false |} in
     fst run = [submitted] /\
     truthy_str (default [] (UpscaleImage.apiToken env)) = true /\
     Qle_bool f 1 = false /\
     UpscaleImage.fetchImage env (UpscaleImage.imageUrl req)
     = Returned (true, statusText, image) /\
     match UpscaleImage.predict env submitted with
     | Threw m => snd run = UpscaleImage.respond 500 (UpscaleImage.Failure m)
     | Returned (code, output) =>
         snd run = UpscaleImage.interpret env req f code output
     end).
Proof.
  cbv zeta. unfold UpscaleImage.POST, maxAxis.
  destruct (truthy_str (default [] (UpscaleImage.apiToken env))) eqn:Htoken;
    cbn [negb].
  - destruct (Qle_bool _ 1) eqn:Hle.
    + left. split; [reflexivity |]. split; [eexists; reflexivity |].
      right. left. repeat split.
    + destruct (UpscaleImage.fetchImage env (UpscaleImage.imageUrl req))
        as [[[okay statusText] image] | e] eqn:Hfetch.
      * destruct okay; cbn [negb].
        -- right. exists statusText, image. cbv zeta.
           repeat split. cbn [snd].
           destruct (UpscaleImage.predict env _) as [[code output] | m]; reflexivity.
        -- left. split; [reflexivity |]. split; [eexists; reflexivity |].
           right. right. repeat split. intros st im. discriminate.
      * left. split; [reflexivity |]. split; [eexists; reflexivity |].
        right. right. repeat split. intros st im. discriminate.
  - left. split; [reflexivity |]. split; [eexists; reflexivity |].
    left. split; reflexivity.
Qed.

Lemma interpret_status (env : UpscaleImage.Env) (req : UpscaleImage.Request)
    (f : Q) (code : Z) (output : Json) :
  status (UpscaleImage.interpret env req f code output) = 200.
Proof.
  unfold UpscaleImage.interpret, UpscaleImage.respond.
  repeat break_match; reflexivity.
Qed.

(** X16. For images whose longer axis is not zero, the upscale-image route
    and upscaleWithReplicate each send at most one request to the provider
    per call, always with a scale above 1 and at most 4 and with
    face_enhance false; a request body that cannot be parsed sends none. *)
Theorem provider_requests_bounded
    (routeEnv : UpscaleImage.Env) (req : UpscaleImage.Request)
    (env : ProcessImage.Env) (fileName : jsstring)
    (currentSize : ImageDimensions) (targetSize : Z) :
  maxAxis (UpscaleImage.currentSize req) <> 0 ->
  maxAxis currentSize <> 0 ->
  (let requests := fst (UpscaleImage.POST routeEnv (Returned req)) in
   (List.length requests <= 1)%nat /\
   forall r, In r requests ->
     (1 < req_scale r)%Q /\ (req_scale r <= 4)%Q /\ req_face_enhance r = false) /\
  (forall m, fst (UpscaleImage.POST routeEnv (Threw m)) = []) /\
  (let requests :=
     fst (ProcessImage.upscaleWithReplicate env fileName currentSize targetSize) in
   (List.length requests <= 1)%nat /\
   forall r, In r requests ->
     (1 < req_scale r)%Q /\ (req_scale r <= 4)%Q /\ req_face_enhance r = false).
Proof.
  intros _ _. split; [| split].
  - destruct (upscale_request_cases routeEnv req)
      as [[Hnone _] | [st [image [Hone [_ [Hf _]]]]]]; cbv zeta in *.
    + rewrite Hnone. cbn. split; [lia | intros r []].
    + rewrite Hone. cbn. split; [lia |].
      intros r [<- | []]. cbn [req_scale req_face_enhance].
      destruct (clamped_scale_bounds _ Hf). repeat split; assumption.
  - intros m. reflexivity.
  - destruct (replicate_request_cases env fileName currentSize targetSize)
      as [[Hnone | [image [Hone [_ [_ Hf]]]]] _]; cbv zeta in *.
    + rewrite Hnone. cbn. split; [lia | intros r []].
    + rewrite Hone. cbn. split; [lia |].
      intros r [<- | []]. cbn [req_scale req_face_enhance].
      destruct (clamped_scale_bounds _ Hf). repeat split; assumption.
Qed.

Lemma provider_requests_bounded_witness :
  (maxAxis (UpscaleImage.currentSize sampleRequest) <> 0 /\
   maxAxis {| width := 800; height := 600 |} <> 0) /\
  (fst (UpscaleImage.POST (sampleUpscaleEnv succeededOutput) (Returned sampleRequest))
   = [{| req_image := pngBytes; req_scale := 4; req_face_enhance := false |}] /\
   forall r,
     In r (fst (UpscaleImage.POST (sampleUpscaleEnv succeededOutput)
                  (Returned sampleRequest))) ->
     (1 < req_scale r)%Q /\ (req_scale r <= 4)%Q /\ req_face_enhance r = false) /\
  (fst (ProcessImage.upscaleWithReplicate sampleReplicateEnv (lit "image_1")
          {| width := 800; height := 600 |} 4000)
   = [{| req_image := pngBytes; req_scale := 4; req_face_enhance := false |}] /\
   forall r,
     In r (fst (ProcessImage.upscaleWithReplicate sampleReplicateEnv (lit "image_1")
                  {| width := 800; height := 600 |} 4000)) ->
     (1 < req_scale r)%Q /\ (req_scale r <= 4)%Q /\ req_face_enhance r = false).
Proof.
  assert (H1 : maxAxis (UpscaleImage.currentSize sampleRequest) <> 0)
    by (vm_compute; discriminate).
  assert (H2 : maxAxis {| width := 800; height := 600 |} <> 0)
    by (vm_compute; discriminate).
  destruct (provider_requests_bounded (sampleUpscaleEnv succeededOutput) sampleRequest
              sampleReplicateEnv (lit "image_1") {| width := 800; height := 600 |} 4000
              H1 H2)
    as [[_ Hroute] [_ [_ Hreplicate]]].
  split; [split; [exact H1 | exact H2] |].
  split; (split; [vm_compute; reflexivity | assumption]).
Defined.

(** X17. For an image whose longer axis is not zero, the upscale-image route
    sends a request to the provider if and only if the API token is set and
    non-empty, targetSize / longer axis exceeds 1, and fetching the image
    URL returned an OK response. *)
Theorem upscale_route_submits_iff (env : UpscaleImage.Env)
    (req : UpscaleImage.Request) :
  maxAxis (UpscaleImage.currentSize req) <> 0 ->
  let f := (inject_Z (UpscaleImage.targetSize req)
            / inject_Z (maxAxis (UpscaleImage.currentSize req)))%Q in
  fst (UpscaleImage.POST env (Returned req)) <> [] <->
  truthy_str (default [] (UpscaleImage.apiToken env)) = true /\
  (1 < f)%Q /\
  exists statusText image,
    UpscaleImage.fetchImage env (UpscaleImage.imageUrl req)
    = Returned (true, statusText, image).
Proof.
  intros _. cbv zeta.
  destruct (upscale_request_cases env req)
    as [[Hnone [_ Hwhy]] | [st [image [Hone [Htoken [Hf [Hfetch _]]]]]]];
    cbv zeta in *.
  - rewrite Hnone. split; [congruence |].
    intros [Htoken [Hf [st [image Hfetch]]]]. exfalso.
    destruct Hwhy as [[H _] | [[_ [H _]] | [_ [_ [_ H]]]]].
    + congruence.
    + apply Qle_bool_iff in H. lra.
    + apply (H st image Hfetch).
  - rewrite Hone. split; [| discriminate].
    intros _. split; [exact Htoken |]. split; [| eauto].
    apply Qnot_le_lt. intros Hle. apply Qle_bool_iff in Hle. congruence.
Qed.

Lemma upscale_route_submits_iff_witness :
  maxAxis (UpscaleImage.currentSize sampleRequest) <> 0 /\
  fst (UpscaleImage.POST (sampleUpscaleEnv succeededOutput) (Returned sampleRequest))
  <> [] /\
  (fst (UpscaleImage.POST (sampleUpscaleEnv succeededOutput) (Returned sampleRequest))
   <> [] <->
   truthy_str (default [] (UpscaleImage.apiToken (sampleUpscaleEnv succeededOutput)))
   = true /\
   (1 < inject_Z (UpscaleImage.targetSize sampleRequest)
        / inject_Z (maxAxis (UpscaleImage.currentSize sampleRequest)))%Q /\
   exists statusText image,
     UpscaleImage.fetchImage (sampleUpscaleEnv succeededOutput)
       (UpscaleImage.imageUrl sampleRequest)
     = Returned (true, statusText, image)).
Proof.
  assert (H : maxAxis (UpscaleImage.currentSize sampleRequest) <> 0)
    by (vm_compute; discriminate).
  split; [exact H |]. split; [vm_compute; discriminate |].
  exact (upscale_route_submits_iff (sampleUpscaleEnv succeededOutput) sampleRequest H).
Defined.

(** X18. When the target size does not exceed the image's positive longer
    axis, the upscale-image route sends nothing to the provider and answers
    with status 200 and success false. *)
Theorem upscale_route_skips_large_images (env : UpscaleImage.Env)
    (req : UpscaleImage.Request) :
  0 < maxAxis (UpscaleImage.currentSize req) ->
  UpscaleImage.targetSize req <= maxAxis (UpscaleImage.currentSize req) ->
  fst (UpscaleImage.POST env (Returned req)) = [] /\
  status (snd (UpscaleImage.POST env (Returned req))) = 200 /\
  exists e, body (snd (UpscaleImage.POST env (Returned req))) = UpscaleImage.Failure e.
Proof.
  intros Hpos Hle.
  pose proof (not_above_one _ _ Hpos Hle) as Hf.
  destruct (upscale_request_cases env req)
    as [[Hnone [Hbody Hwhy]] | [st [image [_ [_ [Hf' _]]]]]]; cbv zeta in *.
  - split; [exact Hnone |]. split; [| exact Hbody].
    destruct Hwhy as [[_ H] | [[_ [_ H]] | [_ [H _]]]]; congruence.
  - congruence.
Qed.

Lemma upscale_route_skips_large_images_witness :
  (0 < maxAxis (UpscaleImage.currentSize sampleRequest) /\
   800 <= maxAxis (UpscaleImage.currentSize sampleRequest)) /\
  fst (UpscaleImage.POST (sampleUpscaleEnv succeededOutput)
         (Returned {| UpscaleImage.imageUrl := UpscaleImage.imageUrl sampleRequest;
                      UpscaleImage.fileName := UpscaleImage.fileName sampleRequest;
                      UpscaleImage.currentSize := UpscaleImage.currentSize sampleRequest;
                      UpscaleImage.targetSize := 800 |})) = [].
Proof.
  assert (Hpos : 0 < maxAxis (UpscaleImage.currentSize sampleRequest)) by reflexivity.
  assert (Hle : 800 <= maxAxis (UpscaleImage.currentSize sampleRequest))
    by (vm_compute; discriminate).
  split; [split; assumption |].
  exact (proj1 (upscale_route_skips_large_images (sampleUpscaleEnv succeededOutput)
                  {| UpscaleImage.imageUrl := UpscaleImage.imageUrl sampleRequest;
                     UpscaleImage.fileName := UpscaleImage.fileName sampleRequest;
                     UpscaleImage.currentSize := UpscaleImage.currentSize sampleRequest;
                     UpscaleImage.targetSize := 800 |} Hpos Hle)).
Defined.


Lemma interpret_success_full (env : UpscaleImage.Env) (req : UpscaleImage.Request)
    (f : Q) (code : Z) (output : Json)
    (sf : Q) (size : ImageDimensions) (url : Json) :
  body (UpscaleImage.interpret env req f code output)
  = UpscaleImage.Success sf size url ->
  200 <= code <= 299 /\
  (isString (prop output (lit "status")) "succeeded" = true
   \/ isString (prop output (lit "status")) "processing" = true) /\
  UpscaleImage.resultUrlOf output = Some url /\
  truthy url = true /\
  sf = f /\
  size = {| width := Math_round (inject_Z (width (UpscaleImage.currentSize req)) * f);
            height := Math_round (inject_Z (height (UpscaleImage.currentSize req)) * f) |}.
Proof.
  intros E. destruct (interpret_success _ _ _ _ _ _ _ _ E) as [-> ->].
  revert E. unfold UpscaleImage.interpret, UpscaleImage.respond.
  repeat break_match; cbn [body]; intros E; try discriminate.
  injection E as <-.
  repeat match goal with
         | H : negb _ = false |- _ => apply negb_false_iff in H
         | H : _ && _ = true |- _ => apply andb_true_iff in H; destruct H
         | H : _ || _ = true |- _ => apply orb_true_iff in H
         end.
  repeat split; try assumption; try lia.
Qed.

(** X19. The upscale-image route reports success for a provider answer if
    and only if the HTTP status is 2xx, the status field is 'succeeded' or
    'processing', and a truthy result URL is found; it then reports the
    unclamped factor and both current axes multiplied by it and rounded. *)
Theorem interpret_succeeds_iff (env : UpscaleImage.Env) (req : UpscaleImage.Request)
    (f : Q) (code : Z) (output : Json)
    (sf : Q) (size : ImageDimensions) (url : Json) :
  body (UpscaleImage.interpret env req f code output)
  = UpscaleImage.Success sf size url
  <->
  200 <= code <= 299 /\
  (isString (prop output (lit "status")) "succeeded" = true
   \/ isString (prop output (lit "status")) "processing" = true) /\
  UpscaleImage.resultUrlOf output = Some url /\
  truthy url = true /\
  sf = f /\
  size = {| width := Math_round (inject_Z (width (UpscaleImage.currentSize req)) * f);
            height := Math_round (inject_Z (height (UpscaleImage.currentSize req)) * f) |}.
Proof.
  split.
  - apply interpret_success_full.
  - intros [Hcode [Hstatus [Hurl [Htruthy [-> ->]]]]].
    assert (Hobj : truthy output = true /\ isObject output = true
                   /\ keyCount output <> O).
    { destruct Hstatus as [H | H]; apply (status_field_object _ _ H). }
    destruct Hobj as [Ht [Ho Hk]].
    pose proof (resultUrl_truthy _ _ Hurl Htruthy) as Hout.
    unfold UpscaleImage.interpret, UpscaleImage.respond.
    rewrite Ht, Ho, Hout. cbn [andb].
    destruct (keyCount output) as [| k] eqn:Ek; [congruence |]. cbn [Nat.eqb].
    replace ((200 <=? code) && (code <=? 299)) with true
      by (symmetry; apply andb_true_iff; split; apply Z.leb_le; lia).
    cbn [negb].
    replace (isString (prop output (lit "status")) "succeeded"
             || isString (prop output (lit "status")) "processing") with true
      by (symmetry; apply orb_true_iff; exact Hstatus).
    cbn [negb andb]. rewrite Hurl, Htruthy. reflexivity.
Qed.

Lemma replicate_requests_shape (env : ProcessImage.Env) (fileName : jsstring)
    (currentSize : ImageDimensions) (targetSize : Z)
    (requests : list ProviderRequest) (o : Outcome ProcessImage.UpscaleResult) :
  ProcessImage.upscaleWithReplicate env fileName currentSize targetSize = (requests, o) ->
  (List.length requests <= 1)%nat /\
  (forall r, In r requests -> (1 < req_scale r)%Q /\ (req_scale r <= 4)%Q) /\
  (requests <> [] -> truthy_str (default [] (ProcessImage.apiToken env)) = true) /\
  (forall sf size url, o = Returned (ProcessImage.Upscaled sf size url) ->
                       requests <> []).
Proof.
  intros E.
  destruct (replicate_request_cases env fileName currentSize targetSize)
    as [Hreq _]; cbv zeta in *.
  assert (Hup : forall sf size url,
            o = Returned (ProcessImage.Upscaled sf size url) -> requests <> []).
  { intros sf size url ->.
    destruct (replicate_success env fileName currentSize targetSize sf size url)
      as [_ [[image Hsent] _]]; [rewrite E; reflexivity |].
    rewrite E in Hsent. cbn in Hsent. rewrite Hsent. discriminate. }
  rewrite E in Hreq. cbn [fst] in Hreq.
  destruct Hreq as [-> | [image [-> [_ [Htoken Hf]]]]].
  - split; [cbn; lia |]. split; [intros r [] |].
    split; [congruence | exact Hup].
  - destruct (clamped_scale_bounds _ Hf) as [Hlo Hhi].
    split; [cbn; lia |]. split; [| split; [intros _; exact Htoken | exact Hup]].
    intros r [<- | []]. split; assumption.
Qed.

(** X20. The process-image route sends at most one request to the provider,
    with a scale above 1 and at most 4, and only in a run that answers 200
    with a non-empty API token and upscaling enabled (the default); a result
    with wasUpscaled true always comes from a run that sent a request. *)
Theorem process_route_provider_calls (env : ProcessImage.Env) (file : option File)
    (settings : Outcome ProcessImage.Settings) :
  let run := ProcessImage.POST env file settings in
  (List.length (fst run) <= 1)%nat /\
  (forall r, In r (fst run) -> (1 < req_scale r)%Q /\ (req_scale r <= 4)%Q) /\
  (fst run <> [] ->
   status (snd run) = 200 /\
   truthy_str (default [] (ProcessImage.apiToken env)) = true /\
   exists s, settings = Returned s /\
             default true (ProcessImage.enableUpscaling s) = true) /\
  (forall r, body (snd run) = ProcessImage.Processed r ->
             ProcessImage.wasUpscaled r = true -> fst run <> []).
Proof.
  cbv zeta. unfold ProcessImage.POST, ProcessImage.internalError,
    ProcessImage.badRequest.
  repeat break_match; cbn [fst snd status body];
    try (split; [cbn; lia |]; split; [intros r [] |];
         split; [congruence |]; intros r E; try discriminate E;
         injection E as <-; cbn; discriminate).
  all: match goal with
       | H : ProcessImage.upscaleWithReplicate _ _ _ _ = _ |- _ =>
           destruct (replicate_requests_shape _ _ _ _ _ _ H)
             as [Hlen [Hscale [Htoken Hup]]]
       end.
  all: split; [exact Hlen |]; split; [exact Hscale |]; split.
  all: try (intros Hne; split; [reflexivity |]; split; [apply Htoken; exact Hne |];
            eexists; split; [reflexivity |];
            match goal with
            | H : default true _ && _ = true |- _ =>
                apply andb_true_iff in H; destruct H as [H _]; exact H
            end).
  all: intros r E; injection E as <-; cbn [ProcessImage.wasUpscaled]; intros Hw;
    try discriminate Hw; eapply Hup; reflexivity.
Qed.

Lemma upscale_success_facts (env : UpscaleImage.Env)
    (req : UpscaleImage.Request) (sf : Q) (size : ImageDimensions) (url : Json) :
  body (snd (UpscaleImage.POST env (Returned req))) = UpscaleImage.Success sf size url ->
  let f := (inject_Z (UpscaleImage.targetSize req)
            / inject_Z (maxAxis (UpscaleImage.currentSize req)))%Q in
  sf = f /\ (1 < f)%Q /\ truthy url = true /\
  status (snd (UpscaleImage.POST env (Returned req))) = 200 /\
  (0 < maxAxis (UpscaleImage.currentSize req) ->
   maxAxis size = UpscaleImage.targetSize req /\
   maxAxis (UpscaleImage.currentSize req) < UpscaleImage.targetSize req).
Proof.
  intros Hbody. cbv zeta.
  destruct (upscale_request_cases env req)
    as [[_ [[e He] _]] | [st [image [_ [_ [Hf [_ Hanswer]]]]]]]; cbv zeta in *;
    [congruence |].
  destruct (upscale_route_success env req sf size url Hbody) as [Hsf [Hsize _]].
  split; [exact Hsf |].
  split; [apply Qnot_le_lt; intros Hle; apply Qle_bool_iff in Hle; congruence |].
  destruct (UpscaleImage.predict env _) as [[code output] | m];
    [| rewrite Hanswer in Hbody; discriminate Hbody].
  rewrite Hanswer in Hbody |- *.
  split; [apply (interpret_success_full _ _ _ _ _ _ _ _ Hbody) |].
  split; [apply interpret_status |].
  intros Hpos. pose proof (above_one _ _ Hpos Hf) as Hlt.
  split; [| exact Hlt]. rewrite Hsize.
  assert (Ht : 0 < UpscaleImage.targetSize req) by lia.
  pose proof (scaled_big (maxAxis (UpscaleImage.currentSize req))
                (UpscaleImage.targetSize req) Hpos) as Hb.
  pose proof (scaled_le (width (UpscaleImage.currentSize req))
                (maxAxis (UpscaleImage.currentSize req))
                (UpscaleImage.targetSize req) Hpos Ht) as Hw.
  pose proof (scaled_le (height (UpscaleImage.currentSize req))
                (maxAxis (UpscaleImage.currentSize req))
                (UpscaleImage.targetSize req) Hpos Ht) as Hh.
  unfold maxAxis in *. cbn [width height].
  destruct (Z.max_spec (width (UpscaleImage.currentSize req))
              (height (UpscaleImage.currentSize req))) as [[_ E] | [_ E]];
    rewrite E in *; lia.
Qed.

(** X21. Whenever the upscale-image route reports success for an image with
    a positive longer axis, the longer axis of the reported finalSize equals
    the requested targetSize, the target exceeds the current longer axis and
    the HTTP status is 200. *)
Theorem upscale_route_reports_target (env : UpscaleImage.Env)
    (req : UpscaleImage.Request) (sf : Q) (size : ImageDimensions) (url : Json) :
  0 < maxAxis (UpscaleImage.currentSize req) ->
  body (snd (UpscaleImage.POST env (Returned req))) = UpscaleImage.Success sf size url ->
  maxAxis size = UpscaleImage.targetSize req /\
  maxAxis (UpscaleImage.currentSize req) < UpscaleImage.targetSize req /\
  status (snd (UpscaleImage.POST env (Returned req))) = 200.
Proof.
  intros Hpos Hbody.
  destruct (upscale_success_facts env req sf size url Hbody)
    as [_ [_ [_ [Hstatus Htarget]]]].
  destruct (Htarget Hpos) as [Hmax Hlt]. repeat split; assumption.
Qed.

Lemma upscale_route_reports_target_witness :
  (0 < maxAxis (UpscaleImage.currentSize sampleRequest) /\
   body (snd (UpscaleImage.POST (sampleUpscaleEnv succeededOutput)
                (Returned sampleRequest)))
   = UpscaleImage.Success (4000 # 800) {| width := 4000; height := 3000 |}
       (JStr (lit "https://replicate.delivery/out.png"))) /\
  maxAxis {| width := 4000; height := 3000 |} = UpscaleImage.targetSize sampleRequest.
Proof.
  assert (Hpos : 0 < maxAxis (UpscaleImage.currentSize sampleRequest)) by reflexivity.
  assert (Hbody : body (snd (UpscaleImage.POST (sampleUpscaleEnv succeededOutput)
                               (Returned sampleRequest)))
                  = UpscaleImage.Success (4000 # 800)
                      {| width := 4000; height := 3000 |}
                      (JStr (lit "https://replicate.delivery/out.png")))
    by (vm_compute; reflexivity).
  split; [split; assumption |].
  exact (proj1 (upscale_route_reports_target _ _ _ _ _ Hpos Hbody)).
Defined.

(** ** The batch loop, item by item *)

Lemma basicProcessing_urls (w : ImageProcessor.ItemWorld)
    (settings : ImageProcessor.Settings) (fileName : jsstring)
    (fileData : ImageProcessor.FileData) (result : ProcessImage.Result) :
  ImageProcessor.basicProcessing w settings fileName fileData = Some result ->
  ProcessImage.downloadUrl result
  = lit "/api/serve-image/"
      ++ string_of_Z (ProcessImage.now (ImageProcessor.processEnv w))
      ++ lit "_" ++ fileName ++ lit ".png" /\
  ProcessImage.preview result = ProcessImage.downloadUrl result /\
  (ProcessImage.finalSize result, ProcessImage.wasResized result)
  = calculateResizeDimensions (ProcessImage.originalSize result)
      (ImageProcessor.maxDimension settings).
Proof.
  unfold ImageProcessor.basicProcessing.
  destruct (negb (ImageProcessor.processReachable w)); [discriminate |].
  match goal with
  | |- context [ProcessImage.POST ?env ?file (Returned ?s)] =>
      pose proof (route_resize_agrees env file s) as Hresize;
      set (run := ProcessImage.POST env file (Returned s)) in *
  end.
  destruct (negb (ok (snd run))); [discriminate |].
  destruct (body (snd run)) as [e | r] eqn:Hbody; [discriminate |].
  intros E. injection E as <-.
  destruct (Hresize r eq_refl) as [Hres Hfinal].
  cbn [ProcessImage.maxDimension default from_option id] in Hres, Hfinal.
  assert (Hbase : ProcessImage.wasUpscaled r = false /\
                  ProcessImage.downloadUrl r
                  = lit "/api/serve-image/"
                      ++ string_of_Z (ProcessImage.now (ImageProcessor.processEnv w))
                      ++ lit "_" ++ fileName ++ lit ".png" /\
                  ProcessImage.preview r = ProcessImage.downloadUrl r).
  { revert Hbody. unfold run, ProcessImage.POST.
    cbn [ProcessImage.enableUpscaling ProcessImage.maxDimension
         ProcessImage.targetSize ProcessImage.fileName from_option id andb].
    repeat break_match; cbn [snd body]; intros E; try discriminate;
      injection E as <-; cbn; rewrite <- ?app_assoc; repeat split. }
  destruct Hbase as [Hup [Hurl Hprev]].
  split; [exact Hurl |]. split; [exact Hprev |].
  rewrite (Hfinal Hup), Hres.
  destruct (calculateResizeDimensions _ _). reflexivity.
Qed.

Lemma processItem_cases (world : ImageProcessor.World)
    (settings : ImageProcessor.Settings) (i : nat)
    (fileData : ImageProcessor.FileData) (p : ImageProcessor.ProcessedImage) :
  snd (ImageProcessor.processItem world settings i fileData) = Some p ->
  exists result,
    ImageProcessor.basicProcessing (ImageProcessor.item world i) settings
      (ImageProcessor.fileNameOf settings i) fileData = Some result /\
    (p = ImageProcessor.fromResult fileData result
     \/ exists f size url,
          p = ImageProcessor.fromUpscale fileData result f size url /\
          ImageProcessor.enableUpscaling settings = true /\
          maxAxis (ProcessImage.finalSize result) < ImageProcessor.targetSize settings /\
          snd (ImageProcessor.requestUpscale world (ImageProcessor.item world i)
                 settings (ImageProcessor.fileNameOf settings i) result)
          = Some (UpscaleImage.Success f size url)).
Proof.
  unfold ImageProcessor.processItem.
  destruct (ImageProcessor.basicProcessing _ _ _ _) as [result |];
    [| cbn; discriminate].
  intros E. exists result. split; [reflexivity |].
  fold (maxAxis (ProcessImage.finalSize result)) in E.
  destruct (ImageProcessor.enableUpscaling settings) eqn:Hen; cbn [andb] in E.
  - destruct (Z.ltb_spec (maxAxis (ProcessImage.finalSize result))
                (ImageProcessor.targetSize settings)) as [Hlt | Hge].
    + destruct (ImageProcessor.requestUpscale _ _ _ _ _) as [requests answer].
      cbn [snd] in *. destruct answer as [[f size url | e] |];
        injection E as <-; [right | left; reflexivity | left; reflexivity].
      exists f, size, url. repeat split; assumption.
    + cbn in E. injection E as <-. left. reflexivity.
  - cbn in E. injection E as <-. left. reflexivity.
Qed.

Lemma requestUpscale_success (world : ImageProcessor.World)
    (w : ImageProcessor.ItemWorld) (settings : ImageProcessor.Settings)
    (fileName : jsstring) (result : ProcessImage.Result)
    (f : Q) (size : ImageDimensions) (url : Json) :
  snd (ImageProcessor.requestUpscale world w settings fileName result)
  = Some (UpscaleImage.Success f size url) ->
  f = (inject_Z (ImageProcessor.targetSize settings)
       / inject_Z (maxAxis (ProcessImage.finalSize result)))%Q /\
  (1 < f)%Q /\ truthy url = true /\
  (0 < maxAxis (ProcessImage.finalSize result) ->
   maxAxis size = ImageProcessor.targetSize settings).
Proof.
  unfold ImageProcessor.requestUpscale.
  destruct (negb (ImageProcessor.upscaleReachable w)); [cbn; discriminate |].
  match goal with
  | |- context [UpscaleImage.POST ?env (Returned ?req)] =>
      pose proof (upscale_success_facts env req f size url) as Hfacts;
      destruct (UpscaleImage.POST env (Returned req)) as [requests response]
  end.
  cbn [snd] in *. intros E. injection E as E.
  destruct (Hfacts E) as [Hsf [Hf [Hurl [_ Htarget]]]].
  cbn [UpscaleImage.targetSize UpscaleImage.currentSize] in *.
  split; [exact Hsf |]. split; [rewrite Hsf; exact Hf |].
  split; [exact Hurl |]. intros Hpos. apply (Htarget Hpos).
Qed.

Lemma processImages_attempts (world : ImageProcessor.World)
    (settings : ImageProcessor.Settings) (files : list ImageProcessor.FileData)
    (results : list ImageProcessor.ProcessedImage) :
  ImageProcessor.processImages world settings files = Some results ->
  results = omap id (attempts world settings 0 files).
Proof.
  unfold ImageProcessor.processImages.
  destruct files as [| fileData rest]; [discriminate |].
  rewrite processLoop_attempts. intros E. injection E as <-. reflexivity.
Qed.

Lemma results_origin (world : ImageProcessor.World)
    (settings : ImageProcessor.Settings) (files : list ImageProcessor.FileData)
    (results : list ImageProcessor.ProcessedImage) (p : ImageProcessor.ProcessedImage) :
  ImageProcessor.processImages world settings files = Some results ->
  In p results ->
  exists k fileData,
    files !! k = Some fileData /\
    snd (ImageProcessor.processItem world settings k fileData) = Some p.
Proof.
  intros E Hin. rewrite (processImages_attempts _ _ _ _ E) in Hin.
  apply list_elem_of_In in Hin. apply list_elem_of_omap in Hin.
  destruct Hin as [o [Ho Hsome]]. cbn in Hsome. subst o.
  apply list_elem_of_lookup in Ho. destruct Ho as [k Hk].
  rewrite attempts_lookup in Hk. cbn [Nat.add] in Hk.
  destruct (files !! k) as [fd |] eqn:Hfd; [| discriminate Hk].
  cbn in Hk. injection Hk as Hk. exists k, fd. split; [exact Hfd | exact Hk].
Qed.

Lemma processItem_facts (world : ImageProcessor.World)
    (settings : ImageProcessor.Settings) (k : nat)
    (fileData : ImageProcessor.FileData) (p : ImageProcessor.ProcessedImage) :
  snd (ImageProcessor.processItem world settings k fileData) = Some p ->
  ImageProcessor.id p = ImageProcessor.fd_id fileData /\
  ImageProcessor.originalName p = file_name (ImageProcessor.fd_file fileData) /\
  ImageProcessor.processedName p = ImageProcessor.fileNameOf settings k /\
  ImageProcessor.wasResized p
  = snd (calculateResizeDimensions (ImageProcessor.originalSize p)
           (ImageProcessor.maxDimension settings)) /\
  (ImageProcessor.wasUpscaled p = false ->
   ImageProcessor.scaleFactor p = 1%Q /\
   ImageProcessor.finalSize p
   = fst (calculateResizeDimensions (ImageProcessor.originalSize p)
            (ImageProcessor.maxDimension settings)) /\
   ImageProcessor.downloadUrl p
   = JStr (lit "/api/serve-image/"
           ++ string_of_Z (ProcessImage.now
                             (ImageProcessor.processEnv (ImageProcessor.item world k)))
           ++ lit "_" ++ ImageProcessor.fileNameOf settings k ++ lit ".png")) /\
  (ImageProcessor.wasUpscaled p = true ->
   ImageProcessor.enableUpscaling settings = true /\
   (1 < ImageProcessor.scaleFactor p)%Q /\
   truthy (ImageProcessor.downloadUrl p) = true /\
   (0 < maxAxis (fst (calculateResizeDimensions (ImageProcessor.originalSize p)
                        (ImageProcessor.maxDimension settings))) ->
    maxAxis (ImageProcessor.finalSize p) = ImageProcessor.targetSize settings)).
Proof.
  intros Hitem.
  destruct (processItem_cases _ _ _ _ _ Hitem) as [result [Hbasic Hp]].
  destruct (basicProcessing_baseline _ _ _ _ _ Hbasic) as [_ [Hup [Hsf Hname]]].
  destruct (basicProcessing_urls _ _ _ _ _ Hbasic) as [Hurl [_ Hresize]].
  assert (Hres : ProcessImage.wasResized result
                 = snd (calculateResizeDimensions (ProcessImage.originalSize result)
                          (ImageProcessor.maxDimension settings)))
    by (rewrite <- Hresize; reflexivity).
  assert (Hfin : ProcessImage.finalSize result
                 = fst (calculateResizeDimensions (ProcessImage.originalSize result)
                          (ImageProcessor.maxDimension settings)))
    by (rewrite <- Hresize; reflexivity).
  destruct Hp as [-> | [f [size [url [-> [Hen [Hlt Hanswer]]]]]]];
    unfold ImageProcessor.fromResult, ImageProcessor.fromUpscale;
    cbn [ImageProcessor.id ImageProcessor.originalName ImageProcessor.processedName
         ImageProcessor.originalSize ImageProcessor.finalSize
         ImageProcessor.wasResized ImageProcessor.wasUpscaled
         ImageProcessor.scaleFactor ImageProcessor.downloadUrl].
  - repeat split; try assumption; try congruence.
  - destruct (requestUpscale_success _ _ _ _ _ _ _ _ Hanswer)
      as [_ [Hf [Htruthy Htarget]]].
    repeat split; try assumption; try discriminate.
    rewrite <- Hfin. exact Htarget.
Qed.

(** X22. Every entry of the list processImages produces comes from a
    submitted file: it carries that file's id and original name and the
    processed name of its position; wasResized is calculateResizeDimensions'
    flag; an entry that was not upscaled has scaleFactor 1, the resized
    dimensions and the serve-image URL of its file; an upscaled entry occurs
    only with upscaling enabled, has a factor above 1, a truthy URL and,
    when the resized image has a positive longer axis, a longer axis equal
    to targetSize. *)
Theorem batch_results_invariants (world : ImageProcessor.World)
    (settings : ImageProcessor.Settings) (files : list ImageProcessor.FileData)
    (results : list ImageProcessor.ProcessedImage) (p : ImageProcessor.ProcessedImage) :
  ImageProcessor.processImages world settings files = Some results ->
  In p results ->
  exists k fileData,
    files !! k = Some fileData /\
    ImageProcessor.id p = ImageProcessor.fd_id fileData /\
    ImageProcessor.originalName p = file_name (ImageProcessor.fd_file fileData) /\
    ImageProcessor.processedName p = ImageProcessor.fileNameOf settings k /\
    ImageProcessor.wasResized p
    = snd (calculateResizeDimensions (ImageProcessor.originalSize p)
             (ImageProcessor.maxDimension settings)) /\
    (ImageProcessor.wasUpscaled p = false ->
     ImageProcessor.scaleFactor p = 1%Q /\
     ImageProcessor.finalSize p
     = fst (calculateResizeDimensions (ImageProcessor.originalSize p)
              (ImageProcessor.maxDimension settings)) /\
     ImageProcessor.downloadUrl p
     = JStr (lit "/api/serve-image/"
             ++ string_of_Z (ProcessImage.now
                               (ImageProcessor.processEnv (ImageProcessor.item world k)))
             ++ lit "_" ++ ImageProcessor.fileNameOf settings k ++ lit ".png")) /\
    (ImageProcessor.wasUpscaled p = true ->
     ImageProcessor.enableUpscaling settings = true /\
     (1 < ImageProcessor.scaleFactor p)%Q /\
     truthy (ImageProcessor.downloadUrl p) = true /\
     (0 < maxAxis (fst (calculateResizeDimensions (ImageProcessor.originalSize p)
                          (ImageProcessor.maxDimension settings))) ->
      maxAxis (ImageProcessor.finalSize p) = ImageProcessor.targetSize settings)).
Proof.
  intros Hrun Hin.
  destruct (results_origin _ _ _ _ _ Hrun Hin) as [k [fileData [Hk Hitem]]].
  exists k, fileData. split; [exact Hk |].
  apply (processItem_facts _ _ _ _ _ Hitem).
Qed.

Lemma batch_results_invariants_witness :
  exists results p,
    (ImageProcessor.processImages (sampleWorld (JObj [])) (sampleSettings 2560)
       sampleBatch = Some results /\ In p results) /\
    exists k fileData,
      sampleBatch !! k = Some fileData /\
      ImageProcessor.id p = ImageProcessor.fd_id fileData /\
      ImageProcessor.processedName p
      = ImageProcessor.fileNameOf (sampleSettings 2560) k.
Proof.
  destruct (ImageProcessor.processImages (sampleWorld (JObj [])) (sampleSettings 2560)
              sampleBatch) as [results |] eqn:Hrun;
    [| vm_compute in Hrun; discriminate Hrun].
  destruct results as [| p rest]; [vm_compute in Hrun; discriminate Hrun |].
  assert (Hin : In p (p :: rest)) by (left; reflexivity).
  exists (p :: rest), p. split; [split; [reflexivity | exact Hin] |].
  destruct (batch_results_invariants _ _ _ _ p Hrun Hin)
    as [k [fileData [Hk [Hid [_ [Hname _]]]]]].
  exists k, fileData. repeat split; assumption.
Defined.

(** ** Names within a batch *)

Lemma fileNameOf_inj (settings : ImageProcessor.Settings) (i j : nat) :
  ImageProcessor.fileNameOf settings i = ImageProcessor.fileNameOf settings j -> i = j.
Proof.
  unfold ImageProcessor.fileNameOf.
  destruct (truthy_str (ImageProcessor.namePrefix settings)); intros E.
  - apply app_inv_head in E. apply app_inv_head in E.
    apply string_of_Z_inj in E. lia.
  - apply app_inv_head in E. apply string_of_Z_inj in E. lia.
Qed.

Lemma attempts_names (world : ImageProcessor.World)
    (settings : ImageProcessor.Settings) (files : list ImageProcessor.FileData) :
  forall i,
    let names :=
      List.map ImageProcessor.processedName (omap id (attempts world settings i files)) in
    NoDup names /\
    forall n, In n names ->
      exists k, (i <= k)%nat /\ n = ImageProcessor.fileNameOf settings k.
Proof.
  induction files as [| fileData rest IH]; intros i; cbn [attempts].
  - cbn. split; [constructor | intros n []].
  - destruct (IH (S i)) as [Hnodup Hnames]. cbv zeta in *.
    cbn [omap list_omap id].
    destruct (snd (ImageProcessor.processItem world settings i fileData))
      as [p |] eqn:Hitem; cbn [List.map].
    + destruct (processItem_facts _ _ _ _ _ Hitem) as [_ [_ [Hname _]]].
      split.
      * apply NoDup_cons. split; [| exact Hnodup].
        intros Hin. apply list_elem_of_In in Hin.
        destruct (Hnames _ Hin) as [k [Hk E]].
        rewrite Hname in E. apply fileNameOf_inj in E. lia.
      * intros n [<- | Hin].
        -- exists i. split; [lia | exact Hname].
        -- destruct (Hnames _ Hin) as [k [Hk E]]. exists k. split; [lia | exact E].
    + split; [exact Hnodup |].
      intros n Hin. destruct (Hnames _ Hin) as [k [Hk E]].
      exists k. split; [lia | exact E].
Qed.

(** X23. Within one batch the processed names of the results of
    processImages are pairwise distinct. *)
Theorem batch_names_distinct (world : ImageProcessor.World)
    (settings : ImageProcessor.Settings) (files : list ImageProcessor.FileData)
    (results : list ImageProcessor.ProcessedImage) :
  ImageProcessor.processImages world settings files = Some results ->
  NoDup (List.map ImageProcessor.processedName results).
Proof.
  intros E. rewrite (processImages_attempts _ _ _ _ E).
  apply (attempts_names world settings files 0).
Qed.

Lemma batch_names_distinct_witness :
  exists results,
    ImageProcessor.processImages (sampleWorld (JObj [])) (sampleSettings 2560)
      sampleBatch = Some results /\
    NoDup (List.map ImageProcessor.processedName results).
Proof.
  destruct (ImageProcessor.processImages (sampleWorld (JObj [])) (sampleSettings 2560)
              sampleBatch) as [results |] eqn:Hrun;
    [| vm_compute in Hrun; discriminate Hrun].
  exists results. split; [reflexivity |].
  exact (batch_names_distinct _ _ _ results Hrun).
Defined.

(** X24. For one item of the batch loop at most one request reaches the
    provider, with a scale above 1 and at most 4, and only when upscaling is
    enabled, the first stage succeeded and the longer axis of its result is
    below targetSize. *)
Theorem processItem_provider_requests (world : ImageProcessor.World)
    (settings : ImageProcessor.Settings) (i : nat)
    (fileData : ImageProcessor.FileData) :
  let requests := fst (ImageProcessor.processItem world settings i fileData) in
  (List.length requests <= 1)%nat /\
  (forall r, In r requests -> (1 < req_scale r)%Q /\ (req_scale r <= 4)%Q) /\
  (requests <> [] ->
   ImageProcessor.enableUpscaling settings = true /\
   exists result,
     ImageProcessor.basicProcessing (ImageProcessor.item world i) settings
       (ImageProcessor.fileNameOf settings i) fileData = Some result /\
     maxAxis (ProcessImage.finalSize result) < ImageProcessor.targetSize settings).
Proof.
  cbv zeta. unfold ImageProcessor.processItem.
  destruct (ImageProcessor.basicProcessing _ _ _ _) as [result |];
    [| cbn; split; [lia |]; split; [intros r [] | congruence]].
  fold (maxAxis (ProcessImage.finalSize result)).
  destruct (ImageProcessor.enableUpscaling settings); cbn [andb];
    [| cbn; split; [lia |]; split; [intros r [] | congruence]].
  destruct (Z.ltb_spec (maxAxis (ProcessImage.finalSize result))
              (ImageProcessor.targetSize settings)) as [Hlt | Hge];
    [| cbn; split; [lia |]; split; [intros r [] | congruence]].
  unfold ImageProcessor.requestUpscale.
  destruct (negb (ImageProcessor.upscaleReachable _));
    [cbn; split; [lia |]; split; [intros r [] | congruence] |].
  match goal with
  | |- context [UpscaleImage.POST ?env (Returned ?req)] =>
      pose proof (upscale_request_cases env req) as Hcases;
      destruct (UpscaleImage.POST env (Returned req)) as [requests response]
  end.
  cbv zeta in Hcases. cbn [fst snd] in *.
  assert (Hlast : requests <> [] ->
            true = true /\
            exists r0, Some result = Some r0 /\
                       maxAxis (ProcessImage.finalSize r0)
                       < ImageProcessor.targetSize settings).
  { intros _. split; [reflexivity |]. exists result. split; [reflexivity | exact Hlt]. }
  destruct Hcases as [[-> _] | [st [image [-> [_ [Hf _]]]]]].
  - cbn. split; [lia |]. split; [intros r [] | congruence].
  - destruct (clamped_scale_bounds _ Hf) as [Hlo Hhi].
    split; [cbn; lia |]. split; [| exact Hlast].
    intros r [<- | []]. split; assumption.
Qed.

(** ** The archive *)

Lemma archiveEntry_cases (env : DownloadAll.Env) (store : DownloadAll.Store)
    (image : DownloadAll.ImageRef) (entryName : jsstring) (bytes : list N) :
  DownloadAll.archiveEntry env store image = Some (entryName, bytes) ->
  entryName = DownloadAll.name image ++ lit ".png" /\
  ((exists url,
      DownloadAll.downloadUrl image = Some url /\
      startsWith url (lit "http") = true /\
      DownloadAll.fetchUrl env url = Returned (true, bytes))
   \/
   (startsWith (default [] (DownloadAll.downloadUrl image)) (lit "http") = false /\
    exists file stored,
      processedFile store file = Some stored /\
      DownloadAll.includesStr file (DownloadAll.name image) = true /\
      DownloadAll.content stored = bytes)).
Proof.
  unfold DownloadAll.archiveEntry, processedFile.
  destruct (DownloadAll.downloadUrl image) as [url |] eqn:Hurl; cbn [default from_option id].
  - destruct (truthy_str url && startsWith url (lit "http")) eqn:Hhttp.
    + apply andb_true_iff in Hhttp. destruct Hhttp as [_ Hhttp].
      destruct (DownloadAll.fetchUrl env url) as [[[|] buffer] | e] eqn:Hfetch;
        try discriminate.
      intros E. injection E as <- <-. split; [reflexivity |].
      left. exists url. repeat split; assumption.
    + assert (Hnot : startsWith url (lit "http") = false).
      { destruct url; [reflexivity |]. cbn [truthy_str andb] in Hhttp. exact Hhttp. }
      destruct (DownloadAll.processed store) as [dir |]; cbn [DownloadAll.readdir];
        [| discriminate].
      destruct (List.find _ _) as [matchingFile |] eqn:Hfind; [| discriminate].
      apply find_some in Hfind. destruct Hfind as [_ Hincl].
      destruct (dir !! matchingFile) as [stored |] eqn:Hstored; cbn; [| discriminate].
      intros E. injection E as <- <-. split; [reflexivity |].
      right. split; [exact Hnot |]. exists matchingFile, stored. repeat split; assumption.
  - cbn [truthy_str andb].
    destruct (DownloadAll.processed store) as [dir |]; cbn [DownloadAll.readdir];
      [| discriminate].
    destruct (List.find _ _) as [matchingFile |] eqn:Hfind; [| discriminate].
    apply find_some in Hfind. destruct Hfind as [_ Hincl].
    destruct (dir !! matchingFile) as [stored |] eqn:Hstored; cbn; [| discriminate].
    intros E. injection E as <- <-. split; [reflexivity |].
    right. split; [reflexivity |]. exists matchingFile, stored. repeat split; assumption.
Qed.

(** X25. Every entry the download-all route adds to the archive is named
    '<image name>.png', and its bytes are either the body of an OK response
    fetched from the image's http URL or the content of a file of the
    processed directory whose name contains the image name, the content the
    serve-image route would serve for that file. *)
Theorem archive_entry_source (env : DownloadAll.Env) (store : DownloadAll.Store)
    (image : DownloadAll.ImageRef) (entryName : jsstring) (bytes : list N) :
  DownloadAll.archiveEntry env store image = Some (entryName, bytes) ->
  entryName = DownloadAll.name image ++ lit ".png" /\
  ((exists url,
      DownloadAll.downloadUrl image = Some url /\
      startsWith url (lit "http") = true /\
      DownloadAll.fetchUrl env url = Returned (true, bytes))
   \/
   (startsWith (default [] (DownloadAll.downloadUrl image)) (lit "http") = false /\
    exists file stored,
      processedFile store file = Some stored /\
      DownloadAll.includesStr file (DownloadAll.name image) = true /\
      DownloadAll.content stored = bytes /\
      ServeImage.GET store true file = ServeImage.Served bytes)).
Proof.
  intros E. destruct (archiveEntry_cases _ _ _ _ _ E) as [Hname Hsource].
  split; [exact Hname |].
  destruct Hsource as [Hhttp | [Hlocal [file [stored [Hfile [Hincl Hbytes]]]]]];
    [left; exact Hhttp | right].
  split; [exact Hlocal |]. exists file, stored. repeat split; try assumption.
  unfold ServeImage.GET. unfold processedFile in Hfile.
  destruct (DownloadAll.processed store) as [dir |]; [| discriminate Hfile].
  rewrite Hfile, Hbytes. reflexivity.
Qed.

Lemma archive_entry_source_witness :
  exists bytes,
    DownloadAll.archiveEntry sampleDownloadEnv sampleStore
      {| DownloadAll.id := lit "a"; DownloadAll.name := lit "image_1";
         DownloadAll.downloadUrl := None |}
    = Some (lit "image_1.png", bytes) /\
    lit "image_1.png" = lit "image_1" ++ lit ".png".
Proof.
  destruct (DownloadAll.archiveEntry sampleDownloadEnv sampleStore
              {| DownloadAll.id := lit "a"; DownloadAll.name := lit "image_1";
                 DownloadAll.downloadUrl := None |})
    as [[entryName bytes] |] eqn:E; [| vm_compute in E; discriminate E].
  pose proof (proj1 (archive_entry_source _ _ _ _ _ E)) as Hname.
  cbn [DownloadAll.name] in Hname. subst entryName.
  exists bytes. split; reflexivity.
Defined.

Lemma omap_entries_sublist (env : DownloadAll.Env) (store : DownloadAll.Store)
    (images : list DownloadAll.ImageRef) :
  List.map fst (omap (DownloadAll.archiveEntry env store) images)
  `sublist_of` List.map (fun image => DownloadAll.name image ++ lit ".png") images
  /\
  ((forall image, In image images ->
      DownloadAll.archiveEntry env store image <> None) ->
   List.map fst (omap (DownloadAll.archiveEntry env store) images)
   = List.map (fun image => DownloadAll.name image ++ lit ".png") images).
Proof.
  induction images as [| image rest [IHsub IHall]]; cbn.
  - split; [constructor | reflexivity].
  - destruct (DownloadAll.archiveEntry env store image) as [[entryName bytes] |] eqn:E.
    + destruct (archiveEntry_cases _ _ _ _ _ E) as [-> _]. cbn. split.
      * apply sublist_skip. exact IHsub.
      * intros Hall. f_equal. apply IHall. intros im Him. apply Hall. right. exact Him.
    + split.
      * apply sublist_cons. exact IHsub.
      * intros Hall. exfalso. apply (Hall image); [left; reflexivity | exact E].
Qed.

(** X26. For a non-empty list of images the download-all route answers with
    an archive whose entry names are, in order, a subsequence of
    '<name>.png' over the requested images: images that cannot be resolved
    are skipped, none is added or reordered, and when every image resolves
    each has its entry. *)
Theorem archive_entries (env : DownloadAll.Env) (store : DownloadAll.Store)
    (images : list DownloadAll.ImageRef) :
  images <> [] ->
  exists entries,
    fst (DownloadAll.POST env store (Returned (Some images)))
    = DownloadAll.Archive entries /\
    List.map fst entries
    `sublist_of` List.map (fun image => DownloadAll.name image ++ lit ".png") images /\
    (List.length entries <= List.length images)%nat /\
    ((forall image, In image images ->
        DownloadAll.archiveEntry env store image <> None) ->
     List.map fst entries
     = List.map (fun image => DownloadAll.name image ++ lit ".png") images).
Proof.
  intros Hne. exists (omap (DownloadAll.archiveEntry env store) images).
  destruct (omap_entries_sublist env store images) as [Hsub Hall].
  split; [destruct images; [congruence | reflexivity] |].
  split; [exact Hsub |]. split; [| exact Hall].
  apply sublist_length in Hsub. rewrite !length_map in Hsub. exact Hsub.
Qed.

Lemma archive_entries_witness :
  [{| DownloadAll.id := lit "a"; DownloadAll.name := lit "image_1";
      DownloadAll.downloadUrl := None |}] <> [] /\
  exists entries,
    fst (DownloadAll.POST sampleDownloadEnv sampleStore
           (Returned (Some [{| DownloadAll.id := lit "a";
                               DownloadAll.name := lit "image_1";
                               DownloadAll.downloadUrl := None |}])))
    = DownloadAll.Archive entries /\
    (List.length entries <= 1)%nat.
Proof.
  assert (H : [{| DownloadAll.id := lit "a"; DownloadAll.name := lit "image_1";
                  DownloadAll.downloadUrl := None |}] <> []) by discriminate.
  split; [exact H |].
  destruct (archive_entries sampleDownloadEnv sampleStore _ H)
    as [entries [Hrun [_ [Hlen _]]]].
  exists entries. split; [exact Hrun | exact Hlen].
Defined.

(** ** Serving after the cleanup *)

(** X27. When the download-all route has set its timer, the serve-image route
    serves after the cleanup only what it served before it, with the same
    content; and once the cleanup has run with every deletion succeeding it
    answers 'File not found' (404) for every plain file name, so the
    serve-image URLs of all earlier results stop working. *)
Theorem serve_after_cleanup (env : DownloadAll.Env) (store : DownloadAll.Store)
    (images : list DownloadAll.ImageRef) (readOk : bool) (filename : jsstring) :
  images <> [] ->
  ServeImage.plainName filename = true ->
  exists t,
    snd (DownloadAll.POST env store (Returned (Some images))) = [t] /\
    (forall content,
       ServeImage.GET (DownloadAll.callback t store) readOk filename
       = ServeImage.Served content ->
       ServeImage.GET store readOk filename = ServeImage.Served content) /\
    ((forall directory file, DownloadAll.canUnlink env directory file = true) ->
     ServeImage.statusOf
       (ServeImage.GET (DownloadAll.callback t store) readOk filename) = 404).
Proof.
  intros Hne _.
  exists {| DownloadAll.delay := 5000; DownloadAll.callback := DownloadAll.cleanup env |}.
  split; [destruct images as [| image rest]; [congruence | reflexivity] |].
  cbn [DownloadAll.callback]. unfold ServeImage.GET, DownloadAll.cleanup.
  cbn [DownloadAll.processed]. split.
  - intros content.
    destruct (DownloadAll.processed store) as [dir |]; cbn [DownloadAll.cleanDirectory];
      [| discriminate].
    destruct (DownloadAll.unlinkAll _ _ dir !! filename) as [file |] eqn:Hafter;
      [| discriminate].
    apply unlinkAll_only_deletes in Hafter. rewrite Hafter. auto.
  - intros Hcan.
    rewrite cleanDirectory_emptied by (intros file; apply Hcan).
    destruct (DownloadAll.processed store); cbn; [| reflexivity].
    rewrite lookup_empty. reflexivity.
Qed.

Lemma serve_after_cleanup_witness :
  ([{| DownloadAll.id := lit "a"; DownloadAll.name := lit "image_1";
      DownloadAll.downloadUrl := None |}] <> [] /\
   ServeImage.plainName (lit "1700000000000_image_1.png") = true /\
   ServeImage.GET sampleStore true (lit "1700000000000_image_1.png")
   = ServeImage.Served pngBytes) /\
  exists t,
    snd (DownloadAll.POST sampleDownloadEnv sampleStore
           (Returned (Some [{| DownloadAll.id := lit "a"; DownloadAll.name := lit "image_1";
      DownloadAll.downloadUrl := None |}]))) = [t] /\
    (forall content,
       ServeImage.GET (DownloadAll.callback t sampleStore) true
         (lit "1700000000000_image_1.png")
       = ServeImage.Served content ->
       ServeImage.GET sampleStore true (lit "1700000000000_image_1.png")
       = ServeImage.Served content) /\
    ((forall directory file,
        DownloadAll.canUnlink sampleDownloadEnv directory file = true) ->
     ServeImage.statusOf
       (ServeImage.GET (DownloadAll.callback t sampleStore) true
          (lit "1700000000000_image_1.png")) = 404).
Proof.
  split.
  - split; [discriminate | split; vm_compute; reflexivity].
  - apply serve_after_cleanup; [discriminate | vm_compute; reflexivity].
Defined.

(** ** The uploader *)

Lemma collect_spec (formats : list jsstring) (limit selectedCount : nat)
    (files : list ImageUploader.Offered) :
  forall validFiles,
    exists added,
      ImageUploader.collect formats limit selectedCount validFiles files
      = validFiles ++ added /\
      List.map ImageProcessor.fd_file added
      `sublist_of` List.map ImageUploader.off_file files /\
      Forall (fun file => In (file_type (ImageProcessor.fd_file file)) formats) added /\
      ((List.length validFiles + selectedCount <= limit)%nat ->
       (List.length (validFiles ++ added) + selectedCount <= limit)%nat) /\
      ((limit <= List.length validFiles + selectedCount)%nat -> added = []).
Proof.
  induction files as [| offered rest IH]; intros validFiles; cbn [ImageUploader.collect].
  - exists []. rewrite app_nil_r. repeat split; try constructor; auto.
  - destruct (includes formats (file_type (ImageUploader.off_file offered))) eqn:Hfmt;
      cbn [andb].
    + destruct (Nat.ltb_spec (List.length validFiles + selectedCount) limit)
        as [Hroom | Hfull].
      * destruct (IH (validFiles
                        ++ [{| ImageProcessor.fd_file := ImageUploader.off_file offered;
                               ImageProcessor.fd_preview := ImageUploader.off_preview offered;
                               ImageProcessor.fd_id := ImageUploader.off_id offered |}]))
          as [added [Hrun [Hsub [Htypes [Hcap Hstop]]]]].
        eexists (_ :: added). rewrite Hrun, <- app_assoc. cbn [app].
        split; [reflexivity |]. split; [cbn; apply sublist_skip; exact Hsub |].
        split; [constructor; [cbn; apply includes_In; exact Hfmt | exact Htypes] |].
        split.
        -- intros _. rewrite <- app_assoc in Hcap. cbn [app] in Hcap. apply Hcap.
           rewrite length_app. cbn. lia.
        -- intros Hge. lia.
      * destruct (IH validFiles) as [added [Hrun [Hsub [Htypes [Hcap Hstop]]]]].
        exists added. split; [exact Hrun |].
        split; [cbn; apply sublist_cons; exact Hsub |].
        split; [exact Htypes |]. split; [exact Hcap | exact Hstop].
    + destruct (IH validFiles) as [added [Hrun [Hsub [Htypes [Hcap Hstop]]]]].
      exists added. split; [exact Hrun |].
      split; [cbn; apply sublist_cons; exact Hsub |].
      split; [exact Htypes |]. split; [exact Hcap | exact Hstop].
Qed.

(** X28. When handleFiles changes the selection, the new selection is the
    old one followed by at least one added file; the added files are a
    subsequence of the offered files, each of an accepted type; the old
    selection was below maxFiles and the new one does not exceed it. *)
Theorem handleFiles_selection (formats : list jsstring) (limit : nat)
    (selectedFiles : list ImageProcessor.FileData)
    (files : list ImageUploader.Offered)
    (newFiles : list ImageProcessor.FileData) :
  ImageUploader.handleFiles formats limit selectedFiles files = Some newFiles ->
  exists added,
    added <> [] /\
    newFiles = selectedFiles ++ added /\
    List.map ImageProcessor.fd_file added
    `sublist_of` List.map ImageUploader.off_file files /\
    Forall (fun file => In (file_type (ImageProcessor.fd_file file)) formats) added /\
    (List.length selectedFiles < limit)%nat /\
    (List.length newFiles <= limit)%nat.
Proof.
  unfold ImageUploader.handleFiles.
  destruct (collect_spec formats limit (List.length selectedFiles) files [])
    as [added [Hrun [Hsub [Htypes [Hcap Hstop]]]]].
  rewrite Hrun. cbn [app] in *.
  destruct added as [| first more]; [discriminate |].
  intros E. injection E as <-. exists (first :: more).
  split; [discriminate |]. split; [reflexivity |].
  split; [exact Hsub |]. split; [exact Htypes |].
  assert (Hroom : (List.length selectedFiles < limit)%nat).
  { destruct (Nat.lt_ge_cases (List.length selectedFiles) limit) as [H | H];
      [exact H |]. specialize (Hstop H). discriminate Hstop. }
  split; [exact Hroom |].
  rewrite length_app. cbn [List.length Nat.add] in Hcap |- *.
  assert (Hle : (List.length selectedFiles <= limit)%nat) by lia.
  specialize (Hcap Hle). lia.
Qed.

Lemma handleFiles_selection_witness :
  ImageUploader.handleFiles ImageUploader.acceptedFormats 2 [fileA] sampleOffered
  = Some [fileA;
          {| ImageProcessor.fd_file := pngFile "d.png";
             ImageProcessor.fd_preview := lit "blob:d";
             ImageProcessor.fd_id := lit "d" |}] /\
  exists added,
    added <> [] /\
    [fileA;
     {| ImageProcessor.fd_file := pngFile "d.png";
        ImageProcessor.fd_preview := lit "blob:d";
        ImageProcessor.fd_id := lit "d" |}] = [fileA] ++ added /\
    List.map ImageProcessor.fd_file added
    `sublist_of` List.map ImageUploader.off_file sampleOffered /\
    Forall (fun file => In (file_type (ImageProcessor.fd_file file))
                          ImageUploader.acceptedFormats) added /\
    (List.length [fileA] < 2)%nat /\
    (List.length
       [fileA;
        {| ImageProcessor.fd_file := pngFile "d.png";
           ImageProcessor.fd_preview := lit "blob:d";
           ImageProcessor.fd_id := lit "d" |}] <= 2)%nat.
Proof.
  assert (H : ImageUploader.handleFiles ImageUploader.acceptedFormats 2 [fileA]
                sampleOffered
              = Some [fileA;
                      {| ImageProcessor.fd_file := pngFile "d.png";
                         ImageProcessor.fd_preview := lit "blob:d";
                         ImageProcessor.fd_id := lit "d" |}])
    by (vm_compute; reflexivity).
  split; [exact H |].
  exact (handleFiles_selection ImageUploader.acceptedFormats 2 [fileA]
           sampleOffered _ H).
Defined.




(** ** The arithmetic in binary64 *)

Lemma nearestEven_error (y : Q) :
  (Qabs (inject_Z (Binary64.nearestEven y) - y) <= 1 # 2)%Q.
Proof.
  unfold Binary64.nearestEven.
  pose proof (Qfloor_le y) as Hlo. pose proof (Qlt_floor y) as Hhi.
  set (n := Qfloor y) in *. clearbody n.
  rewrite inject_Z_plus in Hhi. change (inject_Z 1) with 1%Q in Hhi.
  destruct (Qcompare (y - inject_Z n) (1 # 2)) eqn:E.
  - apply Qeq_alt in E.
    destruct (Z.even n); [| rewrite inject_Z_plus; change (inject_Z 1) with 1%Q];
      apply Qabs_Qle_condition; split; lra.
  - apply Qlt_alt in E. apply Qabs_Qle_condition; split; lra.
  - apply Qgt_alt in E. rewrite inject_Z_plus. change (inject_Z 1) with 1%Q.
    apply Qabs_Qle_condition; split; lra.
Qed.

Lemma two_nonzero : ~ (2 == 0)%Q.
Proof. intros H. discriminate H. Qed.

Lemma pow2_pos (z : Z) : (0 < 2 ^ z)%Q.
Proof. apply Qpower_0_lt. reflexivity. Qed.

Lemma exponent_le (x : Q) : (0 < x)%Q -> (2 ^ Binary64.exponent x <= x)%Q.
Proof.
  intros Hx. unfold Binary64.exponent.
  destruct x as [p q]. cbn [Qnum Qden].
  assert (Hp : 0 < p) by (unfold Qlt in Hx; cbn in Hx; lia).
  set (lp := Z.log2 p). set (lq := Z.log2 (Z.pos q)).
  destruct (Qle_bool (2 ^ (lp - lq)) (p # q)) eqn:E.
  - apply Qle_bool_iff. exact E.
  - pose proof (Z.log2_spec p Hp) as [Hplo _]. fold lp in Hplo.
    pose proof (Z.log2_spec (Z.pos q) ltac:(lia)) as [_ Hqhi]. fold lq in Hqhi.
    assert (Hlp : 0 <= lp) by apply Z.log2_nonneg.
    assert (Hlq : 0 <= lq) by apply Z.log2_nonneg.
    replace (lp - lq - 1) with (lp - (lq + 1)) by lia.
    rewrite Qpower_minus by exact two_nonzero.
    change 2%Q with (inject_Z 2).
    rewrite <- !Zpower_Qpower by lia.
    apply Qle_shift_div_r.
    + change 0%Q with (inject_Z 0). rewrite <- Zlt_Qlt. lia.
    + unfold Qle, Qmult, inject_Z. cbn [Qnum Qden].
      rewrite Z.mul_1_r, Pos.mul_1_r.
      nia.
Qed.

Lemma nearest_error (x : Q) :
  (0 < x)%Q -> (Qabs (Binary64.nearest x - x) <= x * unitRoundoff)%Q.
Proof.
  intros Hx. unfold Binary64.nearest.
  pose proof (exponent_le x Hx) as He.
  set (e := Binary64.exponent x) in *. clearbody e.
  pose proof (pow2_pos (e - 52)) as Hulp.
  assert (Hsplit : (2 ^ (e - 52) == 2 ^ e / 2 ^ 52)%Q)
    by (apply Qpower_minus; exact two_nonzero).
  set (ulp := (2 ^ (e - 52))%Q) in *.
  pose proof (nearestEven_error (x / ulp)) as Hn.
  set (n := inject_Z (Binary64.nearestEven (x / ulp))) in *. clearbody n.
  assert (Hd : (n * ulp - x == (n - x / ulp) * ulp)%Q) by (field; lra).
  rewrite Hd, Qabs_Qmult, (Qabs_pos ulp) by lra.
  apply Qle_trans with ((1 # 2) * ulp)%Q.
  - apply Qmult_le_compat_r; [exact Hn | lra].
  - rewrite Hsplit. unfold unitRoundoff.
    assert (H52 : (2 ^ 52 == inject_Z (2 ^ 52))%Q) by reflexivity.
    rewrite H52.
    assert (Hgoal : ((1 # 2) * (2 ^ e / inject_Z (2 ^ 52)) == 2 ^ e * (1 # 2 ^ 53))%Q).
    { unfold Qdiv. rewrite Qmult_assoc, (Qmult_comm (1 # 2)), <- Qmult_assoc.
      apply Qmult_comp; [reflexivity |]. reflexivity. }
    rewrite Hgoal. apply Qmult_le_compat_r; [exact He | discriminate].
Qed.

Lemma round_error (x : Q) :
  (0 < x)%Q ->
  (Qabs (Binary64.round x - x) <= x * unitRoundoff)%Q /\ (0 < Binary64.round x)%Q.
Proof.
  intros Hx. unfold Binary64.round.
  destruct (Qcompare x 0) eqn:E.
  - apply Qeq_alt in E. lra.
  - apply Qlt_alt in E. lra.
  - pose proof (nearest_error x Hx) as H. split; [exact H |].
    apply Qabs_Qle_condition in H. unfold unitRoundoff in H.
    assert (Hu : (x * (1 # 2 ^ 53) < x)%Q).
    { rewrite <- (Qmult_1_r x) at 2. apply Qmult_lt_l; [exact Hx | reflexivity]. }
    lra.
Qed.

Lemma floor_between (y : Q) (k : Z) :
  (inject_Z k <= y)%Q -> (y < inject_Z k + 1)%Q -> Qfloor y = k.
Proof.
  intros Hlo Hhi.
  pose proof (Qfloor_le y) as Hf. pose proof (Qlt_floor y) as Hg.
  rewrite inject_Z_plus in Hg. change (inject_Z 1) with 1%Q in Hg.
  assert (H1 : (inject_Z (Qfloor y) < inject_Z (k + 1))%Q)
    by (rewrite inject_Z_plus; change (inject_Z 1) with 1%Q; lra).
  assert (H2 : (inject_Z k < inject_Z (Qfloor y + 1))%Q)
    by (rewrite inject_Z_plus; change (inject_Z 1) with 1%Q; lra).
  rewrite <- Zlt_Qlt in H1, H2. lia.
Qed.

Lemma scaled_agrees (w num den : Z) :
  0 < w -> 0 < num -> 0 < den -> w * num < 2 ^ 50 ->
  let k := (2 * w * num + den) / (2 * den) in
  let r := (2 * w * num + den) mod (2 * den) in
  (r <> 0 -> Binary64.scaled w num den = k) /\
  (r = 0 -> Binary64.scaled w num den = k \/ Binary64.scaled w num den = k - 1).
Proof.
  intros Hw Hnum Hden Hsmall k r.
  pose proof (Z.div_mod (2 * w * num + den) (2 * den) ltac:(lia)) as Hdm.
  pose proof (Z.mod_pos_bound (2 * w * num + den) (2 * den) ltac:(lia)) as Hr.
  fold k r in Hdm, Hr.
  unfold Binary64.scaled, Binary64.mul, Binary64.div, Math_round.
  assert (HW : (0 < inject_Z w)%Q)
    by (change 0%Q with (inject_Z 0); rewrite <- Zlt_Qlt; exact Hw).
  assert (HN : (0 < inject_Z num)%Q)
    by (change 0%Q with (inject_Z 0); rewrite <- Zlt_Qlt; exact Hnum).
  assert (HD : (0 < inject_Z den)%Q)
    by (change 0%Q with (inject_Z 0); rewrite <- Zlt_Qlt; exact Hden).
  set (dinv := (/ inject_Z den)%Q).
  assert (Hdinv : (0 < dinv)%Q) by (apply Qinv_lt_0_compat; exact HD).
  assert (Hone : (inject_Z den * dinv == 1)%Q) by (apply Qmult_inv_r; lra).
  set (x1 := (inject_Z num / inject_Z den)%Q).
  assert (Hx1 : (0 < x1)%Q) by (apply Qlt_shift_div_l; lra).
  destruct (round_error x1 Hx1) as [Hs Hspos].
  set (s := Binary64.round x1) in *. clearbody s.
  assert (Hx2 : (0 < inject_Z w * s)%Q) by (apply Qmult_lt_0_compat; assumption).
  destruct (round_error _ Hx2) as [Hp _].
  set (p := Binary64.round (inject_Z w * s)) in *. clearbody p.
  set (e := (inject_Z w * x1)%Q).
  assert (Hte : (Qabs (inject_Z w * s - e) <= e * unitRoundoff)%Q).
  { unfold e.
    assert (E : (inject_Z w * s - inject_Z w * x1 == inject_Z w * (s - x1))%Q) by ring.
    rewrite E, Qabs_Qmult, (Qabs_pos (inject_Z w)) by lra.
    rewrite <- Qmult_assoc. apply Qmult_le_l; [exact HW | exact Hs]. }
  set (t := (inject_Z w * s)%Q) in *. clearbody t.
  apply Qabs_Qle_condition in Hte. apply Qabs_Qle_condition in Hp.
  assert (HeN : (e == inject_Z (w * num) * dinv)%Q).
  { unfold e, x1, dinv. rewrite inject_Z_mult. unfold Qdiv. ring. }
  assert (HNsmall : (inject_Z (w * num) <= inject_Z (2 ^ 50))%Q)
    by (rewrite <- Zle_Qle; lia).
  assert (HNpos : (0 < inject_Z (w * num))%Q)
    by (change 0%Q with (inject_Z 0); rewrite <- Zlt_Qlt; nia).
  set (N := inject_Z (w * num)) in *.
  assert (Hid : (2 * e + 1 == 2 * inject_Z k + inject_Z r * dinv)%Q).
  { rewrite HeN.
    assert (Hq : (2 * N + inject_Z den == 2 * inject_Z den * inject_Z k + inject_Z r)%Q).
    { unfold N. change 2%Q with (inject_Z 2).
      rewrite <- !inject_Z_mult, <- !inject_Z_plus. apply inject_Z_injective.
      lia. }
    assert (Hq' : (2 * N * dinv + inject_Z den * dinv
                   == 2 * inject_Z k * (inject_Z den * dinv) + inject_Z r * dinv)%Q).
    { transitivity ((2 * N + inject_Z den) * dinv)%Q; [ring |].
      rewrite Hq. ring. }
    rewrite Hone in Hq'. lra. }
  assert (Herr : (e * unitRoundoff * (2 + unitRoundoff) < (1 # 2) * dinv)%Q).
  { rewrite HeN.
    assert (Hc : (N * unitRoundoff * (2 + unitRoundoff) < 1 # 2)%Q).
    { unfold unitRoundoff. change (inject_Z (2 ^ 50)) with (2 ^ 50 # 1)%Q in HNsmall.
      apply Qle_lt_trans with ((2 ^ 50 # 1) * (1 # 2 ^ 53) * (2 + (1 # 2 ^ 53)))%Q;
        [| reflexivity].
      apply Qmult_le_compat_r; [| discriminate].
      apply Qmult_le_compat_r; [exact HNsmall | discriminate]. }
    assert (E : (N * dinv * unitRoundoff * (2 + unitRoundoff) == N * unitRoundoff * (2 + unitRoundoff) * dinv)%Q) by ring.
    rewrite E. apply Qmult_lt_compat_r; assumption. }
  assert (Hepos : (0 < e)%Q) by (unfold e; apply Qmult_lt_0_compat; assumption).
  clearbody e N.
  assert (Hclose : (- ((1 # 2) * dinv) < p - e < (1 # 2) * dinv)%Q).
  { change unitRoundoff with (1 # 9007199254740992)%Q in *. split; lra. }
  assert (Hrq : (0 <= inject_Z r * dinv)%Q).
  { apply Qmult_le_0_compat; [| lra].
    change 0%Q with (inject_Z 0). rewrite <- Zle_Qle. lia. }
  split.
  - intros Hnz.
    assert (Hrlo : (dinv <= inject_Z r * dinv)%Q).
    { rewrite <- (Qmult_1_l dinv) at 1. apply Qmult_le_compat_r; [| lra].
      change 1%Q with (inject_Z 1). rewrite <- Zle_Qle. lia. }
    assert (Hrhi : (inject_Z r * dinv <= 2 - dinv)%Q).
    { assert (Hle : (inject_Z r <= 2 * inject_Z den - 1)%Q).
      { assert (Hz : r <= 2 * den - 1) by lia.
        rewrite Zle_Qle in Hz. unfold Z.sub in Hz.
        rewrite inject_Z_plus, inject_Z_mult in Hz.
        change (inject_Z 2) with 2%Q in Hz. change (inject_Z (- (1))) with (- (1))%Q in Hz.
        lra. }
      apply Qle_trans with ((2 * inject_Z den - 1) * dinv)%Q.
      - apply Qmult_le_compat_r; [exact Hle | lra].
      - assert (E : ((2 * inject_Z den - 1) * dinv
                     == 2 * (inject_Z den * dinv) - dinv)%Q) by ring.
        rewrite E, Hone. lra. }
    apply floor_between; lra.
  - intros Hz. rewrite Hz in Hid. change (inject_Z 0) with 0%Q in Hid.
    destruct (Qlt_le_dec (p + (1 # 2)) (inject_Z k)) as [Hbelow | Habove].
    + right. apply floor_between.
      * unfold Z.sub. rewrite inject_Z_plus. change (inject_Z (- (1))) with (- (1))%Q.
        assert (Hd1 : (dinv <= 1)%Q).
        { rewrite <- Hone. rewrite <- (Qmult_1_l dinv) at 1.
          apply Qmult_le_compat_r; [| lra].
          change 1%Q with (inject_Z 1). rewrite <- Zle_Qle. lia. }
        lra.
      * unfold Z.sub. rewrite inject_Z_plus. change (inject_Z (- (1))) with (- (1))%Q. lra.
    + left. apply floor_between; [exact Habove |].
      assert (Hd1 : (dinv <= 1)%Q).
      { rewrite <- Hone. rewrite <- (Qmult_1_l dinv) at 1.
        apply Qmult_le_compat_r; [| lra].
        change 1%Q with (inject_Z 1). rewrite <- Zle_Qle. lia. }
      lra.
Qed.

Lemma halfway_exact (axis num den : Z) :
  0 < den -> halfway axis num den ->
  (inject_Z (Math_round (inject_Z axis * (inject_Z num / inject_Z den)))
   == inject_Z axis * (inject_Z num / inject_Z den) + (1 # 2))%Q.
Proof.
  intros Hden Hhalf. rewrite (Math_round_ratio axis num den Hden).
  unfold halfway in Hhalf.
  pose proof (Z.div_mod (2 * axis * num + den) (2 * den) ltac:(lia)) as Hdm.
  rewrite Hhalf, Z.add_0_r in Hdm.
  set (k := (2 * axis * num + den) / (2 * den)) in *. clearbody k.
  assert (Hq : (2 * inject_Z axis * inject_Z num + inject_Z den
                == 2 * inject_Z den * inject_Z k)%Q).
  { change 2%Q with (inject_Z 2).
    rewrite <- !inject_Z_mult, <- !inject_Z_plus, Hdm. reflexivity. }
  assert (Hne : ~ (inject_Z den == 0)%Q) by (apply big_nonzero; exact Hden).
  assert (E : (inject_Z k
               == (2 * inject_Z axis * inject_Z num + inject_Z den)
                  / (2 * inject_Z den))%Q).
  { rewrite Hq. field. exact Hne. }
  rewrite E. field. exact Hne.
Qed.

Lemma scaled_cases (axis num den : Z) :
  0 < axis -> 0 < num -> 0 < den -> axis * num < 2 ^ 50 ->
  let rounded := Math_round (inject_Z axis * (inject_Z num / inject_Z den)) in
  (~ halfway axis num den -> Binary64.scaled axis num den = rounded) /\
  (halfway axis num den ->
   Binary64.scaled axis num den = rounded
   \/ Binary64.scaled axis num den = rounded - 1) /\
  (Qabs (inject_Z (Binary64.scaled axis num den)
         - inject_Z axis * (inject_Z num / inject_Z den)) <= 1 # 2)%Q.
Proof.
  intros Haxis Hnum Hden Hsmall rounded.
  destruct (scaled_agrees axis num den Haxis Hnum Hden Hsmall) as [Hno Htie].
  cbv zeta in Hno, Htie.
  rewrite <- (Math_round_ratio axis num den Hden) in Hno, Htie. fold rounded in Hno, Htie.
  split; [exact Hno |]. split; [exact Htie |].
  destruct (Z.eq_dec ((2 * axis * num + den) mod (2 * den)) 0) as [Hz | Hnz].
  - pose proof (halfway_exact axis num den Hden Hz) as Hexact. fold rounded in Hexact.
    destruct (Htie Hz) as [-> | ->].
    + apply Math_round_nearest.
    + unfold Z.sub. rewrite inject_Z_plus. change (inject_Z (- (1))) with (- (1))%Q.
      apply Qabs_Qle_condition. split; lra.
  - rewrite (Hno Hnz). apply Math_round_nearest.
Qed.

(** X30. Evaluated in binary64 as the source evaluates it,
    Math.round(axis * (num / den)) for positive integers with axis * num
    below 2^50 and den below 2^53 is the exactly rounded value of
    axis * num / den, except that it may be one less when axis * num / den
    lies exactly half-way between two integers; it is always within 1/2 of
    axis * num / den.  So for positive axes below 2^25
    calculateResizeDimensions in binary64 returns the flag and the longer
    axis of the exact evaluation, and each axis is the exact one or, at a
    half-way value, one less; each axis is within 1/2 of the axis scaled by
    m / longer axis, the longer axis of a resized image is m, and resizing
    the result again changes nothing. *)
Theorem binary64_resize_agrees (d : ImageDimensions) (m : Z) :
  0 < width d -> 0 < height d -> 0 < m -> maxAxis d < 2 ^ 25 ->
  let exact := calculateResizeDimensions d m in
  let code := Binary64.calculateResizeDimensions d m in
  (forall axis num den,
     0 < axis -> 0 < num -> 0 < den < 2 ^ 53 -> axis * num < 2 ^ 50 ->
     let rounded := Math_round (inject_Z axis * (inject_Z num / inject_Z den)) in
     (~ halfway axis num den -> Binary64.scaled axis num den = rounded) /\
     (halfway axis num den ->
      Binary64.scaled axis num den = rounded
      \/ Binary64.scaled axis num den = rounded - 1) /\
     (Qabs (inject_Z (Binary64.scaled axis num den)
            - inject_Z axis * (inject_Z num / inject_Z den)) <= 1 # 2)%Q) /\
  snd code = snd exact /\
  maxAxis (fst code) = maxAxis (fst exact) /\
  (width (fst code) = width (fst exact)
   \/ m < maxAxis d /\ halfway (width d) m (maxAxis d)
      /\ width (fst code) = width (fst exact) - 1) /\
  (height (fst code) = height (fst exact)
   \/ m < maxAxis d /\ halfway (height d) m (maxAxis d)
      /\ height (fst code) = height (fst exact) - 1) /\
  (m < maxAxis d ->
   let s := (inject_Z m / inject_Z (maxAxis d))%Q in
   snd code = true /\
   (Qabs (inject_Z (width (fst code)) - inject_Z (width d) * s) <= 1 # 2)%Q /\
   (Qabs (inject_Z (height (fst code)) - inject_Z (height d) * s) <= 1 # 2)%Q /\
   maxAxis (fst code) = m) /\
  Binary64.calculateResizeDimensions (fst code) m = (fst code, false).
Proof.
  intros Hw Hh Hm Hbound exact code.
  split.
  { intros axis num den Haxis Hnum [Hden _] Hsmall rounded.
    apply (scaled_cases axis num den Haxis Hnum Hden Hsmall). }
  subst exact code.
  destruct (Z.le_gt_cases (maxAxis d) m) as [Hle | Hlt].
  - assert (Hcode : Binary64.calculateResizeDimensions d m = (d, false)).
    { unfold Binary64.calculateResizeDimensions. fold (maxAxis d).
      destruct (Z.leb_spec (maxAxis d) m) as [_ | Hgt]; [reflexivity | lia]. }
    rewrite Hcode, (resize_small d m Hle). cbn [fst snd].
    repeat split; try (left; reflexivity); try lia; try exact Hcode.
  - set (big := maxAxis d) in *.
    assert (Hbig : 0 < big) by lia.
    assert (Hwb : width d <= big) by (unfold big, maxAxis; lia).
    assert (Hhb : height d <= big) by (unfold big, maxAxis; lia).
    assert (Hcode : Binary64.calculateResizeDimensions d m
                    = ({| width := Binary64.scaled (width d) m big;
                          height := Binary64.scaled (height d) m big |}, true)).
    { unfold Binary64.calculateResizeDimensions. fold (maxAxis d). fold big.
      destruct (Z.leb_spec big m) as [Hge | _]; [lia | reflexivity]. }
    pose proof (resize_large_max d m Hm Hlt) as Hmax.
    rewrite Hcode. rewrite (resize_large d m Hlt) in *. fold big in Hmax |- *.
    cbn [fst snd width height] in *.
    destruct (scaled_cases (width d) m big Hw Hm Hbig ltac:(nia))
      as [Hwno [Hwtie Hwacc]].
    destruct (scaled_cases (height d) m big Hh Hm Hbig ltac:(nia))
      as [Hhno [Hhtie Hhacc]].
    cbv zeta in *.
    set (ew := Math_round (inject_Z (width d) * (inject_Z m / inject_Z big))) in *.
    set (eh := Math_round (inject_Z (height d) * (inject_Z m / inject_Z big))) in *.
    assert (Hew : ew <= m) by (apply scaled_le; assumption).
    assert (Heh : eh <= m) by (apply scaled_le; assumption).
    assert (Hnot : ~ halfway big m big).
    { unfold halfway. replace (2 * big * m + big) with (big + m * (2 * big)) by ring.
      rewrite Z.mod_add by lia. rewrite Z.mod_small by lia. lia. }
    assert (Hcw : Binary64.scaled (width d) m big = ew
                  \/ halfway (width d) m big
                     /\ Binary64.scaled (width d) m big = ew - 1).
    { destruct (Z.eq_dec ((2 * width d * m + big) mod (2 * big)) 0) as [Hz | Hnz].
      - destruct (Hwtie Hz) as [E | E]; [left; exact E | right; split; assumption].
      - left. apply Hwno. exact Hnz. }
    assert (Hch : Binary64.scaled (height d) m big = eh
                  \/ halfway (height d) m big
                     /\ Binary64.scaled (height d) m big = eh - 1).
    { destruct (Z.eq_dec ((2 * height d * m + big) mod (2 * big)) 0) as [Hz | Hnz].
      - destruct (Hhtie Hz) as [E | E]; [left; exact E | right; split; assumption].
      - left. apply Hhno. exact Hnz. }
    unfold maxAxis in Hmax |- *. cbn [width height] in Hmax |- *.
    assert (Hcodemax : Z.max (Binary64.scaled (width d) m big)
                         (Binary64.scaled (height d) m big) = m).
    { destruct (Z.max_spec (width d) (height d)) as [[_ E] | [_ E]];
        fold (maxAxis d) in E; fold big in E.
      - assert (Hsh : Binary64.scaled (height d) m big = m).
        { destruct Hch as [Es | [Hhalf _]];
            [| rewrite <- E in Hhalf at 1; contradiction].
          rewrite Es. unfold eh. rewrite <- E at 1. apply scaled_big. exact Hbig. }
        destruct Hcw as [Es | [_ Es]]; lia.
      - assert (Hsw : Binary64.scaled (width d) m big = m).
        { destruct Hcw as [Es | [Hhalf _]];
            [| rewrite <- E in Hhalf at 1; contradiction].
          rewrite Es. unfold ew. rewrite <- E at 1. apply scaled_big. exact Hbig. }
        destruct Hch as [Es | [_ Es]]; lia. }
    split; [reflexivity |]. split; [lia |].
    split; [destruct Hcw as [Es | [Hhalf Es]]; [left; exact Es | right; auto] |].
    split; [destruct Hch as [Es | [Hhalf Es]]; [left; exact Es | right; auto] |].
    split.
    + intros _. split; [reflexivity |]. split; [exact Hwacc |].
      split; [exact Hhacc | exact Hcodemax].
    + unfold Binary64.calculateResizeDimensions. cbn [width height].
      rewrite Hcodemax, Z.leb_refl. reflexivity.
Qed.

Lemma binary64_resize_agrees_witness :
  (0 < width wide /\ 0 < height wide /\ 0 < 1300 /\ maxAxis wide < 2 ^ 25) /\
  (Binary64.calculateResizeDimensions wide 1300
   = ({| width := 1300; height := 487 |}, true) /\
   calculateResizeDimensions wide 1300
   = ({| width := 1300; height := 488 |}, true)) /\
  (height (fst (Binary64.calculateResizeDimensions wide 1300))
   = height (fst (calculateResizeDimensions wide 1300))
   \/ 1300 < maxAxis wide /\ halfway (height wide) 1300 (maxAxis wide)
      /\ height (fst (Binary64.calculateResizeDimensions wide 1300))
         = height (fst (calculateResizeDimensions wide 1300)) - 1) /\
  Binary64.calculateResizeDimensions
    (fst (Binary64.calculateResizeDimensions wide 1300)) 1300
  = (fst (Binary64.calculateResizeDimensions wide 1300), false).
Proof.
  assert (H1 : 0 < width wide) by reflexivity.
  assert (H2 : 0 < height wide) by reflexivity.
  assert (H3 : 0 < 1300) by reflexivity.
  assert (H4 : maxAxis wide < 2 ^ 25) by reflexivity.
  destruct (binary64_resize_agrees wide 1300 H1 H2 H3 H4)
    as [_ [_ [_ [_ [Hheight [_ Hagain]]]]]].
  split; [repeat split |].
  split; [split; vm_compute; reflexivity |].
  split; [exact Hheight | exact Hagain].
Defined.

(** The two inputs at which the exact evaluation and the evaluation in
    binary64 differ, and an upscale of 1216 by 589 to 4000. *)
Example binary64_ties :
  Binary64.scaled 612 1300 1632 = 487 /\
  Math_round (inject_Z 612 * (inject_Z 1300 / inject_Z 1632)) = 488 /\
  Binary64.scaled 49 100 9800 = 0 /\
  Math_round (inject_Z 49 * (inject_Z 100 / inject_Z 9800)) = 1 /\
  Binary64.scaled 589 4000 1216 = 1937 /\
  Math_round (inject_Z 589 * (inject_Z 4000 / inject_Z 1216)) = 1938.
Proof. repeat split; vm_compute; reflexivity. Qed.
